(** * Elmo EtherCAT drive controller: state machine, PDO and SDO paths

    A shallow embedding of [src/elmo_ethercat_sdk/Elmo.cpp].  The class
    [elmo::Elmo] becomes the record [Elmo]; its member functions become
    computations in a state monad over that record.  Everything the
    translation unit only includes (the controlword and statusword classes,
    the command, the bus master, the clock, floating point) is gathered in
    the interface [Collaborators], so every result below holds for any
    implementation of those headers. *)

From Stdlib Require Import ZArith List Bool Lia.
Import ListNotations.
Open Scope Z_scope.

(** ** Enumerations *)

(** Modelled from the spec: the enumeration [DriveState] is declared in a
    header outside [Elmo.cpp]; section 3 of the specification lists its
    values (the six defined states, the transient not-ready state and the
    unknown outcome of decoding). *)
Module DriveState.
Inductive t : Set :=
| NotReadyToSwitchOn
| SwitchOnDisabled
| ReadyToSwitchOn
| SwitchedOn
| OperationEnabled
| QuickStopActive
| Fault
| Unknown.

Definition eqb (a b : t) : bool :=
  match a, b with
  | NotReadyToSwitchOn, NotReadyToSwitchOn => true
  | SwitchOnDisabled, SwitchOnDisabled => true
  | ReadyToSwitchOn, ReadyToSwitchOn => true
  | SwitchedOn, SwitchedOn => true
  | OperationEnabled, OperationEnabled => true
  | QuickStopActive, QuickStopActive => true
  | Fault, Fault => true
  | Unknown, Unknown => true
  | _, _ => false
  end.
End DriveState.

(** The transitions named by [stateTransitionViaSdo] and
    [getNextStateTransitionControlword]. *)
Module StateTransition.
Inductive t : Set :=
| _2 | _3 | _4 | _5 | _6 | _7 | _8 | _9 | _10 | _11 | _12 | _15.

Definition eqb (a b : t) : bool :=
  match a, b with
  | _2, _2 | _3, _3 | _4, _4 | _5, _5 | _6, _6 | _7, _7 => true
  | _8, _8 | _9, _9 | _10, _10 | _11, _11 | _12, _12 | _15, _15 => true
  | _, _ => false
  end.
End StateTransition.

(** The error kinds [Elmo.cpp] passes to [Reading::addError]. *)
Module ErrorType.
Inductive t : Set :=
| ConfigurationError
| SdoStateTransitionError
| PdoStateTransitionError
| ErrorReadingError
| ModeOfOperationError
| PdoMappingError
| TxPdoMappingError
| RxPdoTypeError
| TxPdoTypeError.

Definition eqb (a b : t) : bool :=
  match a, b with
  | ConfigurationError, ConfigurationError => true
  | SdoStateTransitionError, SdoStateTransitionError => true
  | PdoStateTransitionError, PdoStateTransitionError => true
  | ErrorReadingError, ErrorReadingError => true
  | ModeOfOperationError, ModeOfOperationError => true
  | PdoMappingError, PdoMappingError => true
  | TxPdoMappingError, TxPdoMappingError => true
  | RxPdoTypeError, RxPdoTypeError => true
  | TxPdoTypeError, TxPdoTypeError => true
  | _, _ => false
  end.
End ErrorType.

(** [Unimplemented] stands for every value of the underlying type that the
    switch statements of [Elmo.cpp] reach only through [default:]. *)
Module RxPdoTypeEnum.
Inductive t : Set := NA | RxPdoStandard | RxPdoCST | Unimplemented.

Definition eqb (a b : t) : bool :=
  match a, b with
  | NA, NA | RxPdoStandard, RxPdoStandard | RxPdoCST, RxPdoCST => true
  | Unimplemented, Unimplemented => true
  | _, _ => false
  end.
End RxPdoTypeEnum.

Module TxPdoTypeEnum.
Inductive t : Set := NA | TxPdoStandard | TxPdoCST | Unimplemented.

Definition eqb (a b : t) : bool :=
  match a, b with
  | NA, NA | TxPdoStandard, TxPdoStandard | TxPdoCST, TxPdoCST => true
  | Unimplemented, Unimplemented => true
  | _, _ => false
  end.
End TxPdoTypeEnum.

(** Only [NA] is named in [Elmo.cpp]; [Mode k] is any other mode. *)
Module ModeOfOperationEnum.
Inductive t : Set := NA | Mode (k : Z).

Definition isNA (m : t) : bool :=
  match m with NA => true | Mode _ => false end.
End ModeOfOperationEnum.

(** The object-dictionary entries [Elmo.cpp] addresses.  Their numeric
    values live in [ObjectDictionary.hpp]; only their identity matters. *)
Module OdIndex.
Inductive t : Set :=
| OD_INDEX_ERROR_CODE
| OD_INDEX_MOTOR_RATED_CURRENT
| OD_INDEX_MOTOR_RATED_TORQUE
| OD_INDEX_MAX_CURRENT
| OD_INDEX_MODES_OF_OPERATION
| OD_INDEX_STATUSWORD
| OD_INDEX_CONTROLWORD
| OD_INDEX_RX_PDO_ASSIGNMENT
| OD_INDEX_TX_PDO_ASSIGNMENT.

Definition eqb (a b : t) : bool :=
  match a, b with
  | OD_INDEX_ERROR_CODE, OD_INDEX_ERROR_CODE => true
  | OD_INDEX_MOTOR_RATED_CURRENT, OD_INDEX_MOTOR_RATED_CURRENT => true
  | OD_INDEX_MOTOR_RATED_TORQUE, OD_INDEX_MOTOR_RATED_TORQUE => true
  | OD_INDEX_MAX_CURRENT, OD_INDEX_MAX_CURRENT => true
  | OD_INDEX_MODES_OF_OPERATION, OD_INDEX_MODES_OF_OPERATION => true
  | OD_INDEX_STATUSWORD, OD_INDEX_STATUSWORD => true
  | OD_INDEX_CONTROLWORD, OD_INDEX_CONTROLWORD => true
  | OD_INDEX_RX_PDO_ASSIGNMENT, OD_INDEX_RX_PDO_ASSIGNMENT => true
  | OD_INDEX_TX_PDO_ASSIGNMENT, OD_INDEX_TX_PDO_ASSIGNMENT => true
  | _, _ => false
  end.
End OdIndex.

(** ** Process-data records *)

(** The fields [updateWrite] fills in ([RxPdo.hpp]). *)
Record RxPdoStandard : Set := {
  rxs_targetPosition_ : Z;
  rxs_targetVelocity_ : Z;
  rxs_targetTorque_ : Z;
  rxs_maxTorque_ : Z;
  rxs_modeOfOperation_ : Z;
  rxs_torqueOffset_ : Z;
  rxs_controlWord_ : Z
}.

Record RxPdoCST : Set := {
  rxc_targetTorque_ : Z;
  rxc_modeOfOperation_ : Z;
  rxc_controlWord_ : Z
}.

(** The fields [updateRead] consumes ([TxPdo.hpp]). *)
Record TxPdoStandard : Set := {
  txs_actualPosition_ : Z;
  txs_digitalInputs_ : Z;
  txs_actualVelocity_ : Z;
  txs_statusword_ : Z;
  txs_analogInput_ : Z;
  txs_actualCurrent_ : Z;
  txs_busVoltage_ : Z
}.

Record TxPdoCST : Set := {
  txc_actualPosition_ : Z;
  txc_actualTorque_ : Z;
  txc_statusword_ : Z;
  txc_actualVelocity_ : Z
}.

(** ** The outside world

    Every call that leaves the object is logged as an [Event]; the log is
    kept newest first.  What the outside answers is a function of the log
    so far, which covers any bus, drive and clock behaviour. *)
Inductive Event : Set :=
| SdoWrite (index : OdIndex.t) (subindex : Z) (completeAccess : bool) (value : Z)
| SdoRead (index : OdIndex.t) (subindex : Z) (completeAccess : bool)
| WriteRxPdoStandard (rxPdo : RxPdoStandard)
| WriteRxPdoCST (rxPdo : RxPdoCST)
| ReadTxPdoStandard
| ReadTxPdoCST
| GetHardwarePdoSizes
| SetStateInit
| Usleep (microseconds : Z)
| SteadyClockNow.

Definition isMailboxOn (i : OdIndex.t) (ev : Event) : bool :=
  match ev with
  | SdoWrite j _ _ _ => OdIndex.eqb i j
  | SdoRead j _ _ => OdIndex.eqb i j
  | _ => false
  end.

Definition isMailbox (ev : Event) : bool :=
  match ev with
  | SdoWrite _ _ _ _ | SdoRead _ _ _ => true
  | _ => false
  end.

Definition isSdoWrite (ev : Event) : bool :=
  match ev with SdoWrite _ _ _ _ => true | _ => false end.

Definition isWriteRxPdo (ev : Event) : bool :=
  match ev with
  | WriteRxPdoStandard _ | WriteRxPdoCST _ => true
  | _ => false
  end.

Definition isReadTxPdo (ev : Event) : bool :=
  match ev with
  | ReadTxPdoStandard | ReadTxPdoCST => true
  | _ => false
  end.

(** How many inbound records have been read so far. *)
Definition readsSoFar (t : list Event) : nat :=
  length (filter isReadTxPdo t).

(** [static_cast<uint32_t>] and [static_cast<uint16_t>] of an integral
    value: what is left of it in 32 and in 16 bits. *)
Definition static_cast_uint32_t (z : Z) : Z := z mod 2 ^ 32.

Definition static_cast_uint16_t (z : Z) : Z := z mod 2 ^ 16.

(** Everything [Elmo.cpp] uses and does not define. *)
Class Collaborators : Type := {
  (** [Controlword.hpp]: the controlword object, its default constructor
      and the mutators and accessor called here. *)
  Controlword : Type;
  newControlword : Controlword;
  setAllFalse : Controlword -> Controlword;
  setStateTransition : StateTransition.t -> Controlword -> Controlword;
  getRawControlword : Controlword -> Z;
  (** [Statusword.hpp]: [setFromRawStatusword] followed by [getDriveState]. *)
  getDriveState : Z -> DriveState.t;
  (** [Command.hpp]. *)
  Command : Type;
  getTargetPositionRaw : Command -> Z;
  getTargetVelocityRaw : Command -> Z;
  getTargetTorqueRaw : Command -> Z;
  getMaxTorqueRaw : Command -> Z;
  getTorqueOffsetRaw : Command -> Z;
  getModeOfOperation : Command -> ModeOfOperationEnum.t;
  (** [static_cast<int8_t>] of a mode of operation. *)
  modeOfOperationInt8 : ModeOfOperationEnum.t -> Z;
  (** [double] and the arithmetic done on it. *)
  Double : Type;
  isZero : Double -> bool;
  fromMilli : Z -> Double;
  (** [round (1000.0 * x)] and [floor (1000.0 * x)], as integers, before
      any cast to a fixed width. *)
  roundMilli : Double -> Z;
  floorMilli : Double -> Z;
  (** The setters and [doUnitConversion] that [stageCommand] applies to a
      copy of the command: encoder resolution, rated current, motor
      constant, gear ratio, maximum current and the raw-command switch. *)
  convertCommand : Z -> Double -> Double -> Double -> Double -> bool -> Command -> Command;
  (** The bus master behind [bus_]. *)
  sdoWriteAnswer : list Event -> OdIndex.t -> Z -> bool -> Z -> bool;
  sdoReadAnswer : list Event -> OdIndex.t -> Z -> bool -> bool * Z;
  txPdoStandardAnswer : list Event -> TxPdoStandard;
  txPdoCSTAnswer : list Event -> TxPdoCST;
  hardwarePdoSizesAnswer : list Event -> Z * Z;
  (** [std::chrono::steady_clock::now()], in microseconds. *)
  steadyClockAnswer : list Event -> Z
}.

Section Driver.
Context {C : Collaborators}.

(** ** Data owned by the controller *)

Record Configuration : Type := {
  motorRatedCurrentA : Double;
  maxCurrentA : Double;
  motorConstant : Double;
  gearRatio : Double;
  positionEncoderResolution : Z;
  useRawCommands : bool;
  useMultipleModeOfOperations : bool;
  modeOfOperationEnum : ModeOfOperationEnum.t;
  rxPdoTypeEnum : RxPdoTypeEnum.t;
  txPdoTypeEnum : TxPdoTypeEnum.t;
  configRunSdoVerifyTimeout : Z;
  driveStateChangeMinTimeout : Z;
  driveStateChangeMaxTimeout : Z;
  minNumberOfSuccessfulTargetStateReadings : Z
}.

Definition set_motorRatedCurrentA (v : Double) (c : Configuration) : Configuration :=
  {| motorRatedCurrentA := v; maxCurrentA := maxCurrentA c;
     motorConstant := motorConstant c; gearRatio := gearRatio c;
     positionEncoderResolution := positionEncoderResolution c;
     useRawCommands := useRawCommands c;
     useMultipleModeOfOperations := useMultipleModeOfOperations c;
     modeOfOperationEnum := modeOfOperationEnum c;
     rxPdoTypeEnum := rxPdoTypeEnum c; txPdoTypeEnum := txPdoTypeEnum c;
     configRunSdoVerifyTimeout := configRunSdoVerifyTimeout c;
     driveStateChangeMinTimeout := driveStateChangeMinTimeout c;
     driveStateChangeMaxTimeout := driveStateChangeMaxTimeout c;
     minNumberOfSuccessfulTargetStateReadings :=
       minNumberOfSuccessfulTargetStateReadings c |}.

(** Modelled from the spec: the class [Reading] is defined outside
    [Elmo.cpp].  Following section 3 it is a telemetry snapshot with the
    accumulated errors and faults; [errors] and [faults] hold the arguments
    of the [addError] and [addFault] calls made so far, newest first. *)
Record Reading : Type := {
  actualPosition : Z;
  digitalInputs : Z;
  actualVelocity : Z;
  statusword : Z;
  analogInput : Z;
  actualCurrent : Z;
  busVoltage : Z;
  errors : list ErrorType.t;
  faults : list Z;
  configuredWith : option Configuration
}.

Definition set_actualPosition (v : Z) (r : Reading) : Reading :=
  {| actualPosition := v; digitalInputs := digitalInputs r; actualVelocity := actualVelocity
     r; statusword := statusword r; analogInput := analogInput r; actualCurrent :=
     actualCurrent r; busVoltage := busVoltage r; errors := errors r; faults := faults r;
     configuredWith := configuredWith r |}.

Definition set_digitalInputs (v : Z) (r : Reading) : Reading :=
  {| actualPosition := actualPosition r; digitalInputs := v; actualVelocity :=
     actualVelocity r; statusword := statusword r; analogInput := analogInput r;
     actualCurrent := actualCurrent r; busVoltage := busVoltage r; errors := errors r;
     faults := faults r; configuredWith := configuredWith r |}.

Definition set_actualVelocity (v : Z) (r : Reading) : Reading :=
  {| actualPosition := actualPosition r; digitalInputs := digitalInputs r; actualVelocity :=
     v; statusword := statusword r; analogInput := analogInput r; actualCurrent :=
     actualCurrent r; busVoltage := busVoltage r; errors := errors r; faults := faults r;
     configuredWith := configuredWith r |}.

Definition set_statusword (v : Z) (r : Reading) : Reading :=
  {| actualPosition := actualPosition r; digitalInputs := digitalInputs r; actualVelocity :=
     actualVelocity r; statusword := v; analogInput := analogInput r; actualCurrent :=
     actualCurrent r; busVoltage := busVoltage r; errors := errors r; faults := faults r;
     configuredWith := configuredWith r |}.

Definition set_analogInput (v : Z) (r : Reading) : Reading :=
  {| actualPosition := actualPosition r; digitalInputs := digitalInputs r; actualVelocity :=
     actualVelocity r; statusword := statusword r; analogInput := v; actualCurrent :=
     actualCurrent r; busVoltage := busVoltage r; errors := errors r; faults := faults r;
     configuredWith := configuredWith r |}.

Definition set_actualCurrent (v : Z) (r : Reading) : Reading :=
  {| actualPosition := actualPosition r; digitalInputs := digitalInputs r; actualVelocity :=
     actualVelocity r; statusword := statusword r; analogInput := analogInput r;
     actualCurrent := v; busVoltage := busVoltage r; errors := errors r; faults := faults r;
     configuredWith := configuredWith r |}.

Definition set_busVoltage (v : Z) (r : Reading) : Reading :=
  {| actualPosition := actualPosition r; digitalInputs := digitalInputs r; actualVelocity :=
     actualVelocity r; statusword := statusword r; analogInput := analogInput r;
     actualCurrent := actualCurrent r; busVoltage := v; errors := errors r; faults := faults
     r; configuredWith := configuredWith r |}.

Definition set_errors (v : list ErrorType.t) (r : Reading) : Reading :=
  {| actualPosition := actualPosition r; digitalInputs := digitalInputs r; actualVelocity :=
     actualVelocity r; statusword := statusword r; analogInput := analogInput r;
     actualCurrent := actualCurrent r; busVoltage := busVoltage r; errors := v; faults :=
     faults r; configuredWith := configuredWith r |}.

Definition set_faults (v : list Z) (r : Reading) : Reading :=
  {| actualPosition := actualPosition r; digitalInputs := digitalInputs r; actualVelocity :=
     actualVelocity r; statusword := statusword r; analogInput := analogInput r;
     actualCurrent := actualCurrent r; busVoltage := busVoltage r; errors := errors r;
     faults := v; configuredWith := configuredWith r |}.

Definition set_configuredWith (v : option Configuration) (r : Reading) : Reading :=
  {| actualPosition := actualPosition r; digitalInputs := digitalInputs r; actualVelocity :=
     actualVelocity r; statusword := statusword r; analogInput := analogInput r;
     actualCurrent := actualCurrent r; busVoltage := busVoltage r; errors := errors r;
     faults := faults r; configuredWith := v |}.

Definition addError (err : ErrorType.t) (r : Reading) : Reading :=
  set_errors (err :: errors r) r.

Definition addFault (fault : Z) (r : Reading) : Reading :=
  set_faults (fault :: faults r) r.

Definition configureReading (c : Configuration) (r : Reading) : Reading :=
  set_configuredWith (Some c) r.

Definition Reading_getDriveState (r : Reading) : DriveState.t :=
  getDriveState (statusword r).

Record PdoInfo : Set := {
  rxPdoSize_ : Z;
  txPdoSize_ : Z
}.

(** The members of [elmo::Elmo] that [Elmo.cpp] reads or writes, and
    [trace_], the log of the calls that left the object.  The widths of
    the integer members are fixed in [Elmo.hpp], not here; the counter and
    the time point are kept as unbounded integers. *)
Record Elmo : Type := {
  rxPdoTypeEnum_ : RxPdoTypeEnum.t;
  txPdoTypeEnum_ : TxPdoTypeEnum.t;
  currentRxPdoTypeEnum_ : RxPdoTypeEnum.t;
  currentTxPdoTypeEnum_ : TxPdoTypeEnum.t;
  modeOfOperation_ : ModeOfOperationEnum.t;
  allowModeChange_ : bool;
  conductStateChange_ : bool;
  hasRead_ : bool;
  stateChangeSuccessful_ : bool;
  targetDriveState_ : DriveState.t;
  numberOfSuccessfulTargetStateReadings_ : Z;
  driveStateChangeTimePoint_ : Z;
  controlword_ : Controlword;
  stagedCommand_ : Command;
  reading_ : Reading;
  configuration_ : Configuration;
  pdoInfo_ : PdoInfo;
  trace_ : list Event
}.

Definition set_currentRxPdoTypeEnum_ (v : RxPdoTypeEnum.t) (e : Elmo) : Elmo :=
  {| rxPdoTypeEnum_ := rxPdoTypeEnum_ e; txPdoTypeEnum_ := txPdoTypeEnum_ e;
     currentRxPdoTypeEnum_ := v; currentTxPdoTypeEnum_ := currentTxPdoTypeEnum_ e;
     modeOfOperation_ := modeOfOperation_ e; allowModeChange_ := allowModeChange_ e;
     conductStateChange_ := conductStateChange_ e; hasRead_ := hasRead_ e;
     stateChangeSuccessful_ := stateChangeSuccessful_ e; targetDriveState_ :=
     targetDriveState_ e; numberOfSuccessfulTargetStateReadings_ :=
     numberOfSuccessfulTargetStateReadings_ e; driveStateChangeTimePoint_ :=
     driveStateChangeTimePoint_ e; controlword_ := controlword_ e; stagedCommand_ :=
     stagedCommand_ e; reading_ := reading_ e; configuration_ := configuration_ e; pdoInfo_
     := pdoInfo_ e; trace_ := trace_ e |}.

Definition set_currentTxPdoTypeEnum_ (v : TxPdoTypeEnum.t) (e : Elmo) : Elmo :=
  {| rxPdoTypeEnum_ := rxPdoTypeEnum_ e; txPdoTypeEnum_ := txPdoTypeEnum_ e;
     currentRxPdoTypeEnum_ := currentRxPdoTypeEnum_ e; currentTxPdoTypeEnum_ := v;
     modeOfOperation_ := modeOfOperation_ e; allowModeChange_ := allowModeChange_ e;
     conductStateChange_ := conductStateChange_ e; hasRead_ := hasRead_ e;
     stateChangeSuccessful_ := stateChangeSuccessful_ e; targetDriveState_ :=
     targetDriveState_ e; numberOfSuccessfulTargetStateReadings_ :=
     numberOfSuccessfulTargetStateReadings_ e; driveStateChangeTimePoint_ :=
     driveStateChangeTimePoint_ e; controlword_ := controlword_ e; stagedCommand_ :=
     stagedCommand_ e; reading_ := reading_ e; configuration_ := configuration_ e; pdoInfo_
     := pdoInfo_ e; trace_ := trace_ e |}.

Definition set_modeOfOperation_ (v : ModeOfOperationEnum.t) (e : Elmo) : Elmo :=
  {| rxPdoTypeEnum_ := rxPdoTypeEnum_ e; txPdoTypeEnum_ := txPdoTypeEnum_ e;
     currentRxPdoTypeEnum_ := currentRxPdoTypeEnum_ e; currentTxPdoTypeEnum_ :=
     currentTxPdoTypeEnum_ e; modeOfOperation_ := v; allowModeChange_ := allowModeChange_ e;
     conductStateChange_ := conductStateChange_ e; hasRead_ := hasRead_ e;
     stateChangeSuccessful_ := stateChangeSuccessful_ e; targetDriveState_ :=
     targetDriveState_ e; numberOfSuccessfulTargetStateReadings_ :=
     numberOfSuccessfulTargetStateReadings_ e; driveStateChangeTimePoint_ :=
     driveStateChangeTimePoint_ e; controlword_ := controlword_ e; stagedCommand_ :=
     stagedCommand_ e; reading_ := reading_ e; configuration_ := configuration_ e; pdoInfo_
     := pdoInfo_ e; trace_ := trace_ e |}.

Definition set_allowModeChange_ (v : bool) (e : Elmo) : Elmo :=
  {| rxPdoTypeEnum_ := rxPdoTypeEnum_ e; txPdoTypeEnum_ := txPdoTypeEnum_ e;
     currentRxPdoTypeEnum_ := currentRxPdoTypeEnum_ e; currentTxPdoTypeEnum_ :=
     currentTxPdoTypeEnum_ e; modeOfOperation_ := modeOfOperation_ e; allowModeChange_ := v;
     conductStateChange_ := conductStateChange_ e; hasRead_ := hasRead_ e;
     stateChangeSuccessful_ := stateChangeSuccessful_ e; targetDriveState_ :=
     targetDriveState_ e; numberOfSuccessfulTargetStateReadings_ :=
     numberOfSuccessfulTargetStateReadings_ e; driveStateChangeTimePoint_ :=
     driveStateChangeTimePoint_ e; controlword_ := controlword_ e; stagedCommand_ :=
     stagedCommand_ e; reading_ := reading_ e; configuration_ := configuration_ e; pdoInfo_
     := pdoInfo_ e; trace_ := trace_ e |}.

Definition set_conductStateChange_ (v : bool) (e : Elmo) : Elmo :=
  {| rxPdoTypeEnum_ := rxPdoTypeEnum_ e; txPdoTypeEnum_ := txPdoTypeEnum_ e;
     currentRxPdoTypeEnum_ := currentRxPdoTypeEnum_ e; currentTxPdoTypeEnum_ :=
     currentTxPdoTypeEnum_ e; modeOfOperation_ := modeOfOperation_ e; allowModeChange_ :=
     allowModeChange_ e; conductStateChange_ := v; hasRead_ := hasRead_ e;
     stateChangeSuccessful_ := stateChangeSuccessful_ e; targetDriveState_ :=
     targetDriveState_ e; numberOfSuccessfulTargetStateReadings_ :=
     numberOfSuccessfulTargetStateReadings_ e; driveStateChangeTimePoint_ :=
     driveStateChangeTimePoint_ e; controlword_ := controlword_ e; stagedCommand_ :=
     stagedCommand_ e; reading_ := reading_ e; configuration_ := configuration_ e; pdoInfo_
     := pdoInfo_ e; trace_ := trace_ e |}.

Definition set_hasRead_ (v : bool) (e : Elmo) : Elmo :=
  {| rxPdoTypeEnum_ := rxPdoTypeEnum_ e; txPdoTypeEnum_ := txPdoTypeEnum_ e;
     currentRxPdoTypeEnum_ := currentRxPdoTypeEnum_ e; currentTxPdoTypeEnum_ :=
     currentTxPdoTypeEnum_ e; modeOfOperation_ := modeOfOperation_ e; allowModeChange_ :=
     allowModeChange_ e; conductStateChange_ := conductStateChange_ e; hasRead_ := v;
     stateChangeSuccessful_ := stateChangeSuccessful_ e; targetDriveState_ :=
     targetDriveState_ e; numberOfSuccessfulTargetStateReadings_ :=
     numberOfSuccessfulTargetStateReadings_ e; driveStateChangeTimePoint_ :=
     driveStateChangeTimePoint_ e; controlword_ := controlword_ e; stagedCommand_ :=
     stagedCommand_ e; reading_ := reading_ e; configuration_ := configuration_ e; pdoInfo_
     := pdoInfo_ e; trace_ := trace_ e |}.

Definition set_stateChangeSuccessful_ (v : bool) (e : Elmo) : Elmo :=
  {| rxPdoTypeEnum_ := rxPdoTypeEnum_ e; txPdoTypeEnum_ := txPdoTypeEnum_ e;
     currentRxPdoTypeEnum_ := currentRxPdoTypeEnum_ e; currentTxPdoTypeEnum_ :=
     currentTxPdoTypeEnum_ e; modeOfOperation_ := modeOfOperation_ e; allowModeChange_ :=
     allowModeChange_ e; conductStateChange_ := conductStateChange_ e; hasRead_ := hasRead_
     e; stateChangeSuccessful_ := v; targetDriveState_ := targetDriveState_ e;
     numberOfSuccessfulTargetStateReadings_ := numberOfSuccessfulTargetStateReadings_ e;
     driveStateChangeTimePoint_ := driveStateChangeTimePoint_ e; controlword_ :=
     controlword_ e; stagedCommand_ := stagedCommand_ e; reading_ := reading_ e;
     configuration_ := configuration_ e; pdoInfo_ := pdoInfo_ e; trace_ := trace_ e |}.

Definition set_targetDriveState_ (v : DriveState.t) (e : Elmo) : Elmo :=
  {| rxPdoTypeEnum_ := rxPdoTypeEnum_ e; txPdoTypeEnum_ := txPdoTypeEnum_ e;
     currentRxPdoTypeEnum_ := currentRxPdoTypeEnum_ e; currentTxPdoTypeEnum_ :=
     currentTxPdoTypeEnum_ e; modeOfOperation_ := modeOfOperation_ e; allowModeChange_ :=
     allowModeChange_ e; conductStateChange_ := conductStateChange_ e; hasRead_ := hasRead_
     e; stateChangeSuccessful_ := stateChangeSuccessful_ e; targetDriveState_ := v;
     numberOfSuccessfulTargetStateReadings_ := numberOfSuccessfulTargetStateReadings_ e;
     driveStateChangeTimePoint_ := driveStateChangeTimePoint_ e; controlword_ :=
     controlword_ e; stagedCommand_ := stagedCommand_ e; reading_ := reading_ e;
     configuration_ := configuration_ e; pdoInfo_ := pdoInfo_ e; trace_ := trace_ e |}.

Definition set_numberOfSuccessfulTargetStateReadings_ (v : Z) (e : Elmo) : Elmo :=
  {| rxPdoTypeEnum_ := rxPdoTypeEnum_ e; txPdoTypeEnum_ := txPdoTypeEnum_ e;
     currentRxPdoTypeEnum_ := currentRxPdoTypeEnum_ e; currentTxPdoTypeEnum_ :=
     currentTxPdoTypeEnum_ e; modeOfOperation_ := modeOfOperation_ e; allowModeChange_ :=
     allowModeChange_ e; conductStateChange_ := conductStateChange_ e; hasRead_ := hasRead_
     e; stateChangeSuccessful_ := stateChangeSuccessful_ e; targetDriveState_ :=
     targetDriveState_ e; numberOfSuccessfulTargetStateReadings_ := v;
     driveStateChangeTimePoint_ := driveStateChangeTimePoint_ e; controlword_ :=
     controlword_ e; stagedCommand_ := stagedCommand_ e; reading_ := reading_ e;
     configuration_ := configuration_ e; pdoInfo_ := pdoInfo_ e; trace_ := trace_ e |}.

Definition set_driveStateChangeTimePoint_ (v : Z) (e : Elmo) : Elmo :=
  {| rxPdoTypeEnum_ := rxPdoTypeEnum_ e; txPdoTypeEnum_ := txPdoTypeEnum_ e;
     currentRxPdoTypeEnum_ := currentRxPdoTypeEnum_ e; currentTxPdoTypeEnum_ :=
     currentTxPdoTypeEnum_ e; modeOfOperation_ := modeOfOperation_ e; allowModeChange_ :=
     allowModeChange_ e; conductStateChange_ := conductStateChange_ e; hasRead_ := hasRead_
     e; stateChangeSuccessful_ := stateChangeSuccessful_ e; targetDriveState_ :=
     targetDriveState_ e; numberOfSuccessfulTargetStateReadings_ :=
     numberOfSuccessfulTargetStateReadings_ e; driveStateChangeTimePoint_ := v; controlword_
     := controlword_ e; stagedCommand_ := stagedCommand_ e; reading_ := reading_ e;
     configuration_ := configuration_ e; pdoInfo_ := pdoInfo_ e; trace_ := trace_ e |}.

Definition set_controlword_ (v : Controlword) (e : Elmo) : Elmo :=
  {| rxPdoTypeEnum_ := rxPdoTypeEnum_ e; txPdoTypeEnum_ := txPdoTypeEnum_ e;
     currentRxPdoTypeEnum_ := currentRxPdoTypeEnum_ e; currentTxPdoTypeEnum_ :=
     currentTxPdoTypeEnum_ e; modeOfOperation_ := modeOfOperation_ e; allowModeChange_ :=
     allowModeChange_ e; conductStateChange_ := conductStateChange_ e; hasRead_ := hasRead_
     e; stateChangeSuccessful_ := stateChangeSuccessful_ e; targetDriveState_ :=
     targetDriveState_ e; numberOfSuccessfulTargetStateReadings_ :=
     numberOfSuccessfulTargetStateReadings_ e; driveStateChangeTimePoint_ :=
     driveStateChangeTimePoint_ e; controlword_ := v; stagedCommand_ := stagedCommand_ e;
     reading_ := reading_ e; configuration_ := configuration_ e; pdoInfo_ := pdoInfo_ e;
     trace_ := trace_ e |}.

Definition set_stagedCommand_ (v : Command) (e : Elmo) : Elmo :=
  {| rxPdoTypeEnum_ := rxPdoTypeEnum_ e; txPdoTypeEnum_ := txPdoTypeEnum_ e;
     currentRxPdoTypeEnum_ := currentRxPdoTypeEnum_ e; currentTxPdoTypeEnum_ :=
     currentTxPdoTypeEnum_ e; modeOfOperation_ := modeOfOperation_ e; allowModeChange_ :=
     allowModeChange_ e; conductStateChange_ := conductStateChange_ e; hasRead_ := hasRead_
     e; stateChangeSuccessful_ := stateChangeSuccessful_ e; targetDriveState_ :=
     targetDriveState_ e; numberOfSuccessfulTargetStateReadings_ :=
     numberOfSuccessfulTargetStateReadings_ e; driveStateChangeTimePoint_ :=
     driveStateChangeTimePoint_ e; controlword_ := controlword_ e; stagedCommand_ := v;
     reading_ := reading_ e; configuration_ := configuration_ e; pdoInfo_ := pdoInfo_ e;
     trace_ := trace_ e |}.

Definition set_reading_ (v : Reading) (e : Elmo) : Elmo :=
  {| rxPdoTypeEnum_ := rxPdoTypeEnum_ e; txPdoTypeEnum_ := txPdoTypeEnum_ e;
     currentRxPdoTypeEnum_ := currentRxPdoTypeEnum_ e; currentTxPdoTypeEnum_ :=
     currentTxPdoTypeEnum_ e; modeOfOperation_ := modeOfOperation_ e; allowModeChange_ :=
     allowModeChange_ e; conductStateChange_ := conductStateChange_ e; hasRead_ := hasRead_
     e; stateChangeSuccessful_ := stateChangeSuccessful_ e; targetDriveState_ :=
     targetDriveState_ e; numberOfSuccessfulTargetStateReadings_ :=
     numberOfSuccessfulTargetStateReadings_ e; driveStateChangeTimePoint_ :=
     driveStateChangeTimePoint_ e; controlword_ := controlword_ e; stagedCommand_ :=
     stagedCommand_ e; reading_ := v; configuration_ := configuration_ e; pdoInfo_ :=
     pdoInfo_ e; trace_ := trace_ e |}.

Definition set_configuration_ (v : Configuration) (e : Elmo) : Elmo :=
  {| rxPdoTypeEnum_ := rxPdoTypeEnum_ e; txPdoTypeEnum_ := txPdoTypeEnum_ e;
     currentRxPdoTypeEnum_ := currentRxPdoTypeEnum_ e; currentTxPdoTypeEnum_ :=
     currentTxPdoTypeEnum_ e; modeOfOperation_ := modeOfOperation_ e; allowModeChange_ :=
     allowModeChange_ e; conductStateChange_ := conductStateChange_ e; hasRead_ := hasRead_
     e; stateChangeSuccessful_ := stateChangeSuccessful_ e; targetDriveState_ :=
     targetDriveState_ e; numberOfSuccessfulTargetStateReadings_ :=
     numberOfSuccessfulTargetStateReadings_ e; driveStateChangeTimePoint_ :=
     driveStateChangeTimePoint_ e; controlword_ := controlword_ e; stagedCommand_ :=
     stagedCommand_ e; reading_ := reading_ e; configuration_ := v; pdoInfo_ := pdoInfo_ e;
     trace_ := trace_ e |}.

Definition set_pdoInfo_ (v : PdoInfo) (e : Elmo) : Elmo :=
  {| rxPdoTypeEnum_ := rxPdoTypeEnum_ e; txPdoTypeEnum_ := txPdoTypeEnum_ e;
     currentRxPdoTypeEnum_ := currentRxPdoTypeEnum_ e; currentTxPdoTypeEnum_ :=
     currentTxPdoTypeEnum_ e; modeOfOperation_ := modeOfOperation_ e; allowModeChange_ :=
     allowModeChange_ e; conductStateChange_ := conductStateChange_ e; hasRead_ := hasRead_
     e; stateChangeSuccessful_ := stateChangeSuccessful_ e; targetDriveState_ :=
     targetDriveState_ e; numberOfSuccessfulTargetStateReadings_ :=
     numberOfSuccessfulTargetStateReadings_ e; driveStateChangeTimePoint_ :=
     driveStateChangeTimePoint_ e; controlword_ := controlword_ e; stagedCommand_ :=
     stagedCommand_ e; reading_ := reading_ e; configuration_ := configuration_ e; pdoInfo_
     := v; trace_ := trace_ e |}.

Definition set_trace_ (v : list Event) (e : Elmo) : Elmo :=
  {| rxPdoTypeEnum_ := rxPdoTypeEnum_ e; txPdoTypeEnum_ := txPdoTypeEnum_ e;
     currentRxPdoTypeEnum_ := currentRxPdoTypeEnum_ e; currentTxPdoTypeEnum_ :=
     currentTxPdoTypeEnum_ e; modeOfOperation_ := modeOfOperation_ e; allowModeChange_ :=
     allowModeChange_ e; conductStateChange_ := conductStateChange_ e; hasRead_ := hasRead_
     e; stateChangeSuccessful_ := stateChangeSuccessful_ e; targetDriveState_ :=
     targetDriveState_ e; numberOfSuccessfulTargetStateReadings_ :=
     numberOfSuccessfulTargetStateReadings_ e; driveStateChangeTimePoint_ :=
     driveStateChangeTimePoint_ e; controlword_ := controlword_ e; stagedCommand_ :=
     stagedCommand_ e; reading_ := reading_ e; configuration_ := configuration_ e; pdoInfo_
     := pdoInfo_ e; trace_ := v |}.

(** ** The state monad of member functions *)

Definition M (A : Type) : Type := Elmo -> A * Elmo.

Definition ret {A : Type} (a : A) : M A := fun e => (a, e).

Definition bind {A B : Type} (m : M A) (k : A -> M B) : M B :=
  fun e => let (a, e') := m e in k a e'.

Definition get {A : Type} (f : Elmo -> A) : M A := fun e => (f e, e).

Definition modify (f : Elmo -> Elmo) : M unit := fun e => (tt, f e).

Notation "x <- m ;; k" := (bind m (fun x => k))
  (at level 61, m at next level, right associativity).
Notation "m ;;; k" := (bind m (fun _ => k))
  (at level 61, right associativity).

(** [if (c) { m }] *)
Definition when (c : bool) (m : M unit) : M unit :=
  if c then m else ret tt.

Definition emit (ev : Event) : M unit :=
  modify (fun e => set_trace_ (ev :: trace_ e) e).

(** ** Calls that leave the object *)

Definition sendSdoWrite (index : OdIndex.t) (subindex : Z) (completeAccess : bool)
  (value : Z) : M bool :=
  t <- get trace_ ;;
  emit (SdoWrite index subindex completeAccess value) ;;;
  ret (sdoWriteAnswer t index subindex completeAccess value).

Definition sendSdoRead (index : OdIndex.t) (subindex : Z) (completeAccess : bool)
  : M (bool * Z) :=
  t <- get trace_ ;;
  emit (SdoRead index subindex completeAccess) ;;;
  ret (sdoReadAnswer t index subindex completeAccess).

Definition usleep (microseconds : Z) : M unit :=
  emit (Usleep microseconds).

Definition steady_clock_now : M Z :=
  t <- get trace_ ;;
  emit SteadyClockNow ;;;
  ret (steadyClockAnswer t).

(** Modelled from the spec: [sdoVerifyWrite] is a member template defined
    outside [Elmo.cpp].  Section 4.2: write a value, then read it back and
    require equality before declaring the step successful. *)
Definition sdoVerifyWrite (index : OdIndex.t) (subindex : Z) (completeAccess : bool)
  (value : Z) (delay : Z) : M bool :=
  _ <- sendSdoWrite index subindex completeAccess value ;;
  usleep delay ;;;
  r <- sendSdoRead index subindex completeAccess ;;
  ret (value =? snd r).

Definition addErrorToReading (errorType : ErrorType.t) : M unit :=
  modify (fun e => set_reading_ (addError errorType (reading_ e)) e).

(** ** Transition selection *)

Definition getNextStateTransitionControlword
  (requestedDriveState currentDriveState : DriveState.t) : M Controlword :=
  let controlword := setAllFalse newControlword in
  match requestedDriveState with
  | DriveState.SwitchOnDisabled =>
      match currentDriveState with
      | DriveState.SwitchOnDisabled =>
          addErrorToReading ErrorType.PdoStateTransitionError ;;; ret controlword
      | DriveState.ReadyToSwitchOn =>
          ret (setStateTransition StateTransition._7 controlword)
      | DriveState.SwitchedOn =>
          ret (setStateTransition StateTransition._10 controlword)
      | DriveState.OperationEnabled =>
          ret (setStateTransition StateTransition._9 controlword)
      | DriveState.QuickStopActive =>
          ret (setStateTransition StateTransition._12 controlword)
      | DriveState.Fault =>
          ret (setStateTransition StateTransition._15 controlword)
      | _ =>
          addErrorToReading ErrorType.PdoStateTransitionError ;;; ret controlword
      end
  | DriveState.ReadyToSwitchOn =>
      match currentDriveState with
      | DriveState.SwitchOnDisabled =>
          ret (setStateTransition StateTransition._2 controlword)
      | DriveState.ReadyToSwitchOn =>
          addErrorToReading ErrorType.PdoStateTransitionError ;;; ret controlword
      | DriveState.SwitchedOn =>
          ret (setStateTransition StateTransition._6 controlword)
      | DriveState.OperationEnabled =>
          ret (setStateTransition StateTransition._8 controlword)
      | DriveState.QuickStopActive =>
          ret (setStateTransition StateTransition._12 controlword)
      | DriveState.Fault =>
          ret (setStateTransition StateTransition._15 controlword)
      | _ =>
          addErrorToReading ErrorType.PdoStateTransitionError ;;; ret controlword
      end
  | DriveState.SwitchedOn =>
      match currentDriveState with
      | DriveState.SwitchOnDisabled =>
          ret (setStateTransition StateTransition._2 controlword)
      | DriveState.ReadyToSwitchOn =>
          ret (setStateTransition StateTransition._3 controlword)
      | DriveState.SwitchedOn =>
          addErrorToReading ErrorType.PdoStateTransitionError ;;; ret controlword
      | DriveState.OperationEnabled =>
          ret (setStateTransition StateTransition._5 controlword)
      | DriveState.QuickStopActive =>
          ret (setStateTransition StateTransition._12 controlword)
      | DriveState.Fault =>
          ret (setStateTransition StateTransition._15 controlword)
      | _ =>
          addErrorToReading ErrorType.PdoStateTransitionError ;;; ret controlword
      end
  | DriveState.OperationEnabled =>
      match currentDriveState with
      | DriveState.SwitchOnDisabled =>
          ret (setStateTransition StateTransition._2 controlword)
      | DriveState.ReadyToSwitchOn =>
          ret (setStateTransition StateTransition._3 controlword)
      | DriveState.SwitchedOn =>
          ret (setStateTransition StateTransition._4 controlword)
      | DriveState.OperationEnabled =>
          addErrorToReading ErrorType.PdoStateTransitionError ;;; ret controlword
      | DriveState.QuickStopActive =>
          ret (setStateTransition StateTransition._12 controlword)
      | DriveState.Fault =>
          ret (setStateTransition StateTransition._15 controlword)
      | _ =>
          addErrorToReading ErrorType.PdoStateTransitionError ;;; ret controlword
      end
  | DriveState.QuickStopActive =>
      match currentDriveState with
      | DriveState.SwitchOnDisabled =>
          ret (setStateTransition StateTransition._2 controlword)
      | DriveState.ReadyToSwitchOn =>
          ret (setStateTransition StateTransition._3 controlword)
      | DriveState.SwitchedOn =>
          ret (setStateTransition StateTransition._4 controlword)
      | DriveState.OperationEnabled =>
          ret (setStateTransition StateTransition._11 controlword)
      | DriveState.QuickStopActive =>
          addErrorToReading ErrorType.PdoStateTransitionError ;;; ret controlword
      | DriveState.Fault =>
          ret (setStateTransition StateTransition._15 controlword)
      | _ =>
          addErrorToReading ErrorType.PdoStateTransitionError ;;; ret controlword
      end
  | _ =>
      addErrorToReading ErrorType.PdoStateTransitionError ;;; ret controlword
  end.

(** ** Cyclic process-data path *)

(** [success &= f()]: the call is made whatever [success] holds. *)
Definition andAssign (success : bool) (m : M bool) : M bool :=
  b <- m ;; ret (success && b).

Definition engagePdoStateMachine : M unit :=
  now <- steady_clock_now ;;
  changed <- get driveStateChangeTimePoint_ ;;
  let microsecondsSinceChange := now - changed in
  currentDriveState <- get (fun e => Reading_getDriveState (reading_ e)) ;;
  target <- get targetDriveState_ ;;
  cfg <- get configuration_ ;;
  if DriveState.eqb currentDriveState target then
    modify (fun e => set_numberOfSuccessfulTargetStateReadings_
                       (numberOfSuccessfulTargetStateReadings_ e + 1) e) ;;;
    n <- get numberOfSuccessfulTargetStateReadings_ ;;
    if n >=? minNumberOfSuccessfulTargetStateReadings cfg then
      modify (set_conductStateChange_ false) ;;;
      modify (set_numberOfSuccessfulTargetStateReadings_ 0) ;;;
      modify (set_stateChangeSuccessful_ true)
    else
      modify (set_hasRead_ false)
  else
    when (microsecondsSinceChange >? driveStateChangeMinTimeout cfg)
      (cw <- getNextStateTransitionControlword target currentDriveState ;;
       modify (set_controlword_ cw) ;;;
       t <- steady_clock_now ;;
       modify (set_driveStateChangeTimePoint_ t)) ;;;
    modify (set_hasRead_ false).

(** The [switch] on [currentRxPdoTypeEnum_] that ends [updateWrite]. *)
Definition writeRxPdo : M unit :=
  rxType <- get currentRxPdoTypeEnum_ ;;
  cmd <- get stagedCommand_ ;;
  mode <- get modeOfOperation_ ;;
  cw <- get controlword_ ;;
  match rxType with
  | RxPdoTypeEnum.RxPdoStandard =>
      emit (WriteRxPdoStandard
              {| rxs_targetPosition_ := getTargetPositionRaw cmd;
                 rxs_targetVelocity_ := getTargetVelocityRaw cmd;
                 rxs_targetTorque_ := getTargetTorqueRaw cmd;
                 rxs_maxTorque_ := getMaxTorqueRaw cmd;
                 rxs_modeOfOperation_ := modeOfOperationInt8 mode;
                 rxs_torqueOffset_ := getTorqueOffsetRaw cmd;
                 rxs_controlWord_ := getRawControlword cw |})
  | RxPdoTypeEnum.RxPdoCST =>
      emit (WriteRxPdoCST
              {| rxc_targetTorque_ := getTargetTorqueRaw cmd;
                 rxc_modeOfOperation_ := modeOfOperationInt8 mode;
                 rxc_controlWord_ := getRawControlword cw |})
  | _ => addErrorToReading ErrorType.RxPdoTypeError
  end.

Definition updateWrite : M unit :=
  mode <- get modeOfOperation_ ;;
  if ModeOfOperationEnum.isNA mode then
    modify (fun e => set_reading_ (addError ErrorType.ModeOfOperationError (reading_ e)) e)
  else
    conduct <- get conductStateChange_ ;;
    hasRead <- get hasRead_ ;;
    when (conduct && hasRead) engagePdoStateMachine ;;;
    writeRxPdo.

Definition modifyReading (f : Reading -> Reading) : M unit :=
  modify (fun e => set_reading_ (f (reading_ e)) e).

(** The [switch] on [currentTxPdoTypeEnum_] that opens [updateRead]. *)
Definition readTxPdo : M unit :=
  txType <- get currentTxPdoTypeEnum_ ;;
  match txType with
  | TxPdoTypeEnum.TxPdoStandard =>
      t <- get trace_ ;;
      emit ReadTxPdoStandard ;;;
      let txPdo := txPdoStandardAnswer t in
      modifyReading (set_actualPosition (txs_actualPosition_ txPdo)) ;;;
      modifyReading (set_digitalInputs (txs_digitalInputs_ txPdo)) ;;;
      modifyReading (set_actualVelocity (txs_actualVelocity_ txPdo)) ;;;
      modifyReading (set_statusword (txs_statusword_ txPdo)) ;;;
      modifyReading (set_analogInput (txs_analogInput_ txPdo)) ;;;
      modifyReading (set_actualCurrent (txs_actualCurrent_ txPdo)) ;;;
      modifyReading (set_busVoltage (txs_busVoltage_ txPdo))
  | TxPdoTypeEnum.TxPdoCST =>
      t <- get trace_ ;;
      emit ReadTxPdoCST ;;;
      let txPdo := txPdoCSTAnswer t in
      modifyReading (set_actualPosition (txc_actualPosition_ txPdo)) ;;;
      modifyReading (set_actualCurrent (txc_actualTorque_ txPdo)) ;;;
      modifyReading (set_statusword (txc_statusword_ txPdo)) ;;;
      modifyReading (set_actualVelocity (txc_actualVelocity_ txPdo))
  | _ => modifyReading (addError ErrorType.TxPdoTypeError)
  end.

(** The fault check that closes [updateRead]. *)
Definition readFaultCode : M unit :=
  state <- get (fun e => Reading_getDriveState (reading_ e)) ;;
  when (DriveState.eqb state DriveState.Fault)
    (r <- sendSdoRead OdIndex.OD_INDEX_ERROR_CODE 0 false ;;
     if fst r then modifyReading (addFault (snd r))
     else modifyReading (addError ErrorType.ErrorReadingError)).

(** [if (!hasRead_) hasRead_ = true;] *)
Definition markRead : M unit :=
  hasRead <- get hasRead_ ;;
  when (negb hasRead) (modify (set_hasRead_ true)).

Definition updateRead : M unit :=
  readTxPdo ;;;
  markRead ;;;
  readFaultCode.

(** ** Blocking state change over the mailbox *)

Definition getStatuswordViaSdo : M (bool * Z) :=
  sendSdoRead OdIndex.OD_INDEX_STATUSWORD 0 false.

Definition setControlwordViaSdo (controlword : Controlword) : M bool :=
  sendSdoWrite OdIndex.OD_INDEX_CONTROLWORD 0 false (getRawControlword controlword).

(** Every enumerator has its own case, each of which applies the setter of
    that number to a fresh controlword and writes it. *)
Definition stateTransitionViaSdo (stateTransition : StateTransition.t) : M bool :=
  setControlwordViaSdo (setStateTransition stateTransition newControlword).

(** A run of [success &= stateTransitionViaSdo(...)] statements. *)
Fixpoint transitionsViaSdo (success : bool) (ts : list StateTransition.t) : M bool :=
  match ts with
  | [] => ret success
  | t :: rest =>
      success <- andAssign success (stateTransitionViaSdo t) ;;
      transitionsViaSdo success rest
  end.

Definition transitionNotImplemented : M bool :=
  addErrorToReading ErrorType.SdoStateTransitionError ;;; ret false.

Definition setDriveStateViaSdo (driveState : DriveState.t) : M bool :=
  r <- getStatuswordViaSdo ;;
  let success := true && fst r in
  let currentDriveState := getDriveState (snd r) in
  let _2 := StateTransition._2 in
  let _3 := StateTransition._3 in
  let _4 := StateTransition._4 in
  let _5 := StateTransition._5 in
  let _6 := StateTransition._6 in
  let _7 := StateTransition._7 in
  let _8 := StateTransition._8 in
  let _9 := StateTransition._9 in
  let _10 := StateTransition._10 in
  let _11 := StateTransition._11 in
  let _12 := StateTransition._12 in
  let _15 := StateTransition._15 in
  match driveState with
  | DriveState.SwitchOnDisabled =>
      match currentDriveState with
      | DriveState.SwitchOnDisabled => ret (success && true)
      | DriveState.ReadyToSwitchOn => transitionsViaSdo success [_7]
      | DriveState.SwitchedOn => transitionsViaSdo success [_10]
      | DriveState.OperationEnabled => transitionsViaSdo success [_9]
      | DriveState.QuickStopActive => transitionsViaSdo success [_12]
      | DriveState.Fault => transitionsViaSdo success [_15]
      | _ => transitionNotImplemented
      end
  | DriveState.ReadyToSwitchOn =>
      match currentDriveState with
      | DriveState.SwitchOnDisabled => transitionsViaSdo success [_2]
      | DriveState.ReadyToSwitchOn => ret (success && true)
      | DriveState.SwitchedOn => transitionsViaSdo success [_6]
      | DriveState.OperationEnabled => transitionsViaSdo success [_8]
      | DriveState.QuickStopActive => transitionsViaSdo success [_12; _2]
      | DriveState.Fault => transitionsViaSdo success [_15; _2]
      | _ => transitionNotImplemented
      end
  | DriveState.SwitchedOn =>
      match currentDriveState with
      | DriveState.SwitchOnDisabled => transitionsViaSdo success [_2; _3]
      | DriveState.ReadyToSwitchOn => transitionsViaSdo success [_3]
      | DriveState.SwitchedOn => ret (success && true)
      | DriveState.OperationEnabled => transitionsViaSdo success [_5]
      | DriveState.QuickStopActive => transitionsViaSdo success [_12; _2; _3]
      | DriveState.Fault => transitionsViaSdo success [_15; _2; _3]
      | _ => transitionNotImplemented
      end
  | DriveState.OperationEnabled =>
      match currentDriveState with
      | DriveState.SwitchOnDisabled => transitionsViaSdo success [_2; _3; _4]
      | DriveState.ReadyToSwitchOn => transitionsViaSdo success [_3; _4]
      | DriveState.SwitchedOn => transitionsViaSdo success [_4]
      | DriveState.OperationEnabled => ret (success && true)
      | DriveState.QuickStopActive => transitionsViaSdo success [_12; _2; _3; _4]
      | DriveState.Fault => transitionsViaSdo success [_15; _2; _3; _4]
      | _ => transitionNotImplemented
      end
  | DriveState.QuickStopActive =>
      match currentDriveState with
      | DriveState.SwitchOnDisabled => transitionsViaSdo success [_2; _3; _4; _11]
      | DriveState.ReadyToSwitchOn => transitionsViaSdo success [_3; _4; _11]
      | DriveState.SwitchedOn => transitionsViaSdo success [_4; _11]
      | DriveState.OperationEnabled => transitionsViaSdo success [_11]
      | DriveState.QuickStopActive => ret (success && true)
      | DriveState.Fault => transitionsViaSdo success [_15; _2; _3; _4; _11]
      | _ => transitionNotImplemented
      end
  | _ => transitionNotImplemented
  end.

(** ** Non-blocking state change over process data *)

(** The polling loop of [setDriveStateViaPdo].  [mutex_] is released only
    around [usleep(1000)]; [others k] is whatever the other threads do to
    the object during the [k]-th sleep.  The loop has no bound of its own
    (a clock that stands still keeps it alive), so it runs on [fuel] and
    answers [None] when the fuel is spent. *)
Fixpoint waitForStateChange (others : nat -> Elmo -> Elmo) (fuel : nat) (k : nat)
  (driveStateChangeStartTimePoint : Z) : M (option bool) :=
  match fuel with
  | O => ret None
  | S fuel' =>
      successful <- get stateChangeSuccessful_ ;;
      if successful then ret (Some true)
      else
        now <- steady_clock_now ;;
        maxTimeout <- get (fun e => driveStateChangeMaxTimeout (configuration_ e)) ;;
        if now - driveStateChangeStartTimePoint >? maxTimeout then ret (Some false)
        else
          usleep 1000 ;;;
          modify (others k) ;;;
          waitForStateChange others fuel' (S k) driveStateChangeStartTimePoint
  end.

Definition setDriveStateViaPdo (others : nat -> Elmo -> Elmo) (fuel : nat)
  (driveState : DriveState.t) (waitForState : bool) : M (option bool) :=
  modify (set_stateChangeSuccessful_ false) ;;;
  modify (set_conductStateChange_ true) ;;;
  modify (set_targetDriveState_ driveState) ;;;
  modify (set_hasRead_ false) ;;;
  t <- steady_clock_now ;;
  modify (set_driveStateChangeTimePoint_ t) ;;;
  driveStateChangeStartTimePoint <- steady_clock_now ;;
  if negb waitForState then ret (Some true)
  else waitForStateChange others fuel O driveStateChangeStartTimePoint.

(** ** PDO mapping *)

Definition getCurrentRxPdoTypeEnum : M RxPdoTypeEnum.t := get currentRxPdoTypeEnum_.

Definition getCurrentTxPdoTypeEnum : M TxPdoTypeEnum.t := get currentTxPdoTypeEnum_.

Definition configureRxPdo (rxPdoTypeEnum : RxPdoTypeEnum.t) : M bool :=
  if RxPdoTypeEnum.eqb rxPdoTypeEnum RxPdoTypeEnum.NA then
    addErrorToReading ErrorType.RxPdoTypeError ;;; ret false
  else
    current <- getCurrentRxPdoTypeEnum ;;
    if RxPdoTypeEnum.eqb rxPdoTypeEnum current then ret true
    else modify (set_currentRxPdoTypeEnum_ rxPdoTypeEnum) ;;; ret true.

Definition configureTxPdo (txPdoTypeEnum : TxPdoTypeEnum.t) : M bool :=
  if TxPdoTypeEnum.eqb txPdoTypeEnum TxPdoTypeEnum.NA then
    addErrorToReading ErrorType.RxPdoTypeError ;;; ret false
  else
    current <- getCurrentTxPdoTypeEnum ;;
    if TxPdoTypeEnum.eqb txPdoTypeEnum current then ret true
    else modify (set_currentTxPdoTypeEnum_ txPdoTypeEnum) ;;; ret true.

Definition mapRxPdo (rxPdoTypeEnum : RxPdoTypeEnum.t) : M bool :=
  timeout <- get (fun e => configRunSdoVerifyTimeout (configuration_ e)) ;;
  let rxSuccess := true in
  let RX := OdIndex.OD_INDEX_RX_PDO_ASSIGNMENT in
  match rxPdoTypeEnum with
  | RxPdoTypeEnum.RxPdoStandard =>
      usleep timeout ;;;
      rxSuccess <- andAssign rxSuccess (sdoVerifyWrite RX 0 false 0 timeout) ;;
      usleep timeout ;;;
      rxSuccess <- andAssign rxSuccess (sdoVerifyWrite RX 1 false 0x1605 timeout) ;;
      usleep timeout ;;;
      rxSuccess <- andAssign rxSuccess (sdoVerifyWrite RX 2 false 0x1618 timeout) ;;
      usleep timeout ;;;
      rxSuccess <- andAssign rxSuccess (sdoVerifyWrite RX 0 false 2 timeout) ;;
      usleep timeout ;;;
      ret rxSuccess
  | RxPdoTypeEnum.RxPdoCST =>
      usleep timeout ;;;
      rxSuccess <- andAssign rxSuccess (sdoVerifyWrite RX 0 false 0 timeout) ;;
      usleep timeout ;;;
      rxSuccess <- andAssign rxSuccess (sdoVerifyWrite RX 1 false 0x1602 timeout) ;;
      usleep timeout ;;;
      rxSuccess <- andAssign rxSuccess (sdoVerifyWrite RX 2 false 0x160b timeout) ;;
      rxSuccess <- andAssign rxSuccess (sdoVerifyWrite RX 0 false 2 timeout) ;;
      usleep timeout ;;;
      ret rxSuccess
  | RxPdoTypeEnum.NA =>
      addErrorToReading ErrorType.PdoMappingError ;;; ret false
  | _ =>
      addErrorToReading ErrorType.PdoMappingError ;;; ret false
  end.

Definition mapTxPdo (txPdoTypeEnum : TxPdoTypeEnum.t) : M bool :=
  timeout <- get (fun e => configRunSdoVerifyTimeout (configuration_ e)) ;;
  let txSuccess := true in
  let TX := OdIndex.OD_INDEX_TX_PDO_ASSIGNMENT in
  match txPdoTypeEnum with
  | TxPdoTypeEnum.TxPdoStandard =>
      txSuccess <- andAssign txSuccess (sdoVerifyWrite TX 0 false 0 timeout) ;;
      usleep timeout ;;;
      txSuccess <- andAssign txSuccess (sdoVerifyWrite TX 1 false 0x1a03 timeout) ;;
      usleep timeout ;;;
      txSuccess <- andAssign txSuccess (sdoVerifyWrite TX 2 false 0x1a1d timeout) ;;
      usleep timeout ;;;
      txSuccess <- andAssign txSuccess (sdoVerifyWrite TX 3 false 0x1a1f timeout) ;;
      usleep timeout ;;;
      txSuccess <- andAssign txSuccess (sdoVerifyWrite TX 4 false 0x1a18 timeout) ;;
      usleep timeout ;;;
      txSuccess <- andAssign txSuccess (sdoVerifyWrite TX 0 false 4 timeout) ;;
      usleep timeout ;;;
      ret txSuccess
  | TxPdoTypeEnum.TxPdoCST =>
      txSuccess <- andAssign txSuccess (sdoVerifyWrite TX 0 false 0 timeout) ;;
      usleep timeout ;;;
      txSuccess <- andAssign txSuccess (sdoVerifyWrite TX 1 false 0x1a02 timeout) ;;
      usleep timeout ;;;
      txSuccess <- andAssign txSuccess (sdoVerifyWrite TX 2 false 0x1a11 timeout) ;;
      usleep timeout ;;;
      txSuccess <- andAssign txSuccess (sdoVerifyWrite TX 0 false 2 timeout) ;;
      usleep timeout ;;;
      ret txSuccess
  | TxPdoTypeEnum.NA =>
      addErrorToReading ErrorType.TxPdoMappingError ;;; ret false
  | _ =>
      addErrorToReading ErrorType.TxPdoMappingError ;;; ret false
  end.

(** The two [switch] statements of [mapPdos] are [mapRxPdo] and [mapTxPdo]. *)
Definition mapPdos (rxPdoTypeEnum : RxPdoTypeEnum.t) (txPdoTypeEnum : TxPdoTypeEnum.t)
  : M bool :=
  rxSuccess <- mapRxPdo rxPdoTypeEnum ;;
  txSuccess <- mapTxPdo txPdoTypeEnum ;;
  rxSuccess <- (if rxSuccess : bool then andAssign rxSuccess (configureRxPdo rxPdoTypeEnum)
                else ret rxSuccess) ;;
  txSuccess <- (if txSuccess : bool then andAssign txSuccess (configureTxPdo txPdoTypeEnum)
                else ret txSuccess) ;;
  ret (txSuccess && rxSuccess).

(** ** Configuration before cyclic operation *)

Definition autoConfigurePdoSizes : M unit :=
  t <- get trace_ ;;
  emit GetHardwarePdoSizes ;;;
  let pdoSizes := hardwarePdoSizesAnswer t in
  modify (fun e => set_pdoInfo_
    {| rxPdoSize_ := fst pdoSizes; txPdoSize_ := txPdoSize_ (pdoInfo_ e) |} e) ;;;
  modify (fun e => set_pdoInfo_
    {| rxPdoSize_ := rxPdoSize_ (pdoInfo_ e); txPdoSize_ := snd pdoSizes |} e).

(** The delay [sdoVerifyWrite] takes when the call site names none. *)
Definition defaultVerifyDelay : Z := 0.

(** The steps of [runPreopConfiguration], each with the result that is
    and-ed into [success]; a step without a result counts as [true]. *)
Definition readRatedCurrentIfUnset : M bool :=
  cfg <- get configuration_ ;;
  if isZero (motorRatedCurrentA cfg) then
    r <- sendSdoRead OdIndex.OD_INDEX_MOTOR_RATED_CURRENT 0 false ;;
    modify (fun e => set_configuration_
              (set_motorRatedCurrentA (fromMilli (snd r)) (configuration_ e)) e) ;;;
    modify (fun e => set_reading_ (configureReading (configuration_ e) (reading_ e)) e) ;;;
    ret (fst r)
  else ret true.

Definition stepReadyToSwitchOn : M bool :=
  setDriveStateViaSdo DriveState.ReadyToSwitchOn.

Definition stepMapPdos : M bool :=
  cfg <- get configuration_ ;;
  mapPdos (rxPdoTypeEnum cfg) (txPdoTypeEnum cfg).

Definition stepModeOfOperation : M bool :=
  cfg <- get configuration_ ;;
  sdoVerifyWrite OdIndex.OD_INDEX_MODES_OF_OPERATION 0 false
    (modeOfOperationInt8 (modeOfOperationEnum cfg)) (configRunSdoVerifyTimeout cfg).

Definition stepPdoSizes : M bool :=
  autoConfigurePdoSizes ;;; ret true.

Definition stepRatedCurrent : M bool :=
  cfg <- get configuration_ ;;
  sdoVerifyWrite OdIndex.OD_INDEX_MOTOR_RATED_CURRENT 0 false
    (static_cast_uint32_t (roundMilli (motorRatedCurrentA cfg))) defaultVerifyDelay.

Definition stepRatedTorque : M bool :=
  cfg <- get configuration_ ;;
  sdoVerifyWrite OdIndex.OD_INDEX_MOTOR_RATED_TORQUE 0 false
    (static_cast_uint32_t (roundMilli (motorRatedCurrentA cfg))) defaultVerifyDelay.

Definition stepMaxCurrent : M bool :=
  cfg <- get configuration_ ;;
  sdoVerifyWrite OdIndex.OD_INDEX_MAX_CURRENT 0 false
    (static_cast_uint16_t (floorMilli (maxCurrentA cfg))) defaultVerifyDelay.

Definition runPreopConfiguration : M bool :=
  let success := true in
  success <- andAssign success readRatedCurrentIfUnset ;;
  success <- andAssign success stepReadyToSwitchOn ;;
  success <- andAssign success stepMapPdos ;;
  success <- andAssign success stepModeOfOperation ;;
  success <- andAssign success stepPdoSizes ;;
  success <- andAssign success stepRatedCurrent ;;
  success <- andAssign success stepRatedTorque ;;
  success <- andAssign success stepMaxCurrent ;;
  when (negb success) (addErrorToReading ErrorType.ConfigurationError) ;;;
  ret success.

(** ** The remaining members that change the object *)

Definition startup : M bool :=
  rx <- get rxPdoTypeEnum_ ;;
  ok <- configureRxPdo rx ;;
  if ok then (tx <- get txPdoTypeEnum_ ;; configureTxPdo tx) else ret false.

Definition shutdown : M unit := emit SetStateInit.

Definition stageCommand (command : Command) : M unit :=
  cfg <- get configuration_ ;;
  modify (set_stagedCommand_
            (convertCommand (positionEncoderResolution cfg) (motorRatedCurrentA cfg)
               (motorConstant cfg) (gearRatio cfg) (maxCurrentA cfg)
               (useRawCommands cfg) command)) ;;;
  allow <- get allowModeChange_ ;;
  when allow (modify (set_modeOfOperation_ (getModeOfOperation command))).

Definition loadConfiguration (configuration : Configuration) : M bool :=
  let success := true in
  modify (fun e => set_reading_ (configureReading configuration (reading_ e)) e) ;;;
  modify (set_allowModeChange_ true) ;;;
  modify (fun e => set_allowModeChange_
            (allowModeChange_ e && useMultipleModeOfOperations configuration) e) ;;;
  modify (fun e => set_allowModeChange_
            (allowModeChange_ e
             && RxPdoTypeEnum.eqb (rxPdoTypeEnum configuration) RxPdoTypeEnum.RxPdoStandard) e) ;;;
  modify (fun e => set_allowModeChange_
            (allowModeChange_ e
             && TxPdoTypeEnum.eqb (txPdoTypeEnum configuration) TxPdoTypeEnum.TxPdoStandard) e) ;;;
  modify (set_modeOfOperation_ (modeOfOperationEnum configuration)) ;;;
  modify (set_configuration_ configuration) ;;;
  ret success.

(** ** Notions used to state the properties *)

(** Running a list of steps one after the other, whatever they answer. *)
Fixpoint runAll (steps : list (M bool)) : M (list bool) :=
  match steps with
  | [] => ret []
  | step :: rest =>
      b <- step ;;
      bs <- runAll rest ;;
      ret (b :: bs)
  end.

Definition preopSteps : list (M bool) :=
  [readRatedCurrentIfUnset; stepReadyToSwitchOn; stepMapPdos; stepModeOfOperation;
   stepPdoSizes; stepRatedCurrent; stepRatedTorque; stepMaxCurrent].

(** The controlword write that [stateTransitionViaSdo t] sends. *)
Definition transitionWrite (t : StateTransition.t) : Event :=
  SdoWrite OdIndex.OD_INDEX_CONTROLWORD 0 false
    (getRawControlword (setStateTransition t newControlword)).

(** The log after the writes of [ts] have been issued on top of [trace]. *)
Fixpoint issued (ts : list StateTransition.t) (trace : list Event) : list Event :=
  match ts with
  | [] => trace
  | t :: rest => issued rest (transitionWrite t :: trace)
  end.

(** What the bus answers to each of those writes, first write first. *)
Fixpoint outcomes (ts : list StateTransition.t) (trace : list Event) : list bool :=
  match ts with
  | [] => []
  | t :: rest =>
      sdoWriteAnswer trace OdIndex.OD_INDEX_CONTROLWORD 0 false
        (getRawControlword (setStateTransition t newControlword))
      :: outcomes rest (transitionWrite t :: trace)
  end.

(** The guard under which [updateWrite] calls [engagePdoStateMachine]. *)
Definition engages (e : Elmo) : bool :=
  negb (ModeOfOperationEnum.isNA (modeOfOperation_ e))
  && (conductStateChange_ e && hasRead_ e).

(** The test of [engagePdoStateMachine] that declares success. *)
Definition declaresSuccess (e : Elmo) : bool :=
  DriveState.eqb (Reading_getDriveState (reading_ e)) (targetDriveState_ e)
  && (numberOfSuccessfulTargetStateReadings_ e + 1
      >=? minNumberOfSuccessfulTargetStateReadings (configuration_ e)).

(** Calls on the object, as the bus cycle and the application make them.
    [setDriveStateViaPdo] stands for its non-waiting form. *)
Inductive Call : Type :=
| CallUpdateRead
| CallUpdateWrite
| CallSetDriveStateViaPdo (driveState : DriveState.t)
| CallSetDriveStateViaSdo (driveState : DriveState.t)
| CallStageCommand (command : Command)
| CallLoadConfiguration (configuration : Configuration)
| CallRunPreopConfiguration
| CallMapPdos (rx : RxPdoTypeEnum.t) (tx : TxPdoTypeEnum.t)
| CallConfigureRxPdo (rx : RxPdoTypeEnum.t)
| CallConfigureTxPdo (tx : TxPdoTypeEnum.t)
| CallStartup
| CallShutdown.

Definition isUpdateRead (c : Call) : bool :=
  match c with CallUpdateRead => true | _ => false end.

Definition call (c : Call) (e : Elmo) : Elmo :=
  match c with
  | CallUpdateRead => snd (updateRead e)
  | CallUpdateWrite => snd (updateWrite e)
  | CallSetDriveStateViaPdo s => snd (setDriveStateViaPdo (fun _ x => x) O s false e)
  | CallSetDriveStateViaSdo s => snd (setDriveStateViaSdo s e)
  | CallStageCommand cmd => snd (stageCommand cmd e)
  | CallLoadConfiguration cfg => snd (loadConfiguration cfg e)
  | CallRunPreopConfiguration => snd (runPreopConfiguration e)
  | CallMapPdos rx tx => snd (mapPdos rx tx e)
  | CallConfigureRxPdo rx => snd (configureRxPdo rx e)
  | CallConfigureTxPdo tx => snd (configureTxPdo tx e)
  | CallStartup => snd (startup e)
  | CallShutdown => snd (shutdown e)
  end.

Definition calls (cs : list Call) (e : Elmo) : Elmo :=
  fold_left (fun x c => call c x) cs e.

(** Evaluating a list of statuswords: each one is stored in the reading
    as a cyclic read would and the engine is invoked on it. *)
Fixpoint evaluate (statuswords : list Z) : M unit :=
  match statuswords with
  | [] => ret tt
  | s :: rest =>
      modifyReading (set_statusword s) ;;;
      engagePdoStateMachine ;;;
      evaluate rest
  end.

(** How many of the statuswords decode to the state [target]. *)
Definition matching (target : DriveState.t) (statuswords : list Z) : Z :=
  Z.of_nat (length (filter (fun s => DriveState.eqb (getDriveState s) target) statuswords)).

Definition errorCount (err : ErrorType.t) (e : Elmo) : nat :=
  length (filter (ErrorType.eqb err) (errors (reading_ e))).

(** [updateWrite] as it runs when it calls the engine, and with the call
    of the engine taken out. *)
Definition updateWriteEngaged : M unit :=
  engagePdoStateMachine ;;; writeRxPdo.

Definition updateWriteIdle : M unit :=
  mode <- get modeOfOperation_ ;;
  if ModeOfOperationEnum.isNA mode then
    modify (fun e => set_reading_ (addError ErrorType.ModeOfOperationError (reading_ e)) e)
  else writeRxPdo.

(** [stepwise R m]: whatever the object looks like, running [m] leaves it
    in a state related to the initial one by [R]. *)
Definition stepwise (R : Elmo -> Elmo -> Prop) {A : Type} (m : M A) : Prop :=
  forall e, R e (snd (m e)).

(** The two flags that gate the engine are as they were. *)
Definition sameGate (e e' : Elmo) : Prop :=
  conductStateChange_ e' = conductStateChange_ e /\ hasRead_ e' = hasRead_ e.

(** The engine cannot be called on this state. *)
Definition blocked (e : Elmo) : Prop :=
  conductStateChange_ e && hasRead_ e = false.

(** Running from [e] to [e'] made no mailbox call on entry [i] and
    recorded no error of kind [err]. *)
Definition quiet (i : OdIndex.t) (err : ErrorType.t) (e e' : Elmo) : Prop :=
  (exists new,
     trace_ e' = new ++ trace_ e
     /\ forallb (fun ev => negb (isMailboxOn i ev)) new = true)
  /\ errorCount err e' = errorCount err e.

(** Running from [e] to [e'] recorded no [ConfigurationError]. *)
Definition sameConfigurationErrors (e e' : Elmo) : Prop :=
  errorCount ErrorType.ConfigurationError e'
  = errorCount ErrorType.ConfigurationError e.

Definition allTrue (bs : list bool) : bool := forallb (fun b => b) bs.

(** Running from [e] to [e'] made no mailbox call, added no fault entry
    and recorded no [ErrorReadingError]. *)
Definition fetchedOnly (e e' : Elmo) : Prop :=
  (exists new,
     trace_ e' = new ++ trace_ e
     /\ forallb (fun ev => negb (isMailbox ev)) new = true)
  /\ faults (reading_ e') = faults (reading_ e)
  /\ errorCount ErrorType.ErrorReadingError e'
     = errorCount ErrorType.ErrorReadingError e.

(** ** Accessors *)

Definition getTxPdoSize : M Z := get (fun e => txPdoSize_ (pdoInfo_ e)).

Definition getRxPdoSize : M Z := get (fun e => rxPdoSize_ (pdoInfo_ e)).

Definition getReading : M Reading := get reading_.

Definition getConfiguration : M Configuration := get configuration_.

(** ** Further notions used to state properties *)

(** Running from [e] to [e'] logged only events that satisfy [P]. *)
Definition emitsOnly (P : Event -> bool) (e e' : Elmo) : Prop :=
  exists new, trace_ e' = new ++ trace_ e /\ forallb P new = true.

Definition isSteadyClockNow (ev : Event) : bool :=
  match ev with SteadyClockNow => true | _ => false end.

(** The controlword, mode and target torque carried by an outbound
    record. *)
Definition frameControlWord (ev : Event) : option Z :=
  match ev with
  | WriteRxPdoStandard rxPdo => Some (rxs_controlWord_ rxPdo)
  | WriteRxPdoCST rxPdo => Some (rxc_controlWord_ rxPdo)
  | _ => None
  end.

Definition frameModeOfOperation (ev : Event) : option Z :=
  match ev with
  | WriteRxPdoStandard rxPdo => Some (rxs_modeOfOperation_ rxPdo)
  | WriteRxPdoCST rxPdo => Some (rxc_modeOfOperation_ rxPdo)
  | _ => None
  end.

Definition frameTargetTorque (ev : Event) : option Z :=
  match ev with
  | WriteRxPdoStandard rxPdo => Some (rxs_targetTorque_ rxPdo)
  | WriteRxPdoCST rxPdo => Some (rxc_targetTorque_ rxPdo)
  | _ => None
  end.

(** The types for which [updateWrite] and [updateRead] have a case. *)
Definition rxImplemented (t : RxPdoTypeEnum.t) : bool :=
  match t with
  | RxPdoTypeEnum.RxPdoStandard | RxPdoTypeEnum.RxPdoCST => true
  | _ => false
  end.

Definition txImplemented (t : TxPdoTypeEnum.t) : bool :=
  match t with
  | TxPdoTypeEnum.TxPdoStandard | TxPdoTypeEnum.TxPdoCST => true
  | _ => false
  end.

(** The mailbox writes on entry [i] found in a log, as pairs of
    sub-index and value, in the order of the log (newest first). *)
Fixpoint writesOn (i : OdIndex.t) (t : list Event) : list (Z * Z) :=
  match t with
  | [] => []
  | SdoWrite j subindex _ value :: rest =>
      if OdIndex.eqb i j then (subindex, value) :: writesOn i rest
      else writesOn i rest
  | _ :: rest => writesOn i rest
  end.

(** An assignment list as the drive sees it being written: the count
    cleared, the objects at sub-indices 1, 2, ..., then the count. *)
Definition assignmentSequence (objects : list Z) : list (Z * Z) :=
  (0, 0) :: combine (map Z.of_nat (seq 1 (length objects))) objects
  ++ [(0, Z.of_nat (length objects))].

(** The error log has grown by exactly the entries [new]. *)
Definition recorded (new : list ErrorType.t) (e e' : Elmo) : Prop :=
  errors (reading_ e') = new ++ errors (reading_ e).

(** Running from [e] to [e'] read nothing but the clock and left alone
    what an outbound record is made of, except the controlword. *)
Definition clockOnly (e e' : Elmo) : Prop :=
  emitsOnly isSteadyClockNow e e'
  /\ currentRxPdoTypeEnum_ e' = currentRxPdoTypeEnum_ e
  /\ modeOfOperation_ e' = modeOfOperation_ e
  /\ stagedCommand_ e' = stagedCommand_ e.

(** Running from [e] to [e'] read no inbound record from the bus. *)
Definition sameReads (e e' : Elmo) : Prop :=
  readsSoFar (trace_ e') = readsSoFar (trace_ e).

(** No inbound record read so far has left the log. *)
Definition readsGrow (e e' : Elmo) : Prop :=
  (readsSoFar (trace_ e) <= readsSoFar (trace_ e'))%nat.

(** The current tx type is one [updateRead] has a case for, before each
    of the calls [cs] made from [e] and after the last of them. *)
Fixpoint txImplementedAlong (cs : list Call) (e : Elmo) : bool :=
  txImplemented (currentTxPdoTypeEnum_ e)
  && match cs with
     | [] => true
     | c :: rest => txImplementedAlong rest (call c e)
     end.

(** The current record types are as they were. *)
Definition sameTypes (e e' : Elmo) : Prop :=
  currentRxPdoTypeEnum_ e' = currentRxPdoTypeEnum_ e
  /\ currentTxPdoTypeEnum_ e' = currentTxPdoTypeEnum_ e.

(** The configuration is as it was. *)
Definition sameConfiguration (e e' : Elmo) : Prop :=
  configuration_ e' = configuration_ e.

(** The telemetry of a reading: position, velocity, current, statusword,
    digital inputs, analog input and bus voltage. *)
Definition telemetry (r : Reading) : Z * Z * Z * Z * Z * Z * Z :=
  (actualPosition r, actualVelocity r, actualCurrent r, statusword r,
   digitalInputs r, analogInput r, busVoltage r).

Definition sameTelemetry (e e' : Elmo) : Prop :=
  telemetry (reading_ e') = telemetry (reading_ e).

(** What the engine works from is as it was: mode, current tx type,
    target, configuration, pending flag, counter and success flag. *)
Definition undisturbed (e e' : Elmo) : Prop :=
  modeOfOperation_ e' = modeOfOperation_ e
  /\ currentTxPdoTypeEnum_ e' = currentTxPdoTypeEnum_ e
  /\ targetDriveState_ e' = targetDriveState_ e
  /\ configuration_ e' = configuration_ e
  /\ conductStateChange_ e' = conductStateChange_ e
  /\ numberOfSuccessfulTargetStateReadings_ e' = numberOfSuccessfulTargetStateReadings_ e
  /\ stateChangeSuccessful_ e' = stateChangeSuccessful_ e.

(** [n] bus cycles: each a read half followed by a write half. *)
Fixpoint busCycles (n : nat) (e : Elmo) : Elmo :=
  match n with
  | O => e
  | S k => snd (updateWrite (snd (updateRead (busCycles k e))))
  end.

End Driver.












(** ** The state diagram of the device profile *)

(** Modelled from the spec: section 3 speaks of the standard transitions
    "numbered per the device-profile standard"; in that standard each
    numbered transition leads from one state to another. *)
Definition transitionSource (t : StateTransition.t) : DriveState.t :=
  match t with
  | StateTransition._2 => DriveState.SwitchOnDisabled
  | StateTransition._3 => DriveState.ReadyToSwitchOn
  | StateTransition._4 => DriveState.SwitchedOn
  | StateTransition._5 => DriveState.OperationEnabled
  | StateTransition._6 => DriveState.SwitchedOn
  | StateTransition._7 => DriveState.ReadyToSwitchOn
  | StateTransition._8 => DriveState.OperationEnabled
  | StateTransition._9 => DriveState.OperationEnabled
  | StateTransition._10 => DriveState.SwitchedOn
  | StateTransition._11 => DriveState.OperationEnabled
  | StateTransition._12 => DriveState.QuickStopActive
  | StateTransition._15 => DriveState.Fault
  end.

Definition transitionTarget (t : StateTransition.t) : DriveState.t :=
  match t with
  | StateTransition._2 => DriveState.ReadyToSwitchOn
  | StateTransition._3 => DriveState.SwitchedOn
  | StateTransition._4 => DriveState.OperationEnabled
  | StateTransition._5 => DriveState.SwitchedOn
  | StateTransition._6 => DriveState.ReadyToSwitchOn
  | StateTransition._7 => DriveState.SwitchOnDisabled
  | StateTransition._8 => DriveState.ReadyToSwitchOn
  | StateTransition._9 => DriveState.SwitchOnDisabled
  | StateTransition._10 => DriveState.SwitchOnDisabled
  | StateTransition._11 => DriveState.QuickStopActive
  | StateTransition._12 => DriveState.SwitchOnDisabled
  | StateTransition._15 => DriveState.SwitchOnDisabled
  end.

Definition allTransitions : list StateTransition.t :=
  [StateTransition._2; StateTransition._3; StateTransition._4; StateTransition._5;
   StateTransition._6; StateTransition._7; StateTransition._8; StateTransition._9;
   StateTransition._10; StateTransition._11; StateTransition._12; StateTransition._15].

(** [reachesWithin n a b]: some route of at most [n] transitions leads
    from [a] to [b]. *)
Fixpoint reachesWithin (n : nat) (a b : DriveState.t) : bool :=
  DriveState.eqb a b ||
  match n with
  | O => false
  | S n' =>
      existsb (fun t => DriveState.eqb (transitionSource t) a
                        && reachesWithin n' (transitionTarget t) b) allTransitions
  end.

(** Length of the shortest route, when there is one (no route needs more
    than five transitions). *)
Definition routeLength (a b : DriveState.t) : option nat :=
  find (fun n => reachesWithin n a b) (seq 0 6).

Definition onShortestRoute (requested current : DriveState.t) (t : StateTransition.t)
  : bool :=
  DriveState.eqb (transitionSource t) current &&
  match routeLength current requested, routeLength (transitionTarget t) requested with
  | Some n, Some m => Nat.eqb n (S m)
  | _, _ => false
  end.

(** Modelled from the spec: "the standard transition for that pair" is the
    transition that leaves the current state on the shortest route to the
    requested state, provided exactly one transition does. *)
Definition standardTransition (requested current : DriveState.t)
  : option StateTransition.t :=
  match filter (onShortestRoute requested current) allTransitions with
  | [t] => Some t
  | _ => None
  end.

(** The route obtained by taking the standard transition again and again. *)
Fixpoint standardChain (fuel : nat) (requested current : DriveState.t)
  : list StateTransition.t :=
  match fuel with
  | O => []
  | S fuel' =>
      match standardTransition requested current with
      | Some t => t :: standardChain fuel' requested (transitionTarget t)
      | None => []
      end
  end.

(** The states a caller may request, and the six defined states. *)
Definition requestable (s : DriveState.t) : bool :=
  match s with
  | DriveState.SwitchOnDisabled | DriveState.ReadyToSwitchOn | DriveState.SwitchedOn
  | DriveState.OperationEnabled | DriveState.QuickStopActive => true
  | _ => false
  end.

Definition defined (s : DriveState.t) : bool :=
  match s with
  | DriveState.NotReadyToSwitchOn | DriveState.Unknown => false
  | _ => true
  end.

(** ** A bench implementation of the collaborators

    Used to run the driver on concrete inputs.  The bus and the clock
    follow a [Script]; controlwords and statuswords are raw 16-bit values
    with the bit patterns of the device profile; currents are held in
    whole milliamperes. *)
Record Script : Type := {
  onSdoWrite : list Event -> OdIndex.t -> Z -> bool -> Z -> bool;
  onSdoRead : list Event -> OdIndex.t -> Z -> bool -> bool * Z;
  onReadTxPdo : list Event -> Z;
  onClock : list Event -> Z
}.

(** Modelled from the spec: [Statusword::getDriveState] is not part of
    [Elmo.cpp]; section 4.1 says it decodes the fixed, standard bit pattern
    and gives an explicit undefined outcome for any other pattern. *)
Definition benchDriveState (statusword : Z) : DriveState.t :=
  let low := Z.land statusword 0x4F in
  let lowq := Z.land statusword 0x6F in
  if low =? 0x00 then DriveState.NotReadyToSwitchOn
  else if low =? 0x40 then DriveState.SwitchOnDisabled
  else if lowq =? 0x21 then DriveState.ReadyToSwitchOn
  else if lowq =? 0x23 then DriveState.SwitchedOn
  else if lowq =? 0x27 then DriveState.OperationEnabled
  else if lowq =? 0x07 then DriveState.QuickStopActive
  else if low =? 0x08 then DriveState.Fault
  else DriveState.Unknown.

(** Modelled from the spec: the controlword commands of the device profile
    (shutdown, switch on, enable operation, disable voltage, quick stop,
    fault reset) for the numbered transitions. *)
Definition benchTransitionCommand (t : StateTransition.t) : Z :=
  match t with
  | StateTransition._2 | StateTransition._6 | StateTransition._8 => 0x06
  | StateTransition._3 | StateTransition._5 => 0x07
  | StateTransition._4 => 0x0F
  | StateTransition._7 | StateTransition._9 | StateTransition._10
  | StateTransition._12 => 0x00
  | StateTransition._11 => 0x02
  | StateTransition._15 => 0x80
  end.

Definition benchTxPdo (statusword : Z) : TxPdoStandard :=
  {| txs_actualPosition_ := 0; txs_digitalInputs_ := 0; txs_actualVelocity_ := 0;
     txs_statusword_ := statusword; txs_analogInput_ := 0; txs_actualCurrent_ := 0;
     txs_busVoltage_ := 0 |}.

Definition bench (s : Script) : Collaborators :=
  {| Controlword := Z;
     newControlword := 0;
     setAllFalse := fun _ => 0;
     setStateTransition := fun t _ => benchTransitionCommand t;
     getRawControlword := fun cw => cw;
     getDriveState := benchDriveState;
     Command := ModeOfOperationEnum.t;
     getTargetPositionRaw := fun _ => 0;
     getTargetVelocityRaw := fun _ => 0;
     getTargetTorqueRaw := fun _ => 0;
     getMaxTorqueRaw := fun _ => 0;
     getTorqueOffsetRaw := fun _ => 0;
     getModeOfOperation := fun c => c;
     modeOfOperationInt8 :=
       fun m => match m with ModeOfOperationEnum.NA => 0 | ModeOfOperationEnum.Mode k => k end;
     Double := Z;
     isZero := fun x => x =? 0;
     fromMilli := fun x => x;
     roundMilli := fun x => x;
     floorMilli := fun x => x;
     convertCommand := fun _ _ _ _ _ _ c => c;
     sdoWriteAnswer := onSdoWrite s;
     sdoReadAnswer := onSdoRead s;
     txPdoStandardAnswer := fun t => benchTxPdo (onReadTxPdo s t);
     txPdoCSTAnswer := fun t =>
       {| txc_actualPosition_ := 0; txc_actualTorque_ := 0;
          txc_statusword_ := onReadTxPdo s t; txc_actualVelocity_ := 0 |};
     hardwarePdoSizesAnswer := fun _ => (17, 23);
     steadyClockAnswer := onClock s |}.

Definition benchConfiguration (s : Script) (minReadings minTimeout maxTimeout : Z)
  : @Configuration (bench s) :=
  let C := bench s in
  {| motorRatedCurrentA := 2000; maxCurrentA := 4000; motorConstant := 1;
     gearRatio := 1; positionEncoderResolution := 4096; useRawCommands := false;
     useMultipleModeOfOperations := false;
     modeOfOperationEnum := ModeOfOperationEnum.Mode 10;
     rxPdoTypeEnum := RxPdoTypeEnum.RxPdoStandard;
     txPdoTypeEnum := TxPdoTypeEnum.TxPdoStandard;
     configRunSdoVerifyTimeout := 20000;
     driveStateChangeMinTimeout := minTimeout;
     driveStateChangeMaxTimeout := maxTimeout;
     minNumberOfSuccessfulTargetStateReadings := minReadings |}.

(** A freshly configured object: standard records on both sides, a mode
    of operation set, no state change pending, nothing logged. *)
Definition benchElmo (s : Script) (minReadings minTimeout maxTimeout : Z)
  : @Elmo (bench s) :=
  let C := bench s in
  {| rxPdoTypeEnum_ := RxPdoTypeEnum.RxPdoStandard;
     txPdoTypeEnum_ := TxPdoTypeEnum.TxPdoStandard;
     currentRxPdoTypeEnum_ := RxPdoTypeEnum.RxPdoStandard;
     currentTxPdoTypeEnum_ := TxPdoTypeEnum.TxPdoStandard;
     modeOfOperation_ := ModeOfOperationEnum.Mode 10;
     allowModeChange_ := false;
     conductStateChange_ := false;
     hasRead_ := false;
     stateChangeSuccessful_ := false;
     targetDriveState_ := DriveState.Unknown;
     numberOfSuccessfulTargetStateReadings_ := 0;
     driveStateChangeTimePoint_ := 0;
     controlword_ := 0;
     stagedCommand_ := ModeOfOperationEnum.Mode 10;
     reading_ :=
       {| actualPosition := 0; digitalInputs := 0; actualVelocity := 0; statusword := 0;
          analogInput := 0; actualCurrent := 0; busVoltage := 0; errors := [];
          faults := []; configuredWith := None |};
     configuration_ := benchConfiguration s minReadings minTimeout maxTimeout;
     pdoInfo_ := {| rxPdoSize_ := 0; txPdoSize_ := 0 |};
     trace_ := [] |}.

(** A drive that is in fault and a mailbox that rejects every write. *)
Definition faultyMailbox : Script :=
  {| onSdoWrite := fun _ _ _ _ _ => false;
     onSdoRead := fun _ _ _ _ => (true, 0x0008);
     onReadTxPdo := fun _ => 0x0008;
     onClock := fun _ => 0 |}.

(** A healthy mailbox; the drive reports operation enabled, but its
    third cyclic statusword says switch-on disabled.  The clock stands
    still. *)
Definition glitchingDrive : Script :=
  {| onSdoWrite := fun _ _ _ _ _ => true;
     onSdoRead := fun _ _ _ _ => (true, 0x0250);
     onReadTxPdo := fun t => if Nat.eqb (readsSoFar t) 2 then 0x0250 else 0x0237;
     onClock := fun _ => 0 |}.

(** A drive that stays switch-on disabled while the clock advances by one
    millisecond at every reading. *)
Definition stuckDrive : Script :=
  {| onSdoWrite := fun _ _ _ _ _ => true;
     onSdoRead := fun _ _ _ _ => (true, 0x0250);
     onReadTxPdo := fun _ => 0x0250;
     onClock := fun t => 1000 * Z.of_nat (length t) |}.

(** The bench object once operation enabled has been requested without
    waiting. *)
Definition requested (s : Script) (minReadings minTimeout maxTimeout : Z)
  : @Elmo (bench s) :=
  call (C := bench s) (CallSetDriveStateViaPdo DriveState.OperationEnabled)
    (benchElmo s minReadings minTimeout maxTimeout).

(** One bus cycle: the read half, then the write half. *)
Definition busCycle (s : Script) : list (@Call (bench s)) :=
  [CallUpdateRead; CallUpdateWrite].

(** A mailbox that reads back what was last written, with a drive that
    reports operation enabled in every record. *)
Definition echoingDrive : Script :=
  {| onSdoWrite := fun _ _ _ _ _ => true;
     onSdoRead := fun t _ _ _ =>
       match t with
       | Usleep _ :: SdoWrite _ _ _ value :: _ => (true, value)
       | _ => (true, 0x0250)
       end;
     onReadTxPdo := fun _ => 0x0237;
     onClock := fun _ => 0 |}.

(** The bench object with a current tx type for which [updateRead] has no
    case, once operation enabled has been requested without waiting. *)
Definition requestedWithoutTxCase : @Elmo (bench glitchingDrive) :=
  calls (C := bench glitchingDrive)
    [CallConfigureTxPdo TxPdoTypeEnum.Unimplemented;
     CallSetDriveStateViaPdo DriveState.OperationEnabled]
    (benchElmo glitchingDrive 3 1000 1000000).

(** The echoing drive two bus cycles into a request for operation
    enabled that needs three readings: the counter stands at two. *)
Definition afterTwoReadings : @Elmo (bench echoingDrive) :=
  busCycles (C := bench echoingDrive) 2 (requested echoingDrive 3 1000 1000000).


(** The stuck drive after a request and one read half: a fresh reading of
    switch-on disabled, three milliseconds after the request. *)
Definition stuckAfterRead : @Elmo (bench stuckDrive) :=
  call (C := bench stuckDrive) CallUpdateRead (requested stuckDrive 3 1000 100000).

(** * Properties *)

Section Properties.
Context {C : Collaborators}.

Notation "x <- m ;; k" := (bind m (fun x => k))
  (at level 61, m at next level, right associativity).
Notation "m ;;; k" := (bind m (fun _ => k))
  (at level 61, right associativity).

(** ** Transition selection *)

(** C1. For a requestable state and a defined current state different from
    it, [getNextStateTransitionControlword] records nothing and returns
    the cleared controlword with exactly the setter of the standard
    transition for the pair applied; on the diagonal and for an undefined
    current state it records a [PdoStateTransitionError] and returns the
    cleared controlword, no setter applied. *)
Theorem getNextStateTransitionControlword_standard
  (requestedDriveState currentDriveState : DriveState.t) (e : Elmo) :
  requestable requestedDriveState = true ->
  (defined currentDriveState = true ->
   requestedDriveState <> currentDriveState ->
   exists t,
     standardTransition requestedDriveState currentDriveState = Some t /\
     getNextStateTransitionControlword requestedDriveState currentDriveState e
     = (setStateTransition t (setAllFalse newControlword), e))
  /\
  (requestedDriveState = currentDriveState \/ defined currentDriveState = false ->
   getNextStateTransitionControlword requestedDriveState currentDriveState e
   = (setAllFalse newControlword,
      set_reading_ (addError ErrorType.PdoStateTransitionError (reading_ e)) e)).
Proof.
  intros Hreq.
  destruct requestedDriveState; try discriminate Hreq;
    destruct currentDriveState; (split; [intros Hdef Hne | intros [Heq | Hundef]]);
    try discriminate; try congruence; try reflexivity;
    eexists; split; reflexivity.
Qed.

(** ** Reasoning about member functions *)
Section Stepwise.
Variable R : Elmo -> Elmo -> Prop.
Hypothesis R_refl : forall e, R e e.
Hypothesis R_trans : forall a b c, R a b -> R b c -> R a c.

Lemma stepwise_ret {A : Type} (a : A) : stepwise R (ret a).
Proof. intro e. apply R_refl. Qed.

Lemma stepwise_get {A : Type} (f : Elmo -> A) : stepwise R (get f).
Proof. intro e. apply R_refl. Qed.

Lemma stepwise_bind {A B : Type} (m : M A) (k : A -> M B) :
  stepwise R m -> (forall a, stepwise R (k a)) -> stepwise R (bind m k).
Proof.
  intros Hm Hk e. unfold bind.
  specialize (Hm e). destruct (m e) as [a e1]. simpl in Hm.
  eapply R_trans; [exact Hm | apply Hk].
Qed.

Lemma stepwise_modify (f : Elmo -> Elmo) :
  (forall e, R e (f e)) -> stepwise R (modify f).
Proof. intros Hf e. apply Hf. Qed.

Lemma stepwise_when (c : bool) (m : M unit) :
  stepwise R m -> stepwise R (when c m).
Proof. intros Hm. destruct c; [exact Hm | apply stepwise_ret]. Qed.

Lemma stepwise_andAssign (success : bool) (m : M bool) :
  stepwise R m -> stepwise R (andAssign success m).
Proof.
  intros Hm. apply stepwise_bind; [exact Hm | intro; apply stepwise_ret].
Qed.

Lemma stepwise_runAll (steps : list (M bool)) :
  Forall (stepwise R) steps -> stepwise R (runAll steps).
Proof.
  induction 1 as [|step rest Hstep _ IH]; simpl.
  - apply stepwise_ret.
  - apply stepwise_bind; [exact Hstep | intro].
    apply stepwise_bind; [exact IH | intro; apply stepwise_ret].
Qed.

End Stepwise.

(** Breaks a member function down to its primitive actions, leaving one
    goal for every [modify]. *)
Ltac stepwise_split Hrefl Htrans :=
  repeat match goal with
    | |- stepwise _ (match ?x with _ => _ end) => destruct x
    | |- stepwise _ (let _ := _ in _) => cbv zeta
    | |- stepwise _ (ret _) => apply (stepwise_ret _ Hrefl)
    | |- stepwise _ (get _) => apply (stepwise_get _ Hrefl)
    | |- stepwise _ (when _ _) => apply (stepwise_when _ Hrefl)
    | |- stepwise _ (andAssign _ _) => apply (stepwise_andAssign _ Hrefl Htrans)
    | |- stepwise _ (bind _ _) => apply (stepwise_bind _ Htrans); [ | intro ]
    | |- stepwise _ (modify _) => apply stepwise_modify; intro
    end.

(** *** The two flags that gate the engine *)

Lemma sameGate_refl e : sameGate e e.
Proof. split; reflexivity. Qed.

Lemma sameGate_trans a b c : sameGate a b -> sameGate b c -> sameGate a c.
Proof. intros [H1 H2] [H3 H4]. split; congruence. Qed.

Create HintDb gate.

Ltac gate :=
  repeat first
    [ solve [auto with gate]
    | progress stepwise_split sameGate_refl sameGate_trans ];
  try (split; reflexivity).

Lemma gate_emit ev : stepwise sameGate (emit ev).
Proof. unfold emit. gate. Qed.

Lemma gate_addErrorToReading err : stepwise sameGate (addErrorToReading err).
Proof. unfold addErrorToReading. gate. Qed.

Lemma gate_modifyReading f : stepwise sameGate (modifyReading f).
Proof. unfold modifyReading. gate. Qed.

Hint Resolve gate_emit gate_addErrorToReading gate_modifyReading : gate.

Lemma gate_sendSdoWrite i s c v : stepwise sameGate (sendSdoWrite i s c v).
Proof. unfold sendSdoWrite. gate. Qed.

Lemma gate_sendSdoRead i s c : stepwise sameGate (sendSdoRead i s c).
Proof. unfold sendSdoRead. gate. Qed.

Lemma gate_usleep d : stepwise sameGate (usleep d).
Proof. unfold usleep. gate. Qed.

Hint Resolve gate_sendSdoWrite gate_sendSdoRead gate_usleep : gate.

Lemma gate_sdoVerifyWrite i s c v d : stepwise sameGate (sdoVerifyWrite i s c v d).
Proof. unfold sdoVerifyWrite. gate. Qed.

Lemma gate_steady_clock_now : stepwise sameGate steady_clock_now.
Proof. unfold steady_clock_now. gate. Qed.

Hint Resolve gate_sdoVerifyWrite gate_steady_clock_now : gate.

Lemma gate_getNextStateTransitionControlword req cur :
  stepwise sameGate (getNextStateTransitionControlword req cur).
Proof. unfold getNextStateTransitionControlword. gate. Qed.

Lemma gate_writeRxPdo : stepwise sameGate writeRxPdo.
Proof. unfold writeRxPdo. gate. Qed.

Lemma gate_readTxPdo : stepwise sameGate readTxPdo.
Proof. unfold readTxPdo. gate. Qed.

Lemma gate_readFaultCode : stepwise sameGate readFaultCode.
Proof. unfold readFaultCode. gate. Qed.

Lemma gate_transitionsViaSdo ts success :
  stepwise sameGate (transitionsViaSdo success ts).
Proof.
  revert success. induction ts as [|t rest IH]; intro success; simpl.
  - gate.
  - apply (stepwise_bind _ sameGate_trans); [ | intro; apply IH ].
    unfold stateTransitionViaSdo, setControlwordViaSdo. gate.
Qed.

Hint Resolve gate_getNextStateTransitionControlword gate_writeRxPdo gate_readTxPdo
  gate_readFaultCode gate_transitionsViaSdo : gate.

Lemma gate_setDriveStateViaSdo s : stepwise sameGate (setDriveStateViaSdo s).
Proof.
  unfold setDriveStateViaSdo, getStatuswordViaSdo, transitionNotImplemented. gate.
Qed.

Lemma gate_configureRxPdo rx : stepwise sameGate (configureRxPdo rx).
Proof. unfold configureRxPdo, getCurrentRxPdoTypeEnum. gate. Qed.

Lemma gate_configureTxPdo tx : stepwise sameGate (configureTxPdo tx).
Proof. unfold configureTxPdo, getCurrentTxPdoTypeEnum. gate. Qed.

Hint Resolve gate_setDriveStateViaSdo gate_configureRxPdo gate_configureTxPdo : gate.

Lemma gate_mapRxPdo rx : stepwise sameGate (mapRxPdo rx).
Proof. unfold mapRxPdo. gate. Qed.

Lemma gate_mapTxPdo tx : stepwise sameGate (mapTxPdo tx).
Proof. unfold mapTxPdo. gate. Qed.

Hint Resolve gate_mapRxPdo gate_mapTxPdo : gate.

Lemma gate_mapPdos rx tx : stepwise sameGate (mapPdos rx tx).
Proof. unfold mapPdos. gate. Qed.

Lemma gate_autoConfigurePdoSizes : stepwise sameGate autoConfigurePdoSizes.
Proof. unfold autoConfigurePdoSizes. gate. Qed.

Hint Resolve gate_mapPdos gate_autoConfigurePdoSizes : gate.

Lemma gate_runPreopConfiguration : stepwise sameGate runPreopConfiguration.
Proof.
  unfold runPreopConfiguration, readRatedCurrentIfUnset, stepReadyToSwitchOn,
    stepMapPdos, stepModeOfOperation, stepPdoSizes, stepRatedCurrent, stepRatedTorque,
    stepMaxCurrent.
  gate.
Qed.

Lemma gate_startup : stepwise sameGate startup.
Proof. unfold startup. gate. Qed.

Lemma gate_shutdown : stepwise sameGate shutdown.
Proof. unfold shutdown. gate. Qed.

Lemma gate_stageCommand cmd : stepwise sameGate (stageCommand cmd).
Proof. unfold stageCommand. gate. Qed.

Lemma gate_loadConfiguration cfg : stepwise sameGate (loadConfiguration cfg).
Proof. unfold loadConfiguration. gate. Qed.

Hint Resolve gate_runPreopConfiguration gate_startup gate_shutdown gate_stageCommand
  gate_loadConfiguration : gate.


(** *** The inbound records read so far *)

Lemma readsGrow_refl e : readsGrow e e.
Proof. apply Nat.le_refl. Qed.

Lemma readsGrow_trans a b c : readsGrow a b -> readsGrow b c -> readsGrow a c.
Proof. apply Nat.le_trans. Qed.

Create HintDb reads.

Ltac reads :=
  repeat first
    [ solve [auto with reads]
    | progress stepwise_split readsGrow_refl readsGrow_trans ];
  try (unfold readsGrow, readsSoFar; simpl; lia).

Lemma reads_emit ev : stepwise readsGrow (emit ev).
Proof.
  intro e. unfold readsGrow, readsSoFar, emit, modify. simpl.
  destruct (isReadTxPdo ev); simpl; lia.
Qed.

Lemma reads_addErrorToReading err : stepwise readsGrow (addErrorToReading err).
Proof. unfold addErrorToReading. reads. Qed.

Lemma reads_modifyReading f : stepwise readsGrow (modifyReading f).
Proof. unfold modifyReading. reads. Qed.

Hint Resolve reads_emit reads_addErrorToReading reads_modifyReading : reads.

Lemma reads_sendSdoWrite i s c v : stepwise readsGrow (sendSdoWrite i s c v).
Proof. unfold sendSdoWrite. reads. Qed.

Lemma reads_sendSdoRead i s c : stepwise readsGrow (sendSdoRead i s c).
Proof. unfold sendSdoRead. reads. Qed.

Lemma reads_usleep d : stepwise readsGrow (usleep d).
Proof. unfold usleep. reads. Qed.

Hint Resolve reads_sendSdoWrite reads_sendSdoRead reads_usleep : reads.

Lemma reads_sdoVerifyWrite i s c v d : stepwise readsGrow (sdoVerifyWrite i s c v d).
Proof. unfold sdoVerifyWrite. reads. Qed.

Lemma reads_steady_clock_now : stepwise readsGrow steady_clock_now.
Proof. unfold steady_clock_now. reads. Qed.

Hint Resolve reads_sdoVerifyWrite reads_steady_clock_now : reads.

Lemma reads_getNextStateTransitionControlword req cur :
  stepwise readsGrow (getNextStateTransitionControlword req cur).
Proof. unfold getNextStateTransitionControlword. reads. Qed.

Lemma reads_writeRxPdo : stepwise readsGrow writeRxPdo.
Proof. unfold writeRxPdo. reads. Qed.

Lemma reads_readTxPdo : stepwise readsGrow readTxPdo.
Proof. unfold readTxPdo. reads. Qed.

Lemma reads_markRead : stepwise readsGrow markRead.
Proof. unfold markRead. reads. Qed.

Lemma reads_readFaultCode : stepwise readsGrow readFaultCode.
Proof. unfold readFaultCode. reads. Qed.

Lemma reads_transitionsViaSdo ts success :
  stepwise readsGrow (transitionsViaSdo success ts).
Proof.
  revert success. induction ts as [|t rest IH]; intro success; simpl.
  - reads.
  - apply (stepwise_bind _ readsGrow_trans); [ | intro; apply IH ].
    unfold stateTransitionViaSdo, setControlwordViaSdo. reads.
Qed.

Hint Resolve reads_getNextStateTransitionControlword reads_writeRxPdo reads_readTxPdo
  reads_markRead reads_readFaultCode reads_transitionsViaSdo : reads.

Lemma reads_engagePdoStateMachine : stepwise readsGrow engagePdoStateMachine.
Proof. unfold engagePdoStateMachine. reads. Qed.

Lemma reads_updateRead : stepwise readsGrow updateRead.
Proof. unfold updateRead. reads. Qed.

Hint Resolve reads_engagePdoStateMachine reads_updateRead : reads.

Lemma reads_updateWrite : stepwise readsGrow updateWrite.
Proof. unfold updateWrite. reads. Qed.

Lemma reads_setDriveStateViaSdo s : stepwise readsGrow (setDriveStateViaSdo s).
Proof.
  unfold setDriveStateViaSdo, getStatuswordViaSdo, transitionNotImplemented. reads.
Qed.

Lemma reads_configureRxPdo rx : stepwise readsGrow (configureRxPdo rx).
Proof. unfold configureRxPdo, getCurrentRxPdoTypeEnum. reads. Qed.

Lemma reads_configureTxPdo tx : stepwise readsGrow (configureTxPdo tx).
Proof. unfold configureTxPdo, getCurrentTxPdoTypeEnum. reads. Qed.

Hint Resolve reads_updateWrite reads_setDriveStateViaSdo reads_configureRxPdo
  reads_configureTxPdo : reads.

Lemma reads_mapRxPdo rx : stepwise readsGrow (mapRxPdo rx).
Proof. unfold mapRxPdo. reads. Qed.

Lemma reads_mapTxPdo tx : stepwise readsGrow (mapTxPdo tx).
Proof. unfold mapTxPdo. reads. Qed.

Hint Resolve reads_mapRxPdo reads_mapTxPdo : reads.

Lemma reads_mapPdos rx tx : stepwise readsGrow (mapPdos rx tx).
Proof. unfold mapPdos. reads. Qed.

Lemma reads_autoConfigurePdoSizes : stepwise readsGrow autoConfigurePdoSizes.
Proof. unfold autoConfigurePdoSizes. reads. Qed.

Hint Resolve reads_mapPdos reads_autoConfigurePdoSizes : reads.

Lemma reads_runPreopConfiguration : stepwise readsGrow runPreopConfiguration.
Proof.
  unfold runPreopConfiguration, readRatedCurrentIfUnset, stepReadyToSwitchOn,
    stepMapPdos, stepModeOfOperation, stepPdoSizes, stepRatedCurrent, stepRatedTorque,
    stepMaxCurrent.
  reads.
Qed.

Lemma reads_startup : stepwise readsGrow startup.
Proof. unfold startup. reads. Qed.

Lemma reads_shutdown : stepwise readsGrow shutdown.
Proof. unfold shutdown. reads. Qed.

Lemma reads_stageCommand cmd : stepwise readsGrow (stageCommand cmd).
Proof. unfold stageCommand. reads. Qed.

Lemma reads_loadConfiguration cfg : stepwise readsGrow (loadConfiguration cfg).
Proof. unfold loadConfiguration. reads. Qed.

Hint Resolve reads_runPreopConfiguration reads_startup reads_shutdown reads_stageCommand
  reads_loadConfiguration : reads.

Lemma sameReads_refl e : sameReads e e.
Proof. reflexivity. Qed.

Lemma sameReads_trans a b c : sameReads a b -> sameReads b c -> sameReads a c.
Proof. unfold sameReads. congruence. Qed.

Lemma sameReads_after_fetch : stepwise sameReads (markRead ;;; readFaultCode).
Proof.
  unfold markRead, readFaultCode, sendSdoRead, modifyReading, emit.
  stepwise_split sameReads_refl sameReads_trans; reflexivity.
Qed.

(** With a current tx type it has a case for, [updateRead] reads exactly
    one record from the bus. *)
Lemma updateRead_fetches (e : Elmo) :
  txImplemented (currentTxPdoTypeEnum_ e) = true ->
  readsSoFar (trace_ (snd (updateRead e))) = S (readsSoFar (trace_ e)).
Proof.
  intro Htype.
  assert (Hfetch : readsSoFar (trace_ (snd (readTxPdo e))) = S (readsSoFar (trace_ e))).
  { unfold readTxPdo, modifyReading, emit, bind, get, modify.
    destruct (currentTxPdoTypeEnum_ e); try discriminate Htype; reflexivity. }
  change (updateRead e) with (bind readTxPdo (fun _ => markRead ;;; readFaultCode) e).
  unfold bind at 1. destruct (readTxPdo e) as [u e1]. cbn [snd] in Hfetch.
  rewrite <- Hfetch. exact (sameReads_after_fetch e1).
Qed.

(** ** The engine and the fresh-reading flag *)

Lemma sameGate_blocked e e' : sameGate e e' -> blocked e -> blocked e'.
Proof. unfold blocked. intros [H1 H2] H. rewrite H1, H2. exact H. Qed.

Lemma engagePdoStateMachine_gate (e : Elmo) :
  if declaresSuccess e
  then hasRead_ (snd (engagePdoStateMachine e)) = hasRead_ e
       /\ conductStateChange_ (snd (engagePdoStateMachine e)) = false
  else hasRead_ (snd (engagePdoStateMachine e)) = false.
Proof.
  unfold declaresSuccess, engagePdoStateMachine, steady_clock_now, bind, get, emit,
    modify, ret, when. simpl.
  destruct (DriveState.eqb (Reading_getDriveState (reading_ e)) (targetDriveState_ e));
    simpl.
  - destruct (numberOfSuccessfulTargetStateReadings_ e + 1
              >=? minNumberOfSuccessfulTargetStateReadings (configuration_ e));
      simpl; auto.
  - destruct (steadyClockAnswer (trace_ e) - driveStateChangeTimePoint_ e
              >? driveStateChangeMinTimeout (configuration_ e)); simpl; auto.
    destruct (getNextStateTransitionControlword (targetDriveState_ e)
                (Reading_getDriveState (reading_ e))
                (set_trace_ (SteadyClockNow :: trace_ e) e)) as [cw e1].
    reflexivity.
Qed.

Lemma engagePdoStateMachine_blocked (e : Elmo) :
  blocked (snd (engagePdoStateMachine e)).
Proof.
  unfold blocked. pose proof (engagePdoStateMachine_gate e) as H.
  destruct (declaresSuccess e).
  - destruct H as [_ H]. rewrite H. reflexivity.
  - rewrite H. apply andb_false_r.
Qed.

Lemma updateWrite_engages (e : Elmo) :
  updateWrite e
  = if engages e then updateWriteEngaged e else updateWriteIdle e.
Proof.
  unfold engages, updateWrite, updateWriteEngaged, updateWriteIdle, bind, get, when. simpl.
  destruct (ModeOfOperationEnum.isNA (modeOfOperation_ e)); simpl; [reflexivity|].
  destruct (conductStateChange_ e && hasRead_ e); reflexivity.
Qed.

Lemma gate_updateWriteIdle : stepwise sameGate updateWriteIdle.
Proof. unfold updateWriteIdle. gate. Qed.

Lemma updateWrite_blocked (e : Elmo) : blocked (snd (updateWrite e)) \/ engages e = false.
Proof.
  destruct (engages e) eqn:He; [left | right; reflexivity].
  rewrite updateWrite_engages, He. unfold updateWriteEngaged, bind.
  pose proof (engagePdoStateMachine_blocked e) as Hb.
  destruct (engagePdoStateMachine e) as [u e1]. simpl in Hb.
  exact (sameGate_blocked _ _ (gate_writeRxPdo e1) Hb).
Qed.

Lemma updateWrite_keeps_blocked (e : Elmo) : blocked e -> blocked (snd (updateWrite e)).
Proof.
  intro Hb. rewrite updateWrite_engages.
  assert (He : engages e = false).
  { unfold engages. rewrite Hb. apply andb_false_r. }
  rewrite He. exact (sameGate_blocked _ _ (gate_updateWriteIdle e) Hb).
Qed.

Lemma setDriveStateViaPdo_nowait (others : nat -> Elmo -> Elmo) (fuel : nat)
  (driveState : DriveState.t) (e : Elmo) :
  setDriveStateViaPdo others fuel driveState false e
  = (Some true,
     set_trace_ (SteadyClockNow :: SteadyClockNow :: trace_ e)
       (set_driveStateChangeTimePoint_ (steadyClockAnswer (trace_ e))
          (set_hasRead_ false
             (set_targetDriveState_ driveState
                (set_conductStateChange_ true (set_stateChangeSuccessful_ false e)))))).
Proof. reflexivity. Qed.

Lemma call_keeps_hasRead_false (c : Call) (e : Elmo) :
  isUpdateRead c = false -> hasRead_ e = false -> hasRead_ (call c e) = false.
Proof.
  intros Hc He.
  destruct c; try discriminate Hc; unfold call;
    try (match goal with
         | |- hasRead_ (snd (?m e)) = false =>
             assert (Hg : stepwise sameGate m) by auto with gate;
             destruct (Hg e) as [_ Hg2]; rewrite Hg2; exact He
         end).
  - rewrite updateWrite_engages.
    assert (Hn : engages e = false).
    { unfold engages. rewrite He, andb_false_r. apply andb_false_r. }
    rewrite Hn. destruct (gate_updateWriteIdle e) as [_ H]. rewrite H. exact He.
  - reflexivity.
Qed.

Lemma call_keeps_blocked (c : Call) (e : Elmo) :
  isUpdateRead c = false -> blocked e -> blocked (call c e).
Proof.
  intros Hc Hb.
  destruct c; try discriminate Hc; unfold call;
    try (match goal with
         | |- blocked (snd (?m e)) =>
             assert (Hg : stepwise sameGate m) by auto with gate;
             exact (sameGate_blocked _ _ (Hg e) Hb)
         end).
  - apply updateWrite_keeps_blocked, Hb.
  - reflexivity.
Qed.

Lemma calls_keep_blocked (cs : list Call) (e : Elmo) :
  existsb isUpdateRead cs = false -> blocked e -> blocked (calls cs e).
Proof.
  revert e. induction cs as [|c rest IH]; intros e Hcs Hb; simpl in *.
  - exact Hb.
  - apply orb_false_elim in Hcs. destruct Hcs as [Hc Hrest].
    apply IH; [exact Hrest | apply call_keeps_blocked; assumption].
Qed.

Lemma calls_cons (c : Call) (rest : list Call) (e : Elmo) :
  calls (c :: rest) e = calls rest (call c e).
Proof. reflexivity. Qed.

Lemma call_readsGrow (c : Call) (e : Elmo) : readsGrow e (call c e).
Proof.
  destruct c; unfold call;
    try (match goal with
         | |- readsGrow e (snd (?m e)) =>
             assert (Hg : stepwise readsGrow m) by auto with reads; exact (Hg e)
         end).
Qed.

Lemma calls_readsGrow (cs : list Call) (e : Elmo) : readsGrow e (calls cs e).
Proof.
  revert e. induction cs as [|c rest IH]; intro e.
  - apply readsGrow_refl.
  - rewrite calls_cons.
    exact (readsGrow_trans _ _ _ (call_readsGrow c e) (IH (call c e))).
Qed.

Lemma calls_fetch_before_engaging (cs : list Call) (e : Elmo) :
  blocked e ->
  txImplementedAlong cs e = true ->
  engages (calls cs e) = true ->
  (readsSoFar (trace_ e) < readsSoFar (trace_ (calls cs e)))%nat.
Proof.
  revert e. induction cs as [|c rest IH]; intros e Hb Htypes Hagain.
  - unfold calls in Hagain. simpl in Hagain. unfold engages in Hagain.
    unfold blocked in Hb. rewrite Hb, andb_false_r in Hagain. discriminate.
  - rewrite calls_cons in *. cbn [txImplementedAlong] in Htypes.
    apply andb_prop in Htypes. destruct Htypes as [Htype Hrest].
    destruct (isUpdateRead c) eqn:Hc.
    + destruct c; try discriminate Hc.
      pose proof (calls_readsGrow rest (call CallUpdateRead e)) as Hgrow.
      unfold readsGrow in Hgrow.
      assert (Hfetch : readsSoFar (trace_ (call CallUpdateRead e))
                       = S (readsSoFar (trace_ e)))
        by exact (updateRead_fetches e Htype).
      lia.
    + pose proof (call_readsGrow c e) as Hgrow. unfold readsGrow in Hgrow.
      pose proof (IH (call c e) (call_keeps_blocked c e Hc Hb) Hrest Hagain).
      lia.
Qed.

(** C4 (as the code has it).  A call of the engine that does not declare
    success clears [hasRead_]; one that declares success leaves the flag
    as it is and clears [conductStateChange_].  [updateWrite] calls the
    engine exactly when a mode is set and both flags are up.  No call
    other than [updateRead] raises [hasRead_].  Hence between two calls of
    the engine there is at least one [updateRead]; and as long as the
    current tx type is one [updateRead] has a case for, an inbound record
    is read from the bus in between, so that the engine never evaluates
    the same sample twice. *)
Theorem engine_waits_for_updateRead :
  (forall e,
     if declaresSuccess e
     then hasRead_ (snd (engagePdoStateMachine e)) = hasRead_ e
          /\ conductStateChange_ (snd (engagePdoStateMachine e)) = false
     else hasRead_ (snd (engagePdoStateMachine e)) = false)
  /\ (forall e,
        updateWrite e
        = if engages e then updateWriteEngaged e else updateWriteIdle e)
  /\ (forall c e,
        isUpdateRead c = false -> hasRead_ e = false -> hasRead_ (call c e) = false)
  /\ (forall e cs,
        engages e = true ->
        engages (calls cs (snd (updateWrite e))) = true ->
        existsb isUpdateRead cs = true)
  /\ (forall e cs,
        engages e = true ->
        txImplementedAlong cs (snd (updateWrite e)) = true ->
        engages (calls cs (snd (updateWrite e))) = true ->
        (readsSoFar (trace_ (snd (updateWrite e)))
         < readsSoFar (trace_ (calls cs (snd (updateWrite e)))))%nat).
Proof.
  split; [exact engagePdoStateMachine_gate|].
  split; [exact updateWrite_engages|].
  split; [exact call_keeps_hasRead_false|].
  split.
  - intros e cs He Hagain.
    destruct (existsb isUpdateRead cs) eqn:Hcs; [reflexivity | exfalso].
    destruct (updateWrite_blocked e) as [Hb | Hn]; [ | congruence ].
    pose proof (calls_keep_blocked cs _ Hcs Hb) as Hb'.
    unfold engages in Hagain. unfold blocked in Hb'.
    rewrite Hb', andb_false_r in Hagain. discriminate.
  - intros e cs He Htypes Hagain.
    destruct (updateWrite_blocked e) as [Hb | Hn]; [ | congruence ].
    exact (calls_fetch_before_engaging cs _ Hb Htypes Hagain).
Qed.


(** ** The success counter of the engine *)

Lemma getNextStateTransitionControlword_touches_reading_only req cur (e : Elmo) :
  exists r, snd (getNextStateTransitionControlword req cur e) = set_reading_ r e.
Proof.
  assert (Hid : exists r, e = set_reading_ r e).
  { exists (reading_ e). destruct e; reflexivity. }
  unfold getNextStateTransitionControlword.
  destruct req; destruct cur; simpl; try exact Hid; eexists; reflexivity.
Qed.

Lemma engagePdoStateMachine_step (e : Elmo) :
  targetDriveState_ (snd (engagePdoStateMachine e)) = targetDriveState_ e
  /\ configuration_ (snd (engagePdoStateMachine e)) = configuration_ e
  /\ if DriveState.eqb (Reading_getDriveState (reading_ e)) (targetDriveState_ e)
     then
       if numberOfSuccessfulTargetStateReadings_ e + 1
          >=? minNumberOfSuccessfulTargetStateReadings (configuration_ e)
       then conductStateChange_ (snd (engagePdoStateMachine e)) = false
            /\ numberOfSuccessfulTargetStateReadings_ (snd (engagePdoStateMachine e)) = 0
            /\ stateChangeSuccessful_ (snd (engagePdoStateMachine e)) = true
       else conductStateChange_ (snd (engagePdoStateMachine e)) = conductStateChange_ e
            /\ numberOfSuccessfulTargetStateReadings_ (snd (engagePdoStateMachine e))
               = numberOfSuccessfulTargetStateReadings_ e + 1
            /\ stateChangeSuccessful_ (snd (engagePdoStateMachine e))
               = stateChangeSuccessful_ e
     else conductStateChange_ (snd (engagePdoStateMachine e)) = conductStateChange_ e
          /\ numberOfSuccessfulTargetStateReadings_ (snd (engagePdoStateMachine e))
             = numberOfSuccessfulTargetStateReadings_ e
          /\ stateChangeSuccessful_ (snd (engagePdoStateMachine e))
             = stateChangeSuccessful_ e.
Proof.
  unfold engagePdoStateMachine, steady_clock_now, bind, get, emit, modify, ret, when.
  simpl.
  destruct (DriveState.eqb (Reading_getDriveState (reading_ e)) (targetDriveState_ e));
    simpl.
  - destruct (numberOfSuccessfulTargetStateReadings_ e + 1
              >=? minNumberOfSuccessfulTargetStateReadings (configuration_ e));
      simpl; auto.
  - destruct (steadyClockAnswer (trace_ e) - driveStateChangeTimePoint_ e
              >? driveStateChangeMinTimeout (configuration_ e)); simpl; auto.
    destruct (getNextStateTransitionControlword_touches_reading_only
                (targetDriveState_ e) (Reading_getDriveState (reading_ e))
                (set_trace_ (SteadyClockNow :: trace_ e) e)) as [r Hr].
    destruct (getNextStateTransitionControlword (targetDriveState_ e)
                (Reading_getDriveState (reading_ e))
                (set_trace_ (SteadyClockNow :: trace_ e) e)) as [cw e1].
    simpl in Hr. subst e1. simpl. auto.
Qed.

Lemma matching_cons target s ss :
  matching target (s :: ss)
  = (if DriveState.eqb (getDriveState s) target then 1 else 0) + matching target ss.
Proof.
  unfold matching. simpl.
  destruct (DriveState.eqb (getDriveState s) target); simpl length; lia.
Qed.

Lemma matching_nonneg target ss : 0 <= matching target ss.
Proof. unfold matching. lia. Qed.

Lemma evaluate_success_needs_count (statuswords : list Z) (e : Elmo) :
  stateChangeSuccessful_ e = false ->
  stateChangeSuccessful_ (snd (evaluate statuswords e)) = true ->
  minNumberOfSuccessfulTargetStateReadings (configuration_ e)
  <= numberOfSuccessfulTargetStateReadings_ e
     + matching (targetDriveState_ e) statuswords.
Proof.
  revert e. induction statuswords as [|s rest IH]; intros e Hno Hyes.
  - simpl in Hyes. congruence.
  - rewrite matching_cons.
    pose proof (matching_nonneg (targetDriveState_ e) rest) as Hnn.
    simpl in Hyes. unfold bind in Hyes. simpl in Hyes.
    set (e0 := set_reading_ (set_statusword s (reading_ e)) e) in *.
    pose proof (engagePdoStateMachine_step e0) as (Htarget & Hcfg & Hstep).
    destruct (engagePdoStateMachine e0) as [u e1]. simpl in *.
    change (getDriveState (statusword (set_statusword s (reading_ e))))
      with (getDriveState s) in Hstep.
    unfold Reading_getDriveState in Hstep. subst e0. simpl in Hstep, Htarget, Hcfg.
    destruct (DriveState.eqb (getDriveState s) (targetDriveState_ e)).
    + destruct (numberOfSuccessfulTargetStateReadings_ e + 1
                >=? minNumberOfSuccessfulTargetStateReadings (configuration_ e)) eqn:Hge.
      * apply Z.geb_le in Hge. lia.
      * destruct Hstep as (_ & Hn & Hs).
        assert (Hno1 : stateChangeSuccessful_ e1 = false) by congruence.
        specialize (IH e1 Hno1 Hyes). rewrite Htarget, Hcfg, Hn in IH. lia.
    + destruct Hstep as (_ & Hn & Hs).
      assert (Hno1 : stateChangeSuccessful_ e1 = false) by congruence.
      specialize (IH e1 Hno1 Hyes). rewrite Htarget, Hcfg, Hn in IH. lia.
Qed.

(** C3 (as the code has it).  The counter counts the evaluated readings
    equal to the target: a call of the engine on such a reading adds one
    to it, a call on any other reading leaves it as it is instead of
    resetting it; when the incremented counter reaches the configured
    minimum the pending flag is cleared, the counter returns to zero and
    the request is marked successful, otherwise the pending and success
    flags stay as they are.  So a request that starts with the counter at
    zero is marked successful only after the configured minimum number of
    evaluated readings equal to the target, consecutive or not. *)
Theorem engagePdoStateMachine_counts_matching_readings :
  (forall e : Elmo,
     if DriveState.eqb (Reading_getDriveState (reading_ e)) (targetDriveState_ e)
     then
       if numberOfSuccessfulTargetStateReadings_ e + 1
          >=? minNumberOfSuccessfulTargetStateReadings (configuration_ e)
       then conductStateChange_ (snd (engagePdoStateMachine e)) = false
            /\ numberOfSuccessfulTargetStateReadings_ (snd (engagePdoStateMachine e)) = 0
            /\ stateChangeSuccessful_ (snd (engagePdoStateMachine e)) = true
       else conductStateChange_ (snd (engagePdoStateMachine e)) = conductStateChange_ e
            /\ numberOfSuccessfulTargetStateReadings_ (snd (engagePdoStateMachine e))
               = numberOfSuccessfulTargetStateReadings_ e + 1
            /\ stateChangeSuccessful_ (snd (engagePdoStateMachine e))
               = stateChangeSuccessful_ e
     else conductStateChange_ (snd (engagePdoStateMachine e)) = conductStateChange_ e
          /\ numberOfSuccessfulTargetStateReadings_ (snd (engagePdoStateMachine e))
             = numberOfSuccessfulTargetStateReadings_ e
          /\ stateChangeSuccessful_ (snd (engagePdoStateMachine e))
             = stateChangeSuccessful_ e)
  /\ (forall (statuswords : list Z) (e : Elmo),
        numberOfSuccessfulTargetStateReadings_ e = 0 ->
        stateChangeSuccessful_ e = false ->
        stateChangeSuccessful_ (snd (evaluate statuswords e)) = true ->
        minNumberOfSuccessfulTargetStateReadings (configuration_ e)
        <= matching (targetDriveState_ e) statuswords).
Proof.
  split.
  - intro e. exact (proj2 (proj2 (engagePdoStateMachine_step e))).
  - intros statuswords e Hzero Hno Hyes.
    pose proof (evaluate_success_needs_count statuswords e Hno Hyes) as H.
    rewrite Hzero in H. exact H.
Qed.


(** ** The cyclic write half without a mode of operation *)

Lemma updateWrite_NA (e : Elmo) :
  modeOfOperation_ e = ModeOfOperationEnum.NA ->
  updateWrite e
  = (tt, set_reading_ (addError ErrorType.ModeOfOperationError (reading_ e)) e).
Proof.
  intro Hmode. unfold updateWrite, bind, get. rewrite Hmode. reflexivity.
Qed.

(** C7. When the mode of operation is [NA], [updateWrite] does nothing
    but record one [ModeOfOperationError]: the log of outside calls, and
    with it the bus, is untouched, and so is everything the engine could
    change. *)
Theorem updateWrite_without_mode (e : Elmo) :
  modeOfOperation_ e = ModeOfOperationEnum.NA ->
  trace_ (snd (updateWrite e)) = trace_ e
  /\ errors (reading_ (snd (updateWrite e)))
     = ErrorType.ModeOfOperationError :: errors (reading_ e)
  /\ controlword_ (snd (updateWrite e)) = controlword_ e
  /\ hasRead_ (snd (updateWrite e)) = hasRead_ e
  /\ conductStateChange_ (snd (updateWrite e)) = conductStateChange_ e
  /\ stateChangeSuccessful_ (snd (updateWrite e)) = stateChangeSuccessful_ e
  /\ numberOfSuccessfulTargetStateReadings_ (snd (updateWrite e))
     = numberOfSuccessfulTargetStateReadings_ e
  /\ driveStateChangeTimePoint_ (snd (updateWrite e)) = driveStateChangeTimePoint_ e.
Proof.
  intro Hmode. rewrite (updateWrite_NA e Hmode). cbn [snd].
  repeat split; reflexivity.
Qed.

(** ** The fault check of the cyclic read half *)

Lemma fetchedOnly_refl e : fetchedOnly e e.
Proof. split; [exists []; split; reflexivity | split; reflexivity]. Qed.

Lemma fetchedOnly_trans a b c : fetchedOnly a b -> fetchedOnly b c -> fetchedOnly a c.
Proof.
  intros [(n1 & H1 & F1) [A1 B1]] [(n2 & H2 & F2) [A2 B2]].
  split; [ | split; congruence ].
  exists (n2 ++ n1). split.
  - rewrite H2, H1. apply app_assoc.
  - rewrite forallb_app, F1, F2. reflexivity.
Qed.

Lemma fetchedOnly_emit ev : isMailbox ev = false -> stepwise fetchedOnly (emit ev).
Proof.
  intros Hev e. split; [ | split; reflexivity ].
  exists [ev]. simpl. rewrite Hev. split; reflexivity.
Qed.

Lemma readTxPdo_fetchedOnly : stepwise fetchedOnly readTxPdo.
Proof.
  unfold readTxPdo, modifyReading.
  stepwise_split fetchedOnly_refl fetchedOnly_trans;
    try (apply fetchedOnly_emit; reflexivity);
    (split; [exists []; split; reflexivity | split; reflexivity]).
Qed.

Lemma markRead_fetchedOnly : stepwise fetchedOnly markRead.
Proof.
  unfold markRead. stepwise_split fetchedOnly_refl fetchedOnly_trans.
  split; [exists []; split; reflexivity | split; reflexivity].
Qed.

Lemma updateRead_parts (e : Elmo) :
  snd (updateRead e) = snd (readFaultCode (snd (markRead (snd (readTxPdo e))))).
Proof.
  unfold updateRead, bind.
  destruct (readTxPdo e) as [u1 e1]. cbn [snd].
  destruct (markRead e1) as [u2 e2]. reflexivity.
Qed.

Lemma readFaultCode_effect (e : Elmo) :
  statusword (reading_ (snd (readFaultCode e))) = statusword (reading_ e)
  /\ if DriveState.eqb (Reading_getDriveState (reading_ e)) DriveState.Fault
     then
       trace_ (snd (readFaultCode e))
       = SdoRead OdIndex.OD_INDEX_ERROR_CODE 0 false :: trace_ e
       /\ if fst (sdoReadAnswer (trace_ e) OdIndex.OD_INDEX_ERROR_CODE 0 false)
          then
            faults (reading_ (snd (readFaultCode e)))
            = snd (sdoReadAnswer (trace_ e) OdIndex.OD_INDEX_ERROR_CODE 0 false)
              :: faults (reading_ e)
            /\ errorCount ErrorType.ErrorReadingError (snd (readFaultCode e))
               = errorCount ErrorType.ErrorReadingError e
          else
            faults (reading_ (snd (readFaultCode e))) = faults (reading_ e)
            /\ errorCount ErrorType.ErrorReadingError (snd (readFaultCode e))
               = S (errorCount ErrorType.ErrorReadingError e)
     else snd (readFaultCode e) = e.
Proof.
  unfold readFaultCode, sendSdoRead, modifyReading, emit, bind, get, modify, when, ret.
  cbn [fst snd].
  destruct (DriveState.eqb (Reading_getDriveState (reading_ e)) DriveState.Fault).
  - cbn [fst snd trace_ set_trace_].
    destruct (fst (sdoReadAnswer (trace_ e) OdIndex.OD_INDEX_ERROR_CODE 0 false));
      repeat split; reflexivity.
  - split; reflexivity.
Qed.

(** C8. Let the state decoded from the reading after the cyclic read be
    given.  If it is [Fault], the read half makes exactly one mailbox
    call, a read of the error code, after the record has been fetched; if
    that read succeeds its value becomes the newest fault entry and no
    [ErrorReadingError] is added, if it fails one [ErrorReadingError] is
    added and the fault history is unchanged.  If the state is not
    [Fault] there is no mailbox call, no new fault entry and no
    [ErrorReadingError]. *)
Theorem updateRead_fault_check (e : Elmo) :
  exists new,
    trace_ (snd (updateRead e)) = new ++ trace_ e
    /\ if DriveState.eqb (Reading_getDriveState (reading_ (snd (updateRead e))))
            DriveState.Fault
       then
         exists fetched,
           new = SdoRead OdIndex.OD_INDEX_ERROR_CODE 0 false :: fetched
           /\ forallb (fun ev => negb (isMailbox ev)) fetched = true
           /\ if fst (sdoReadAnswer (fetched ++ trace_ e) OdIndex.OD_INDEX_ERROR_CODE 0 false)
              then
                faults (reading_ (snd (updateRead e)))
                = snd (sdoReadAnswer (fetched ++ trace_ e) OdIndex.OD_INDEX_ERROR_CODE 0 false)
                  :: faults (reading_ e)
                /\ errorCount ErrorType.ErrorReadingError (snd (updateRead e))
                   = errorCount ErrorType.ErrorReadingError e
              else
                faults (reading_ (snd (updateRead e))) = faults (reading_ e)
                /\ errorCount ErrorType.ErrorReadingError (snd (updateRead e))
                   = S (errorCount ErrorType.ErrorReadingError e)
       else
         forallb (fun ev => negb (isMailbox ev)) new = true
         /\ faults (reading_ (snd (updateRead e))) = faults (reading_ e)
         /\ errorCount ErrorType.ErrorReadingError (snd (updateRead e))
            = errorCount ErrorType.ErrorReadingError e.
Proof.
  rewrite updateRead_parts.
  pose proof (readTxPdo_fetchedOnly e) as Q1.
  pose proof (markRead_fetchedOnly (snd (readTxPdo e))) as Q2.
  set (e2 := snd (markRead (snd (readTxPdo e)))) in *.
  destruct (fetchedOnly_trans _ _ _ Q1 Q2) as [(got & Htrace & Hgot) [Hfaults Hcount]].
  destruct (readFaultCode_effect e2) as [Hsw Heff].
  unfold Reading_getDriveState in *. rewrite Hsw.
  destruct (DriveState.eqb (getDriveState (statusword (reading_ e2))) DriveState.Fault).
  - destruct Heff as [Htr Hans].
    exists (SdoRead OdIndex.OD_INDEX_ERROR_CODE 0 false :: got).
    split; [rewrite Htr, Htrace; reflexivity|].
    exists got. split; [reflexivity|]. split; [exact Hgot|].
    rewrite <- Htrace.
    destruct (fst (sdoReadAnswer (trace_ e2) OdIndex.OD_INDEX_ERROR_CODE 0 false));
      destruct Hans as [Hf Hc]; split; congruence.
  - rewrite Heff. exists got. repeat split; assumption.
Qed.


(** ** Rejecting an unset record type *)

(** C9 (what the code does).  [configureRxPdo] and [configureTxPdo] both
    answer [false] to [NA], and both record the same error kind,
    [RxPdoTypeError]: the Tx side does not record [TxPdoTypeError]. *)
Theorem configureTxPdo_NA_records_RxPdoTypeError (e : Elmo) :
  configureTxPdo TxPdoTypeEnum.NA e
  = (false, set_reading_ (addError ErrorType.RxPdoTypeError (reading_ e)) e)
  /\ configureRxPdo RxPdoTypeEnum.NA e
     = (false, set_reading_ (addError ErrorType.RxPdoTypeError (reading_ e)) e)
  /\ errors (reading_ (snd (configureTxPdo TxPdoTypeEnum.NA e)))
     <> ErrorType.TxPdoTypeError :: errors (reading_ e).
Proof.
  repeat split. simpl. intro H. inversion H.
Qed.

(** ** Requesting a state change over process data *)

Lemma waitForStateChange_poll (others : nat -> Elmo -> Elmo) (fuel k : nat)
  (start : Z) (e : Elmo) :
  waitForStateChange others (S fuel) k start e
  = if stateChangeSuccessful_ e then (Some true, e)
    else if steadyClockAnswer (trace_ e) - start
            >? driveStateChangeMaxTimeout (configuration_ e)
         then (Some false, set_trace_ (SteadyClockNow :: trace_ e) e)
         else waitForStateChange others fuel (S k) start
                (others k (set_trace_ (Usleep 1000 :: SteadyClockNow :: trace_ e) e)).
Proof.
  cbn [waitForStateChange].
  cbv beta iota zeta delta [bind get steady_clock_now emit usleep modify ret].
  destruct (stateChangeSuccessful_ e); [reflexivity|].
  cbn [configuration_ set_trace_ trace_].
  destruct (steadyClockAnswer (trace_ e) - start
            >? driveStateChangeMaxTimeout (configuration_ e)); reflexivity.
Qed.

Lemma waitForStateChange_false (others : nat -> Elmo -> Elmo) (fuel k : nat)
  (start : Z) (e e' : Elmo) :
  waitForStateChange others fuel k start e = (Some false, e') ->
  exists t,
    trace_ e' = SteadyClockNow :: t
    /\ steadyClockAnswer t - start > driveStateChangeMaxTimeout (configuration_ e')
    /\ stateChangeSuccessful_ e' = false.
Proof.
  revert k e. induction fuel as [|fuel IH]; intros k e Hrun.
  - discriminate Hrun.
  - rewrite waitForStateChange_poll in Hrun.
    destruct (stateChangeSuccessful_ e) eqn:Hs; [discriminate Hrun|].
    destruct (steadyClockAnswer (trace_ e) - start
              >? driveStateChangeMaxTimeout (configuration_ e)) eqn:Hlate.
    + inversion Hrun; subst e'; clear Hrun. exists (trace_ e).
      cbn [trace_ set_trace_ configuration_ stateChangeSuccessful_].
      repeat split; [ | exact Hs ].
      apply Z.gtb_lt in Hlate. lia.
    + eapply IH. exact Hrun.
Qed.

(** The waiting form does answer once the clock moves: if every clock
    reading is at least the number of logged calls and the other threads
    neither shorten the log nor change the configuration, the loop ends
    within a number of polls bounded by the maximum timeout. *)
Lemma waitForStateChange_returns (others : nat -> Elmo -> Elmo) (start : Z) :
  (forall t, Z.of_nat (length t) <= steadyClockAnswer t) ->
  (forall k x, (length (trace_ x) <= length (trace_ (others k x)))%nat) ->
  (forall k x, configuration_ (others k x) = configuration_ x) ->
  forall (n k : nat) (e : Elmo),
    driveStateChangeMaxTimeout (configuration_ e) + start
    - Z.of_nat (length (trace_ e)) < Z.of_nat n ->
    fst (waitForStateChange others (S n) k start e) <> None.
Proof.
  intros Hclock Hlog Hcfg.
  induction n as [|n IH]; intros k e Hbound; rewrite waitForStateChange_poll.
  - destruct (stateChangeSuccessful_ e); [discriminate|].
    destruct (steadyClockAnswer (trace_ e) - start
              >? driveStateChangeMaxTimeout (configuration_ e)) eqn:Hlate;
      [discriminate|].
    exfalso. pose proof (Hclock (trace_ e)) as Hc.
    rewrite Z.gtb_ltb in Hlate. apply Z.ltb_ge in Hlate. simpl in Hbound. lia.
  - destruct (stateChangeSuccessful_ e); [discriminate|].
    destruct (steadyClockAnswer (trace_ e) - start
              >? driveStateChangeMaxTimeout (configuration_ e)); [discriminate|].
    apply IH. rewrite Hcfg.
    pose proof (Hlog k (set_trace_ (Usleep 1000 :: SteadyClockNow :: trace_ e) e)) as Hl.
    cbn [trace_ set_trace_ configuration_ length] in *. lia.
Qed.

(** C10. Without waiting, [setDriveStateViaPdo] answers [true] for every
    target, whatever the drive does afterwards, and leaves the request
    pending: success flag down, [conductStateChange_] up, the target
    stored, [hasRead_] down, the dwell time point set to the clock.  An
    answer [false] comes only from the waiting form, and only when the
    clock reading just taken is more than the maximum timeout past the
    start of the wait while success is still not flagged. *)
Theorem setDriveStateViaPdo_answers (others : nat -> Elmo -> Elmo) (fuel : nat)
  (driveState : DriveState.t) :
  (forall e,
     fst (setDriveStateViaPdo others fuel driveState false e) = Some true
     /\ stateChangeSuccessful_ (snd (setDriveStateViaPdo others fuel driveState false e))
        = false
     /\ conductStateChange_ (snd (setDriveStateViaPdo others fuel driveState false e))
        = true
     /\ targetDriveState_ (snd (setDriveStateViaPdo others fuel driveState false e))
        = driveState
     /\ hasRead_ (snd (setDriveStateViaPdo others fuel driveState false e)) = false
     /\ driveStateChangeTimePoint_
          (snd (setDriveStateViaPdo others fuel driveState false e))
        = steadyClockAnswer (trace_ e))
  /\ (forall waitForState e e',
        setDriveStateViaPdo others fuel driveState waitForState e = (Some false, e') ->
        waitForState = true
        /\ exists t,
             trace_ e' = SteadyClockNow :: t
             /\ steadyClockAnswer t - steadyClockAnswer (SteadyClockNow :: trace_ e)
                > driveStateChangeMaxTimeout (configuration_ e')
             /\ stateChangeSuccessful_ e' = false).
Proof.
  split.
  - intro e. rewrite setDriveStateViaPdo_nowait. simpl. repeat split.
  - intros waitForState e e' Hrun.
    destruct waitForState.
    + split; [reflexivity|].
      unfold setDriveStateViaPdo, bind, modify, steady_clock_now, get, emit, ret in Hrun.
      simpl in Hrun.
      exact (waitForStateChange_false _ _ _ _ _ _ Hrun).
    + rewrite setDriveStateViaPdo_nowait in Hrun. discriminate Hrun.
Qed.


(** ** PDO mapping with an unset record type *)

Lemma quiet_refl i err e : quiet i err e e.
Proof. split; [exists []; split; reflexivity | reflexivity]. Qed.

Lemma quiet_trans i err a b c : quiet i err a b -> quiet i err b c -> quiet i err a c.
Proof.
  intros [(n1 & H1 & F1) E1] [(n2 & H2 & F2) E2]. split; [ | congruence ].
  exists (n2 ++ n1). split.
  - rewrite H2, H1. apply app_assoc.
  - rewrite forallb_app, F1, F2. reflexivity.
Qed.

Lemma quiet_emit i err ev :
  negb (isMailboxOn i ev) = true -> stepwise (quiet i err) (emit ev).
Proof.
  intros Hev e. split; [ | reflexivity ].
  exists [ev]. simpl. rewrite Hev. split; reflexivity.
Qed.

Lemma quiet_addErrorToReading i err err' :
  ErrorType.eqb err err' = false -> stepwise (quiet i err) (addErrorToReading err').
Proof.
  intros Hne e. split; [exists []; split; reflexivity | ].
  unfold errorCount. simpl. rewrite Hne. reflexivity.
Qed.

Create HintDb quiet.

Ltac quiet_tac i err :=
  repeat first
    [ solve [auto with quiet]
    | progress stepwise_split (quiet_refl i err) (quiet_trans i err) ];
  try (split; [exists []; split; reflexivity | reflexivity]).

Lemma quiet_sendSdoWrite i err j s c v :
  OdIndex.eqb i j = false -> stepwise (quiet i err) (sendSdoWrite j s c v).
Proof.
  intro Hij. unfold sendSdoWrite. quiet_tac i err.
  apply quiet_emit. simpl. rewrite Hij. reflexivity.
Qed.

Lemma quiet_sendSdoRead i err j s c :
  OdIndex.eqb i j = false -> stepwise (quiet i err) (sendSdoRead j s c).
Proof.
  intro Hij. unfold sendSdoRead. quiet_tac i err.
  apply quiet_emit. simpl. rewrite Hij. reflexivity.
Qed.

Lemma quiet_usleep i err d : stepwise (quiet i err) (usleep d).
Proof. apply quiet_emit. reflexivity. Qed.

Lemma quiet_sdoVerifyWrite i err j s c v d :
  OdIndex.eqb i j = false -> stepwise (quiet i err) (sdoVerifyWrite j s c v d).
Proof.
  intro Hij. unfold sdoVerifyWrite.
  apply (stepwise_bind _ (quiet_trans i err)); [apply quiet_sendSdoWrite, Hij | intro].
  apply (stepwise_bind _ (quiet_trans i err)); [apply quiet_usleep | intro].
  apply (stepwise_bind _ (quiet_trans i err)); [apply quiet_sendSdoRead, Hij | intro].
  apply (stepwise_ret _ (quiet_refl i err)).
Qed.

Hint Resolve quiet_usleep quiet_sdoVerifyWrite quiet_addErrorToReading : quiet.

Lemma mapTxPdo_quiet tx :
  stepwise (quiet OdIndex.OD_INDEX_RX_PDO_ASSIGNMENT ErrorType.PdoMappingError)
    (mapTxPdo tx).
Proof.
  unfold mapTxPdo.
  quiet_tac OdIndex.OD_INDEX_RX_PDO_ASSIGNMENT ErrorType.PdoMappingError.
Qed.

Lemma mapRxPdo_quiet rx :
  stepwise (quiet OdIndex.OD_INDEX_TX_PDO_ASSIGNMENT ErrorType.TxPdoMappingError)
    (mapRxPdo rx).
Proof.
  unfold mapRxPdo.
  quiet_tac OdIndex.OD_INDEX_TX_PDO_ASSIGNMENT ErrorType.TxPdoMappingError.
Qed.

Lemma configureTxPdo_quiet tx :
  stepwise (quiet OdIndex.OD_INDEX_RX_PDO_ASSIGNMENT ErrorType.PdoMappingError)
    (configureTxPdo tx).
Proof.
  unfold configureTxPdo, getCurrentTxPdoTypeEnum.
  quiet_tac OdIndex.OD_INDEX_RX_PDO_ASSIGNMENT ErrorType.PdoMappingError.
Qed.

Lemma configureRxPdo_quiet rx :
  stepwise (quiet OdIndex.OD_INDEX_TX_PDO_ASSIGNMENT ErrorType.TxPdoMappingError)
    (configureRxPdo rx).
Proof.
  unfold configureRxPdo, getCurrentRxPdoTypeEnum.
  quiet_tac OdIndex.OD_INDEX_TX_PDO_ASSIGNMENT ErrorType.TxPdoMappingError.
Qed.

Lemma mapRxPdo_unset rx (e : Elmo) :
  rx = RxPdoTypeEnum.NA \/ rx = RxPdoTypeEnum.Unimplemented ->
  mapRxPdo rx e
  = (false, set_reading_ (addError ErrorType.PdoMappingError (reading_ e)) e).
Proof. intros [H | H]; subst rx; reflexivity. Qed.

Lemma mapTxPdo_unset tx (e : Elmo) :
  tx = TxPdoTypeEnum.NA \/ tx = TxPdoTypeEnum.Unimplemented ->
  mapTxPdo tx e
  = (false, set_reading_ (addError ErrorType.TxPdoMappingError (reading_ e)) e).
Proof. intros [H | H]; subst tx; reflexivity. Qed.

(** C6. When the rx selection is [NA] or unimplemented, [mapPdos] answers
    [false], records exactly one [PdoMappingError] and makes no mailbox
    call on the rx assignment entry; likewise for the tx selection with
    [TxPdoMappingError] and the tx assignment entry. *)
Theorem mapPdos_unset_record_type (rx : RxPdoTypeEnum.t) (tx : TxPdoTypeEnum.t)
  (e : Elmo) :
  (rx = RxPdoTypeEnum.NA \/ rx = RxPdoTypeEnum.Unimplemented ->
   fst (mapPdos rx tx e) = false
   /\ errorCount ErrorType.PdoMappingError (snd (mapPdos rx tx e))
      = S (errorCount ErrorType.PdoMappingError e)
   /\ exists new,
        trace_ (snd (mapPdos rx tx e)) = new ++ trace_ e
        /\ forallb (fun ev => negb (isMailboxOn OdIndex.OD_INDEX_RX_PDO_ASSIGNMENT ev))
             new = true)
  /\
  (tx = TxPdoTypeEnum.NA \/ tx = TxPdoTypeEnum.Unimplemented ->
   fst (mapPdos rx tx e) = false
   /\ errorCount ErrorType.TxPdoMappingError (snd (mapPdos rx tx e))
      = S (errorCount ErrorType.TxPdoMappingError e)
   /\ exists new,
        trace_ (snd (mapPdos rx tx e)) = new ++ trace_ e
        /\ forallb (fun ev => negb (isMailboxOn OdIndex.OD_INDEX_TX_PDO_ASSIGNMENT ev))
             new = true).
Proof.
  split; intro Hunset.
  - unfold mapPdos, bind. rewrite (mapRxPdo_unset rx e Hunset).
    set (e1 := set_reading_ (addError ErrorType.PdoMappingError (reading_ e)) e).
    pose proof (mapTxPdo_quiet tx e1) as Q2.
    destruct (mapTxPdo tx e1) as [txSuccess e2]. simpl in Q2. simpl.
    assert (Q3 : quiet OdIndex.OD_INDEX_RX_PDO_ASSIGNMENT ErrorType.PdoMappingError e2
                   (snd ((if txSuccess
                          then andAssign txSuccess (configureTxPdo tx)
                          else ret txSuccess) e2))).
    { destruct txSuccess.
      - apply (stepwise_andAssign _ (quiet_refl _ _) (quiet_trans _ _)).
        apply configureTxPdo_quiet.
      - apply quiet_refl. }
    destruct ((if txSuccess then andAssign txSuccess (configureTxPdo tx)
               else ret txSuccess) e2) as [txSuccess' e4]. simpl in Q3. simpl.
    destruct (quiet_trans _ _ _ _ _ Q2 Q3) as [(new & Htrace & Hnew) Hcount].
    split; [apply andb_false_r|]. split.
    + rewrite Hcount. reflexivity.
    + exists new. split; [exact Htrace | exact Hnew].
  - unfold mapPdos, bind.
    pose proof (mapRxPdo_quiet rx e) as Q1.
    destruct (mapRxPdo rx e) as [rxSuccess e1]. simpl in Q1.
    rewrite (mapTxPdo_unset tx e1 Hunset).
    set (e2 := set_reading_ (addError ErrorType.TxPdoMappingError (reading_ e1)) e1).
    assert (Q3 : quiet OdIndex.OD_INDEX_TX_PDO_ASSIGNMENT ErrorType.TxPdoMappingError e2
                   (snd ((if rxSuccess
                          then andAssign rxSuccess (configureRxPdo rx)
                          else ret rxSuccess) e2))).
    { destruct rxSuccess.
      - apply (stepwise_andAssign _ (quiet_refl _ _) (quiet_trans _ _)).
        apply configureRxPdo_quiet.
      - apply quiet_refl. }
    destruct ((if rxSuccess then andAssign rxSuccess (configureRxPdo rx)
               else ret rxSuccess) e2) as [rxSuccess' e3]. simpl in Q3. simpl.
    destruct Q1 as [(new1 & Htrace1 & Hnew1) Hcount1].
    destruct Q3 as [(new3 & Htrace3 & Hnew3) Hcount3].
    split; [reflexivity|]. split.
    + rewrite Hcount3, <- Hcount1. reflexivity.
    + exists (new3 ++ new1). split.
      * rewrite Htrace3. unfold e2. simpl. rewrite Htrace1. apply app_assoc.
      * rewrite forallb_app, Hnew1, Hnew3. reflexivity.
Qed.



(** ** Configuration before cyclic operation *)

Lemma sameConfigurationErrors_refl e : sameConfigurationErrors e e.
Proof. reflexivity. Qed.

Lemma sameConfigurationErrors_trans a b c :
  sameConfigurationErrors a b -> sameConfigurationErrors b c ->
  sameConfigurationErrors a c.
Proof. unfold sameConfigurationErrors. congruence. Qed.

Ltac config_errors :=
  repeat (progress stepwise_split sameConfigurationErrors_refl
            sameConfigurationErrors_trans);
  try reflexivity.

Lemma transitionsViaSdo_config_errors ts success :
  stepwise sameConfigurationErrors (transitionsViaSdo success ts).
Proof.
  revert success. induction ts as [|t rest IH]; intro success; simpl.
  - config_errors.
  - apply (stepwise_bind _ sameConfigurationErrors_trans); [ | intro; apply IH ].
    unfold stateTransitionViaSdo, setControlwordViaSdo, sendSdoWrite, emit.
    config_errors.
Qed.

Lemma preopSteps_config_errors : Forall (stepwise sameConfigurationErrors) preopSteps.
Proof.
  unfold preopSteps. repeat apply Forall_cons; [ | | | | | | | | apply Forall_nil ].
  - unfold readRatedCurrentIfUnset, sendSdoRead, emit. config_errors.
  - unfold stepReadyToSwitchOn, setDriveStateViaSdo, getStatuswordViaSdo,
      transitionNotImplemented, sendSdoRead, addErrorToReading, emit.
    config_errors; apply transitionsViaSdo_config_errors.
  - unfold stepMapPdos, mapPdos, mapRxPdo, mapTxPdo, configureRxPdo, configureTxPdo,
      getCurrentRxPdoTypeEnum, getCurrentTxPdoTypeEnum, sdoVerifyWrite, sendSdoWrite,
      sendSdoRead, usleep, addErrorToReading, emit.
    config_errors.
  - unfold stepModeOfOperation, sdoVerifyWrite, sendSdoWrite, sendSdoRead, usleep, emit.
    config_errors.
  - unfold stepPdoSizes, autoConfigurePdoSizes, emit. config_errors.
  - unfold stepRatedCurrent, sdoVerifyWrite, sendSdoWrite, sendSdoRead, usleep, emit.
    config_errors.
  - unfold stepRatedTorque, sdoVerifyWrite, sendSdoWrite, sendSdoRead, usleep, emit.
    config_errors.
  - unfold stepMaxCurrent, sdoVerifyWrite, sendSdoWrite, sendSdoRead, usleep, emit.
    config_errors.
Qed.

Lemma runPreopConfiguration_runAll (e : Elmo) :
  length (fst (runAll preopSteps e)) = length preopSteps
  /\ runPreopConfiguration e
     = (allTrue (fst (runAll preopSteps e)),
        if allTrue (fst (runAll preopSteps e))
        then snd (runAll preopSteps e)
        else set_reading_
               (addError ErrorType.ConfigurationError
                  (reading_ (snd (runAll preopSteps e))))
               (snd (runAll preopSteps e))).
Proof.
  unfold runPreopConfiguration, preopSteps, runAll, andAssign, bind, ret.
  destruct (readRatedCurrentIfUnset e) as [b1 e1].
  destruct (stepReadyToSwitchOn e1) as [b2 e2].
  destruct (stepMapPdos e2) as [b3 e3].
  destruct (stepModeOfOperation e3) as [b4 e4].
  destruct (stepPdoSizes e4) as [b5 e5].
  destruct (stepRatedCurrent e5) as [b6 e6].
  destruct (stepRatedTorque e6) as [b7 e7].
  destruct (stepMaxCurrent e7) as [b8 e8].
  destruct b1, b2, b3, b4, b5, b6, b7, b8; split; reflexivity.
Qed.

Lemma errorCount_addError (err : ErrorType.t) (x : Elmo) :
  errorCount err (set_reading_ (addError err (reading_ x)) x) = S (errorCount err x).
Proof. unfold errorCount. destruct err; reflexivity. Qed.

Lemma runAll_last_step (steps : list (M bool)) (final : M bool) (e : Elmo) :
  snd (runAll (steps ++ [final]) e) = snd (final (snd (runAll steps e))).
Proof.
  revert e. induction steps as [|step rest IH]; intro e; simpl.
  - unfold bind, ret. destruct (final e) as [b e1]. reflexivity.
  - unfold bind, ret. destruct (step e) as [b e1].
    specialize (IH e1).
    destruct (runAll (rest ++ [final]) e1) as [bs e2].
    destruct (runAll rest e1) as [bs' e2']. simpl in *. exact IH.
Qed.

(** C5. [runPreopConfiguration] runs its eight steps one after the other
    whatever each of them answers: the object ends in the state reached
    by running them all, and the log always ends with the verified write
    of the maximum current, the last step.  It answers the conjunction of
    the eight results, and it records a [ConfigurationError], once,
    exactly when that conjunction is false. *)
Theorem runPreopConfiguration_aggregates (e : Elmo) :
  length (fst (runAll preopSteps e)) = length preopSteps
  /\ fst (runPreopConfiguration e) = allTrue (fst (runAll preopSteps e))
  /\ snd (runPreopConfiguration e)
     = (if allTrue (fst (runAll preopSteps e))
        then snd (runAll preopSteps e)
        else set_reading_
               (addError ErrorType.ConfigurationError
                  (reading_ (snd (runAll preopSteps e))))
               (snd (runAll preopSteps e)))
  /\ errorCount ErrorType.ConfigurationError (snd (runPreopConfiguration e))
     = (if fst (runPreopConfiguration e)
        then errorCount ErrorType.ConfigurationError e
        else S (errorCount ErrorType.ConfigurationError e))
  /\ exists value t,
       trace_ (snd (runPreopConfiguration e))
       = SdoRead OdIndex.OD_INDEX_MAX_CURRENT 0 false
         :: Usleep defaultVerifyDelay
         :: SdoWrite OdIndex.OD_INDEX_MAX_CURRENT 0 false value :: t.
Proof.
  destruct (runPreopConfiguration_runAll e) as [Hlen Heq].
  pose proof (stepwise_runAll _ sameConfigurationErrors_refl
                sameConfigurationErrors_trans _ preopSteps_config_errors e) as Hcount.
  unfold sameConfigurationErrors in Hcount.
  rewrite Heq. cbn [fst snd].
  split; [exact Hlen|]. split; [reflexivity|]. split; [reflexivity|]. split.
  - destruct (allTrue (fst (runAll preopSteps e))); [exact Hcount|].
    rewrite errorCount_addError, Hcount. reflexivity.
  - assert (Hlast : exists value t,
               trace_ (snd (runAll preopSteps e))
               = SdoRead OdIndex.OD_INDEX_MAX_CURRENT 0 false
                 :: Usleep defaultVerifyDelay
                 :: SdoWrite OdIndex.OD_INDEX_MAX_CURRENT 0 false value :: t).
    { change preopSteps
        with ([readRatedCurrentIfUnset; stepReadyToSwitchOn; stepMapPdos;
               stepModeOfOperation; stepPdoSizes; stepRatedCurrent; stepRatedTorque]
              ++ [stepMaxCurrent]).
      rewrite runAll_last_step. eexists _, _. reflexivity. }
    destruct Hlast as (value & t & Hlast). exists value, t.
    destruct (allTrue (fst (runAll preopSteps e))); simpl; exact Hlast.
Qed.


(** ** Blocking state change over the mailbox *)

Lemma transitionsViaSdo_run (ts : list StateTransition.t) (success : bool) (e : Elmo) :
  transitionsViaSdo success ts e
  = (success && allTrue (outcomes ts (trace_ e)), set_trace_ (issued ts (trace_ e)) e).
Proof.
  revert success e. induction ts as [|t rest IH]; intros success e.
  - simpl. unfold ret. rewrite andb_true_r. destruct e; reflexivity.
  - cbn [transitionsViaSdo]. unfold bind at 1.
    unfold andAssign, stateTransitionViaSdo, setControlwordViaSdo, sendSdoWrite, emit,
      bind, get, modify, ret. cbn [fst snd].
    rewrite IH. cbn [trace_ set_trace_ outcomes issued allTrue forallb].
    unfold transitionWrite. rewrite andb_assoc. reflexivity.
Qed.

Lemma issued_app (ts : list StateTransition.t) (trace : list Event) :
  issued ts trace = rev (map transitionWrite ts) ++ trace.
Proof.
  revert trace. induction ts as [|t rest IH]; intro trace; simpl.
  - reflexivity.
  - rewrite IH, <- app_assoc. reflexivity.
Qed.

Lemma allTrue_false_in (bs : list bool) : In false bs -> allTrue bs = false.
Proof.
  induction bs as [|b rest IH]; intro Hin; simpl in *.
  - contradiction.
  - destruct Hin as [Hb | Hin].
    + subst b. reflexivity.
    + rewrite (IH Hin). apply andb_false_r.
Qed.

(** C2 (as the code has it).  For a requestable target and a defined
    current state, [setDriveStateViaSdo] reads the statusword and then
    issues every controlword write of the standard chain from the current
    state to the target, in order, whether or not an earlier write
    failed.  It answers the conjunction of the read result and of all the
    write results, hence [false] as soon as one write failed. *)
Theorem setDriveStateViaSdo_issues_whole_chain (driveState : DriveState.t) (e : Elmo) :
  requestable driveState = true ->
  defined (getDriveState
             (snd (sdoReadAnswer (trace_ e) OdIndex.OD_INDEX_STATUSWORD 0 false)))
  = true ->
  let chain :=
    standardChain 6 driveState
      (getDriveState
         (snd (sdoReadAnswer (trace_ e) OdIndex.OD_INDEX_STATUSWORD 0 false))) in
  let started := SdoRead OdIndex.OD_INDEX_STATUSWORD 0 false :: trace_ e in
  trace_ (snd (setDriveStateViaSdo driveState e))
  = rev (map transitionWrite chain) ++ started
  /\ fst (setDriveStateViaSdo driveState e)
     = fst (sdoReadAnswer (trace_ e) OdIndex.OD_INDEX_STATUSWORD 0 false)
       && allTrue (outcomes chain started)
  /\ (In false (outcomes chain started) ->
      fst (setDriveStateViaSdo driveState e) = false).
Proof.
  intros Hreq Hdef chain started.
  assert (Hrun : setDriveStateViaSdo driveState e
                 = (fst (sdoReadAnswer (trace_ e) OdIndex.OD_INDEX_STATUSWORD 0 false)
                    && allTrue (outcomes chain started),
                    set_trace_ (issued chain started) e)).
  { subst chain started.
    unfold setDriveStateViaSdo, getStatuswordViaSdo, sendSdoRead, emit, bind, get,
      modify, ret. cbn [fst snd].
    destruct driveState; try discriminate Hreq;
      destruct (getDriveState
                  (snd (sdoReadAnswer (trace_ e) OdIndex.OD_INDEX_STATUSWORD 0 false)));
      try discriminate Hdef;
      try rewrite transitionsViaSdo_run; cbn [trace_ set_trace_];
      rewrite ?andb_true_r; reflexivity. }
  rewrite Hrun. cbn [fst snd trace_ set_trace_]. rewrite issued_app.
  split; [reflexivity|]. split; [reflexivity|].
  intro Hin. rewrite (allTrue_false_in _ Hin). apply andb_false_r.
Qed.

(** * Further properties of the driver *)

(** ** The write half in a regular cycle *)

Lemma clockOnly_refl e : clockOnly e e.
Proof. split; [exists []; split; reflexivity | repeat split]. Qed.

Lemma clockOnly_trans a b c : clockOnly a b -> clockOnly b c -> clockOnly a c.
Proof.
  intros [(n1 & H1 & F1) (A1 & B1 & C1)] [(n2 & H2 & F2) (A2 & B2 & C2)].
  split; [ | repeat split; congruence ].
  exists (n2 ++ n1). split.
  - rewrite H2, H1. apply app_assoc.
  - rewrite forallb_app, F1, F2. reflexivity.
Qed.

Ltac clock_only :=
  stepwise_split clockOnly_refl clockOnly_trans;
  try (split; [exists []; split; reflexivity | repeat split]).

Lemma clockOnly_steady_clock_now : stepwise clockOnly steady_clock_now.
Proof.
  unfold steady_clock_now, emit. clock_only.
  split; [exists [SteadyClockNow]; split; reflexivity | repeat split].
Qed.

Lemma clockOnly_getNextStateTransitionControlword req cur :
  stepwise clockOnly (getNextStateTransitionControlword req cur).
Proof. unfold getNextStateTransitionControlword, addErrorToReading. clock_only. Qed.

Lemma clockOnly_engagePdoStateMachine : stepwise clockOnly engagePdoStateMachine.
Proof.
  unfold engagePdoStateMachine.
  repeat first
    [ apply clockOnly_steady_clock_now
    | apply clockOnly_getNextStateTransitionControlword
    | progress clock_only ].
Qed.

Lemma writeRxPdo_effect (e : Elmo) :
  if rxImplemented (currentRxPdoTypeEnum_ e)
  then exists frame,
         snd (writeRxPdo e) = set_trace_ (frame :: trace_ e) e
         /\ isWriteRxPdo frame = true
         /\ frameControlWord frame = Some (getRawControlword (controlword_ e))
         /\ frameModeOfOperation frame
            = Some (modeOfOperationInt8 (modeOfOperation_ e))
         /\ frameTargetTorque frame = Some (getTargetTorqueRaw (stagedCommand_ e))
  else snd (writeRxPdo e)
       = set_reading_ (addError ErrorType.RxPdoTypeError (reading_ e)) e.
Proof.
  unfold writeRxPdo, bind, get. cbn [fst snd].
  destruct (currentRxPdoTypeEnum_ e); cbn [rxImplemented]; try reflexivity;
    eexists; repeat split.
Qed.

(** X1. The write half never uses the mailbox and hands at most one
    record to the bus: everything it logs is clock readings of the engine
    followed by at most one outbound record, and there is a record exactly
    when a mode of operation is set and the current rx type is one of the
    two implemented ones. *)
Theorem updateWrite_logs_one_record_at_most (e : Elmo) :
  exists clocks frames,
    trace_ (snd (updateWrite e)) = frames ++ clocks ++ trace_ e
    /\ forallb isSteadyClockNow clocks = true
    /\ forallb isWriteRxPdo frames = true
    /\ length frames
       = (if negb (ModeOfOperationEnum.isNA (modeOfOperation_ e))
             && rxImplemented (currentRxPdoTypeEnum_ e)
          then 1 else 0)%nat.
Proof.
  rewrite updateWrite_engages. unfold engages.
  destruct (ModeOfOperationEnum.isNA (modeOfOperation_ e)) eqn:Hmode; cbn [negb andb].
  - exists [], []. unfold updateWriteIdle, bind, get. cbn [fst snd]. rewrite Hmode.
    repeat split.
  - destruct (conductStateChange_ e && hasRead_ e).
    + unfold updateWriteEngaged, bind.
      destruct (clockOnly_engagePdoStateMachine e) as [(clocks & Ht & Hc) (Hrx & _)].
      destruct (engagePdoStateMachine e) as [u e1]. cbn [snd] in *.
      pose proof (writeRxPdo_effect e1) as Hw. rewrite Hrx in Hw.
      destruct (rxImplemented (currentRxPdoTypeEnum_ e)).
      * destruct Hw as (frame & Heq & Hf & _). rewrite Heq.
        exists clocks, [frame]. cbn [trace_ set_trace_ forallb length app].
        rewrite Ht, Hf. repeat split. exact Hc.
      * rewrite Hw. exists clocks, []. cbn [trace_ set_reading_ app].
        rewrite Ht. repeat split. exact Hc.
    + unfold updateWriteIdle, bind, get. cbn [fst snd]. rewrite Hmode.
      pose proof (writeRxPdo_effect e) as Hw.
      destruct (rxImplemented (currentRxPdoTypeEnum_ e)).
      * destruct Hw as (frame & Heq & Hf & _). rewrite Heq.
        exists [], [frame]. cbn [trace_ set_trace_ forallb length app].
        rewrite Hf. repeat split.
      * rewrite Hw. exists [], []. repeat split.
Qed.

(** ** The engine's dwell time *)

Lemma getNextStateTransitionControlword_value req cur (e : Elmo) :
  requestable req = true -> defined cur = true -> req <> cur ->
  exists t,
    standardTransition req cur = Some t
    /\ fst (getNextStateTransitionControlword req cur e)
       = setStateTransition t (setAllFalse newControlword).
Proof.
  intros Hreq Hdef Hne.
  destruct req; try discriminate Hreq; destruct cur; try discriminate Hdef;
    try congruence; eexists; split; reflexivity.
Qed.

Lemma engagePdoStateMachine_effect (e : Elmo) :
  if DriveState.eqb (Reading_getDriveState (reading_ e)) (targetDriveState_ e)
     || negb (steadyClockAnswer (trace_ e) - driveStateChangeTimePoint_ e
              >? driveStateChangeMinTimeout (configuration_ e))
  then controlword_ (snd (engagePdoStateMachine e)) = controlword_ e
       /\ driveStateChangeTimePoint_ (snd (engagePdoStateMachine e))
          = driveStateChangeTimePoint_ e
       /\ reading_ (snd (engagePdoStateMachine e)) = reading_ e
       /\ trace_ (snd (engagePdoStateMachine e)) = SteadyClockNow :: trace_ e
  else controlword_ (snd (engagePdoStateMachine e))
       = fst (getNextStateTransitionControlword (targetDriveState_ e)
                (Reading_getDriveState (reading_ e))
                (set_trace_ (SteadyClockNow :: trace_ e) e))
       /\ driveStateChangeTimePoint_ (snd (engagePdoStateMachine e))
          = steadyClockAnswer (SteadyClockNow :: trace_ e)
       /\ hasRead_ (snd (engagePdoStateMachine e)) = false
       /\ trace_ (snd (engagePdoStateMachine e))
          = SteadyClockNow :: SteadyClockNow :: trace_ e.
Proof.
  unfold engagePdoStateMachine, steady_clock_now, bind, get, emit, modify, ret, when.
  simpl.
  destruct (DriveState.eqb (Reading_getDriveState (reading_ e)) (targetDriveState_ e));
    simpl.
  - destruct (numberOfSuccessfulTargetStateReadings_ e + 1
              >=? minNumberOfSuccessfulTargetStateReadings (configuration_ e));
      simpl; repeat split.
  - destruct (steadyClockAnswer (trace_ e) - driveStateChangeTimePoint_ e
              >? driveStateChangeMinTimeout (configuration_ e)); simpl.
    + destruct (getNextStateTransitionControlword_touches_reading_only
                  (targetDriveState_ e) (Reading_getDriveState (reading_ e))
                  (set_trace_ (SteadyClockNow :: trace_ e) e)) as [r Hr].
      destruct (getNextStateTransitionControlword (targetDriveState_ e)
                  (Reading_getDriveState (reading_ e))
                  (set_trace_ (SteadyClockNow :: trace_ e) e)) as [cw e1].
      simpl in *. subst e1. repeat split.
    + repeat split.
Qed.

(** X2. The engine leaves the controlword, the dwell time point and the
    reading as they are, reading the clock once, unless the reading
    differs from the target and more than the configured minimum dwell
    time has passed since the last change; only then does it store the
    controlword of the lookup, read the clock a second time and restart
    the dwell timer.  On a reading equal to the target it never issues a
    new controlword.  It clears [hasRead_] on every path but the one that
    declares success, which leaves the flag as it is. *)
Theorem engagePdoStateMachine_dwell (e : Elmo) :
  if DriveState.eqb (Reading_getDriveState (reading_ e)) (targetDriveState_ e)
     || negb (steadyClockAnswer (trace_ e) - driveStateChangeTimePoint_ e
              >? driveStateChangeMinTimeout (configuration_ e))
  then controlword_ (snd (engagePdoStateMachine e)) = controlword_ e
       /\ driveStateChangeTimePoint_ (snd (engagePdoStateMachine e))
          = driveStateChangeTimePoint_ e
       /\ reading_ (snd (engagePdoStateMachine e)) = reading_ e
       /\ trace_ (snd (engagePdoStateMachine e)) = SteadyClockNow :: trace_ e
       /\ hasRead_ (snd (engagePdoStateMachine e))
          = (if declaresSuccess e then hasRead_ e else false)
  else controlword_ (snd (engagePdoStateMachine e))
       = fst (getNextStateTransitionControlword (targetDriveState_ e)
                (Reading_getDriveState (reading_ e))
                (set_trace_ (SteadyClockNow :: trace_ e) e))
       /\ driveStateChangeTimePoint_ (snd (engagePdoStateMachine e))
          = steadyClockAnswer (SteadyClockNow :: trace_ e)
       /\ hasRead_ (snd (engagePdoStateMachine e)) = false
       /\ declaresSuccess e = false
       /\ trace_ (snd (engagePdoStateMachine e))
          = SteadyClockNow :: SteadyClockNow :: trace_ e.
Proof.
  pose proof (engagePdoStateMachine_effect e) as Heffect.
  pose proof (engagePdoStateMachine_gate e) as Hgate.
  destruct (DriveState.eqb (Reading_getDriveState (reading_ e)) (targetDriveState_ e))
    eqn:Hmatch; cbn [orb] in *.
  - destruct Heffect as (Hcw & Htime & Hreading & Htrace).
    repeat split; try assumption.
    destruct (declaresSuccess e); [exact (proj1 Hgate) | exact Hgate].
  - assert (Hno : declaresSuccess e = false).
    { unfold declaresSuccess. rewrite Hmatch. reflexivity. }
    rewrite Hno in *.
    destruct (negb (steadyClockAnswer (trace_ e) - driveStateChangeTimePoint_ e
                    >? driveStateChangeMinTimeout (configuration_ e))).
    + destruct Heffect as (Hcw & Htime & Hreading & Htrace).
      repeat split; assumption.
    + destruct Heffect as (Hcw & Htime & Hread & Htrace).
      repeat split; assumption.
Qed.

(** X3. In a cycle where a mode is set, a request is pending on a fresh
    reading, the decoded state is one of the six defined states and
    differs from the requestable target, and the dwell time has passed,
    the write half stores the controlword of the standard transition for
    the pair and sends that very controlword in the record of the same
    cycle; it also clears [hasRead_] and restarts the dwell timer. *)
Theorem updateWrite_sends_selected_transition (e : Elmo) :
  ModeOfOperationEnum.isNA (modeOfOperation_ e) = false ->
  conductStateChange_ e = true ->
  hasRead_ e = true ->
  rxImplemented (currentRxPdoTypeEnum_ e) = true ->
  requestable (targetDriveState_ e) = true ->
  defined (Reading_getDriveState (reading_ e)) = true ->
  targetDriveState_ e <> Reading_getDriveState (reading_ e) ->
  driveStateChangeMinTimeout (configuration_ e)
  < steadyClockAnswer (trace_ e) - driveStateChangeTimePoint_ e ->
  exists t frame,
    standardTransition (targetDriveState_ e) (Reading_getDriveState (reading_ e))
    = Some t
    /\ controlword_ (snd (updateWrite e))
       = setStateTransition t (setAllFalse newControlword)
    /\ trace_ (snd (updateWrite e))
       = frame :: SteadyClockNow :: SteadyClockNow :: trace_ e
    /\ frameControlWord frame
       = Some (getRawControlword (setStateTransition t (setAllFalse newControlword)))
    /\ hasRead_ (snd (updateWrite e)) = false
    /\ driveStateChangeTimePoint_ (snd (updateWrite e))
       = steadyClockAnswer (SteadyClockNow :: trace_ e).
Proof.
  intros Hmode Hconduct Hread Hrx Hreq Hdef Hne Hlate.
  rewrite updateWrite_engages. unfold engages. rewrite Hmode, Hconduct, Hread.
  cbn [negb andb]. unfold updateWriteEngaged, bind.
  pose proof (engagePdoStateMachine_effect e) as Heng.
  assert (Hmis : DriveState.eqb (Reading_getDriveState (reading_ e))
                   (targetDriveState_ e) = false).
  { destruct (Reading_getDriveState (reading_ e)), (targetDriveState_ e);
      try reflexivity; congruence. }
  apply Z.gtb_lt in Hlate. rewrite Hmis, Hlate in Heng. cbn [orb negb] in Heng.
  destruct Heng as (Hcw & Htp & Hhr & Htr).
  destruct (clockOnly_engagePdoStateMachine e) as [_ (Hrx1 & _)].
  destruct (engagePdoStateMachine e) as [u e1]. cbn [snd] in *.
  pose proof (writeRxPdo_effect e1) as Hw. rewrite Hrx1, Hrx in Hw.
  destruct Hw as (frame & Heq & _ & Hfcw & _). rewrite Heq.
  destruct (getNextStateTransitionControlword_value _ _
              (set_trace_ (SteadyClockNow :: trace_ e) e) Hreq Hdef Hne)
    as (t & Hstd & Hval).
  exists t, frame.
  cbn [controlword_ trace_ hasRead_ driveStateChangeTimePoint_ set_trace_].
  rewrite Hfcw, Hcw, Hval, Htr.
  repeat split; assumption.
Qed.

(** ** Repeating the write half *)

Lemma writeRxPdo_frame (e : Elmo) :
  rxImplemented (currentRxPdoTypeEnum_ e) = true ->
  exists frame,
    isWriteRxPdo frame = true
    /\ forall t, snd (writeRxPdo (set_trace_ t e)) = set_trace_ (frame :: t) e.
Proof.
  intro Hrx. unfold writeRxPdo, bind, get. cbn [fst snd].
  cbn [currentRxPdoTypeEnum_ stagedCommand_ modeOfOperation_ controlword_ set_trace_].
  destruct (currentRxPdoTypeEnum_ e); try discriminate Hrx;
    (eexists; split; cycle 1; [intro t; reflexivity | reflexivity]).
Qed.

Lemma set_trace_same (e : Elmo) : set_trace_ (trace_ e) e = e.
Proof. destruct e; reflexivity. Qed.

Lemma updateWrite_idle (e : Elmo) :
  ModeOfOperationEnum.isNA (modeOfOperation_ e) = false ->
  conductStateChange_ e && hasRead_ e = false ->
  updateWrite e = writeRxPdo e.
Proof.
  intros Hmode Hgate. unfold updateWrite, bind, get, when. cbn [fst snd].
  rewrite Hmode, Hgate. reflexivity.
Qed.

(** X4. With a mode set, an implemented rx type and the engine at rest,
    two write halves in a row hand the bus the same record twice and
    change nothing else. *)
Theorem updateWrite_idle_repeats (e : Elmo) :
  ModeOfOperationEnum.isNA (modeOfOperation_ e) = false ->
  conductStateChange_ e && hasRead_ e = false ->
  rxImplemented (currentRxPdoTypeEnum_ e) = true ->
  exists frame,
    isWriteRxPdo frame = true
    /\ snd (updateWrite (snd (updateWrite e)))
       = set_trace_ (frame :: frame :: trace_ e) e.
Proof.
  intros Hmode Hgate Hrx.
  destruct (writeRxPdo_frame e Hrx) as (frame & Hframe & Hwrite).
  exists frame. split; [exact Hframe|].
  rewrite (updateWrite_idle e Hmode Hgate).
  rewrite <- (set_trace_same e) at 1. rewrite Hwrite.
  rewrite updateWrite_idle; [apply Hwrite | exact Hmode | exact Hgate].
Qed.

(** ** Accepting a record type *)

Lemma configureRxPdo_eval (rx : RxPdoTypeEnum.t) (e : Elmo) :
  configureRxPdo rx e
  = if RxPdoTypeEnum.eqb rx RxPdoTypeEnum.NA
    then (false, set_reading_ (addError ErrorType.RxPdoTypeError (reading_ e)) e)
    else (true, if RxPdoTypeEnum.eqb rx (currentRxPdoTypeEnum_ e) then e
                else set_currentRxPdoTypeEnum_ rx e).
Proof.
  unfold configureRxPdo, getCurrentRxPdoTypeEnum, addErrorToReading, bind, get,
    modify, ret.
  destruct (RxPdoTypeEnum.eqb rx RxPdoTypeEnum.NA); [reflexivity|]. cbn [fst snd].
  destruct (RxPdoTypeEnum.eqb rx (currentRxPdoTypeEnum_ e)); reflexivity.
Qed.

Lemma configureTxPdo_eval (tx : TxPdoTypeEnum.t) (e : Elmo) :
  configureTxPdo tx e
  = if TxPdoTypeEnum.eqb tx TxPdoTypeEnum.NA
    then (false, set_reading_ (addError ErrorType.RxPdoTypeError (reading_ e)) e)
    else (true, if TxPdoTypeEnum.eqb tx (currentTxPdoTypeEnum_ e) then e
                else set_currentTxPdoTypeEnum_ tx e).
Proof.
  unfold configureTxPdo, getCurrentTxPdoTypeEnum, addErrorToReading, bind, get,
    modify, ret.
  destruct (TxPdoTypeEnum.eqb tx TxPdoTypeEnum.NA); [reflexivity|]. cbn [fst snd].
  destruct (TxPdoTypeEnum.eqb tx (currentTxPdoTypeEnum_ e)); reflexivity.
Qed.

Lemma RxPdoTypeEnum_eqb_eq (a b : RxPdoTypeEnum.t) :
  RxPdoTypeEnum.eqb a b = true <-> a = b.
Proof. destruct a, b; split; intro H; try reflexivity; discriminate H. Qed.

Lemma TxPdoTypeEnum_eqb_eq (a b : TxPdoTypeEnum.t) :
  TxPdoTypeEnum.eqb a b = true <-> a = b.
Proof. destruct a, b; split; intro H; try reflexivity; discriminate H. Qed.

Lemma configureRxPdo_set (rx : RxPdoTypeEnum.t) (e : Elmo) :
  rx <> RxPdoTypeEnum.NA ->
  fst (configureRxPdo rx e) = true
  /\ currentRxPdoTypeEnum_ (snd (configureRxPdo rx e)) = rx
  /\ currentTxPdoTypeEnum_ (snd (configureRxPdo rx e)) = currentTxPdoTypeEnum_ e
  /\ reading_ (snd (configureRxPdo rx e)) = reading_ e
  /\ trace_ (snd (configureRxPdo rx e)) = trace_ e
  /\ txPdoTypeEnum_ (snd (configureRxPdo rx e)) = txPdoTypeEnum_ e.
Proof.
  intro Hset. rewrite configureRxPdo_eval.
  destruct (RxPdoTypeEnum.eqb rx RxPdoTypeEnum.NA) eqn:Hna.
  - apply RxPdoTypeEnum_eqb_eq in Hna. contradiction.
  - cbn [fst snd].
    destruct (RxPdoTypeEnum.eqb rx (currentRxPdoTypeEnum_ e)) eqn:Hcur.
    + apply RxPdoTypeEnum_eqb_eq in Hcur. repeat split. symmetry. exact Hcur.
    + repeat split.
Qed.

Lemma configureTxPdo_set (tx : TxPdoTypeEnum.t) (e : Elmo) :
  tx <> TxPdoTypeEnum.NA ->
  fst (configureTxPdo tx e) = true
  /\ currentTxPdoTypeEnum_ (snd (configureTxPdo tx e)) = tx
  /\ currentRxPdoTypeEnum_ (snd (configureTxPdo tx e)) = currentRxPdoTypeEnum_ e
  /\ reading_ (snd (configureTxPdo tx e)) = reading_ e
  /\ trace_ (snd (configureTxPdo tx e)) = trace_ e.
Proof.
  intro Hset. rewrite configureTxPdo_eval.
  destruct (TxPdoTypeEnum.eqb tx TxPdoTypeEnum.NA) eqn:Hna.
  - apply TxPdoTypeEnum_eqb_eq in Hna. contradiction.
  - cbn [fst snd].
    destruct (TxPdoTypeEnum.eqb tx (currentTxPdoTypeEnum_ e)) eqn:Hcur.
    + apply TxPdoTypeEnum_eqb_eq in Hcur. repeat split. symmetry. exact Hcur.
    + repeat split.
Qed.

Lemma configureRxPdo_again (rx : RxPdoTypeEnum.t) (e : Elmo) :
  rx <> RxPdoTypeEnum.NA -> currentRxPdoTypeEnum_ e = rx ->
  configureRxPdo rx e = (true, e).
Proof.
  intros Hset Hcur. rewrite configureRxPdo_eval, Hcur.
  destruct (RxPdoTypeEnum.eqb rx RxPdoTypeEnum.NA) eqn:Hna.
  - apply RxPdoTypeEnum_eqb_eq in Hna. contradiction.
  - rewrite (proj2 (RxPdoTypeEnum_eqb_eq rx rx) eq_refl). reflexivity.
Qed.

Lemma configureTxPdo_again (tx : TxPdoTypeEnum.t) (e : Elmo) :
  tx <> TxPdoTypeEnum.NA -> currentTxPdoTypeEnum_ e = tx ->
  configureTxPdo tx e = (true, e).
Proof.
  intros Hset Hcur. rewrite configureTxPdo_eval, Hcur.
  destruct (TxPdoTypeEnum.eqb tx TxPdoTypeEnum.NA) eqn:Hna.
  - apply TxPdoTypeEnum_eqb_eq in Hna. contradiction.
  - rewrite (proj2 (TxPdoTypeEnum_eqb_eq tx tx) eq_refl). reflexivity.
Qed.

(** X5. [configureRxPdo] and [configureTxPdo] accept every value other
    than [NA], also one the cyclic halves have no case for: they answer
    [true], store the value as the current type, leave the reading and
    the log alone, and a second call with the same value changes
    nothing. *)
Theorem configurePdo_accepts_any_set_type (rx : RxPdoTypeEnum.t) (tx : TxPdoTypeEnum.t)
  (e : Elmo) :
  (rx <> RxPdoTypeEnum.NA ->
   fst (configureRxPdo rx e) = true
   /\ currentRxPdoTypeEnum_ (snd (configureRxPdo rx e)) = rx
   /\ reading_ (snd (configureRxPdo rx e)) = reading_ e
   /\ trace_ (snd (configureRxPdo rx e)) = trace_ e
   /\ configureRxPdo rx (snd (configureRxPdo rx e)) = (true, snd (configureRxPdo rx e)))
  /\
  (tx <> TxPdoTypeEnum.NA ->
   fst (configureTxPdo tx e) = true
   /\ currentTxPdoTypeEnum_ (snd (configureTxPdo tx e)) = tx
   /\ reading_ (snd (configureTxPdo tx e)) = reading_ e
   /\ trace_ (snd (configureTxPdo tx e)) = trace_ e
   /\ configureTxPdo tx (snd (configureTxPdo tx e)) = (true, snd (configureTxPdo tx e))).
Proof.
  split; intro Hset.
  - destruct (configureRxPdo_set rx e Hset) as (H1 & H2 & _ & H3 & H4 & _).
    repeat split; try assumption.
    rewrite (configureRxPdo_again rx _ Hset H2). reflexivity.
  - destruct (configureTxPdo_set tx e Hset) as (H1 & H2 & _ & H3 & H4).
    repeat split; try assumption.
    rewrite (configureTxPdo_again tx _ Hset H2). reflexivity.
Qed.

(** ** Start-up *)

(** X6. [startup] answers [true] exactly when neither of the two stored
    record types is [NA], and then both have become the current types.
    Its conjunction short-circuits: when the rx type is [NA] the tx type
    is not looked at, the current tx type stays and exactly one error is
    recorded.  In no case does it touch the bus. *)
Theorem startup_short_circuits (e : Elmo) :
  fst (startup e)
  = negb (RxPdoTypeEnum.eqb (rxPdoTypeEnum_ e) RxPdoTypeEnum.NA)
    && negb (TxPdoTypeEnum.eqb (txPdoTypeEnum_ e) TxPdoTypeEnum.NA)
  /\ trace_ (snd (startup e)) = trace_ e
  /\ (fst (startup e) = true ->
      currentRxPdoTypeEnum_ (snd (startup e)) = rxPdoTypeEnum_ e
      /\ currentTxPdoTypeEnum_ (snd (startup e)) = txPdoTypeEnum_ e
      /\ reading_ (snd (startup e)) = reading_ e)
  /\ (rxPdoTypeEnum_ e = RxPdoTypeEnum.NA ->
      currentTxPdoTypeEnum_ (snd (startup e)) = currentTxPdoTypeEnum_ e
      /\ errors (reading_ (snd (startup e)))
         = ErrorType.RxPdoTypeError :: errors (reading_ e)).
Proof.
  unfold startup, bind, get. cbn [fst snd].
  destruct (RxPdoTypeEnum.eqb (rxPdoTypeEnum_ e) RxPdoTypeEnum.NA) eqn:Hrx.
  - rewrite configureRxPdo_eval, Hrx. cbn [fst snd negb andb].
    repeat (split || intro); try discriminate; reflexivity.
  - assert (Hrxset : rxPdoTypeEnum_ e <> RxPdoTypeEnum.NA).
    { intro H. apply RxPdoTypeEnum_eqb_eq in H. congruence. }
    destruct (configureRxPdo_set _ e Hrxset) as (R1 & R2 & R3 & R4 & R5 & R6).
    destruct (configureRxPdo (rxPdoTypeEnum_ e) e) as [ok e1]. cbn [fst snd] in *.
    subst ok. cbn [negb andb]. rewrite R6.
    destruct (TxPdoTypeEnum.eqb (txPdoTypeEnum_ e) TxPdoTypeEnum.NA) eqn:Htx.
    + rewrite configureTxPdo_eval, Htx. cbn [fst snd].
      repeat (split || intro); try discriminate; try assumption; congruence.
    + assert (Htxset : txPdoTypeEnum_ e <> TxPdoTypeEnum.NA).
      { intro H. apply TxPdoTypeEnum_eqb_eq in H. congruence. }
      destruct (configureTxPdo_set _ e1 Htxset) as (T1 & T2 & T3 & T4 & T5).
      repeat (split || intro); try congruence. exact T1.
Qed.

(** ** PDO mapping *)

Lemma sameTypes_refl e : sameTypes e e.
Proof. split; reflexivity. Qed.

Lemma sameTypes_trans a b c : sameTypes a b -> sameTypes b c -> sameTypes a c.
Proof. intros [H1 H2] [H3 H4]. split; congruence. Qed.

Ltac same_types :=
  stepwise_split sameTypes_refl sameTypes_trans; try (split; reflexivity).

Lemma mapRxPdo_sameTypes rx : stepwise sameTypes (mapRxPdo rx).
Proof.
  unfold mapRxPdo, sdoVerifyWrite, sendSdoWrite, sendSdoRead, usleep,
    addErrorToReading, emit.
  same_types.
Qed.

Lemma mapTxPdo_sameTypes tx : stepwise sameTypes (mapTxPdo tx).
Proof.
  unfold mapTxPdo, sdoVerifyWrite, sendSdoWrite, sendSdoRead, usleep,
    addErrorToReading, emit.
  same_types.
Qed.

Lemma mapPdos_parts (rx : RxPdoTypeEnum.t) (tx : TxPdoTypeEnum.t) (e : Elmo) :
  mapPdos rx tx e
  = (fst (if fst (mapTxPdo tx (snd (mapRxPdo rx e)))
          then configureTxPdo tx
                 (snd (if fst (mapRxPdo rx e)
                       then configureRxPdo rx (snd (mapTxPdo tx (snd (mapRxPdo rx e))))
                       else (false, snd (mapTxPdo tx (snd (mapRxPdo rx e))))))
          else (false,
                snd (if fst (mapRxPdo rx e)
                     then configureRxPdo rx (snd (mapTxPdo tx (snd (mapRxPdo rx e))))
                     else (false, snd (mapTxPdo tx (snd (mapRxPdo rx e)))))))
     && fst (if fst (mapRxPdo rx e)
             then configureRxPdo rx (snd (mapTxPdo tx (snd (mapRxPdo rx e))))
             else (false, snd (mapTxPdo tx (snd (mapRxPdo rx e))))),
     snd (if fst (mapTxPdo tx (snd (mapRxPdo rx e)))
          then configureTxPdo tx
                 (snd (if fst (mapRxPdo rx e)
                       then configureRxPdo rx (snd (mapTxPdo tx (snd (mapRxPdo rx e))))
                       else (false, snd (mapTxPdo tx (snd (mapRxPdo rx e))))))
          else (false,
                snd (if fst (mapRxPdo rx e)
                     then configureRxPdo rx (snd (mapTxPdo tx (snd (mapRxPdo rx e))))
                     else (false, snd (mapTxPdo tx (snd (mapRxPdo rx e)))))))).
Proof.
  unfold mapPdos, andAssign, bind, ret.
  destruct (mapRxPdo rx e) as [rxSuccess e1]. cbn [fst snd].
  destruct (mapTxPdo tx e1) as [txSuccess e2]. cbn [fst snd].
  destruct rxSuccess; cbn [fst snd].
  - destruct (configureRxPdo rx e2) as [b3 e3]. cbn [fst snd andb].
    destruct txSuccess; cbn [fst snd].
    + destruct (configureTxPdo tx e3) as [b4 e4]. reflexivity.
    + reflexivity.
  - destruct txSuccess; cbn [fst snd].
    + destruct (configureTxPdo tx e2) as [b4 e4]. reflexivity.
    + reflexivity.
Qed.

Lemma mapRxPdo_true_implemented rx (e : Elmo) :
  fst (mapRxPdo rx e) = true -> rxImplemented rx = true.
Proof.
  destruct rx; intro H; try reflexivity;
    rewrite mapRxPdo_unset in H by auto; discriminate H.
Qed.

Lemma mapTxPdo_true_implemented tx (e : Elmo) :
  fst (mapTxPdo tx e) = true -> txImplemented tx = true.
Proof.
  destruct tx; intro H; try reflexivity;
    rewrite mapTxPdo_unset in H by auto; discriminate H.
Qed.

Lemma configureRxPdo_keeps (rx : RxPdoTypeEnum.t) (e : Elmo) :
  currentTxPdoTypeEnum_ (snd (configureRxPdo rx e)) = currentTxPdoTypeEnum_ e
  /\ trace_ (snd (configureRxPdo rx e)) = trace_ e.
Proof.
  rewrite configureRxPdo_eval.
  destruct (RxPdoTypeEnum.eqb rx RxPdoTypeEnum.NA); cbn [snd]; [split; reflexivity|].
  destruct (RxPdoTypeEnum.eqb rx (currentRxPdoTypeEnum_ e)); split; reflexivity.
Qed.

Lemma configureTxPdo_keeps (tx : TxPdoTypeEnum.t) (e : Elmo) :
  currentRxPdoTypeEnum_ (snd (configureTxPdo tx e)) = currentRxPdoTypeEnum_ e
  /\ trace_ (snd (configureTxPdo tx e)) = trace_ e.
Proof.
  rewrite configureTxPdo_eval.
  destruct (TxPdoTypeEnum.eqb tx TxPdoTypeEnum.NA); cbn [snd]; [split; reflexivity|].
  destruct (TxPdoTypeEnum.eqb tx (currentTxPdoTypeEnum_ e)); split; reflexivity.
Qed.

Lemma rxImplemented_set rx : rxImplemented rx = true -> rx <> RxPdoTypeEnum.NA.
Proof. destruct rx; intros H; try discriminate H; discriminate. Qed.

Lemma txImplemented_set tx : txImplemented tx = true -> tx <> TxPdoTypeEnum.NA.
Proof. destruct tx; intros H; try discriminate H; discriminate. Qed.

(** X7. When [mapPdos] answers [true], both selections were implemented
    types and they have become the current rx and tx types.  When the
    mailbox writes of the rx side did not all verify, [mapPdos] answers
    [false] and the current rx type is the one from before the call. *)
Theorem mapPdos_success_sets_types (rx : RxPdoTypeEnum.t) (tx : TxPdoTypeEnum.t)
  (e : Elmo) :
  (fst (mapPdos rx tx e) = true ->
   rxImplemented rx = true /\ txImplemented tx = true
   /\ currentRxPdoTypeEnum_ (snd (mapPdos rx tx e)) = rx
   /\ currentTxPdoTypeEnum_ (snd (mapPdos rx tx e)) = tx)
  /\
  (fst (mapRxPdo rx e) = false ->
   fst (mapPdos rx tx e) = false
   /\ currentRxPdoTypeEnum_ (snd (mapPdos rx tx e)) = currentRxPdoTypeEnum_ e).
Proof.
  rewrite mapPdos_parts. cbn [fst snd].
  pose proof (mapRxPdo_sameTypes rx e) as [S1 _].
  pose proof (mapTxPdo_sameTypes tx (snd (mapRxPdo rx e))) as [S2 _].
  set (e2 := snd (mapTxPdo tx (snd (mapRxPdo rx e)))) in *.
  split.
  - intro Hok. apply andb_prop in Hok. destruct Hok as [Htx Hrx].
    destruct (fst (mapRxPdo rx e)) eqn:H1; [ | discriminate Hrx ].
    pose proof (mapRxPdo_true_implemented rx e H1) as Irx.
    destruct (configureRxPdo_set rx e2 (rxImplemented_set rx Irx))
      as (_ & R2 & _).
    destruct (fst (mapTxPdo tx (snd (mapRxPdo rx e)))) eqn:H2; [ | discriminate Htx ].
    pose proof (mapTxPdo_true_implemented tx _ H2) as Itx.
    destruct (configureTxPdo_set tx (snd (configureRxPdo rx e2))
                (txImplemented_set tx Itx)) as (_ & T2 & T3 & _).
    repeat split; try assumption. congruence.
  - intro H1. rewrite H1. split; [apply andb_false_r|].
    destruct (fst (mapTxPdo tx (snd (mapRxPdo rx e)))); cbn [snd].
    + destruct (configureTxPdo_keeps tx e2) as [K _]. congruence.
    + congruence.
Qed.

Lemma writesOn_quiet (i : OdIndex.t) (new t : list Event) :
  forallb (fun ev => negb (isMailboxOn i ev)) new = true ->
  writesOn i (new ++ t) = writesOn i t.
Proof.
  induction new as [|ev rest IH]; intro Hq; simpl in *.
  - reflexivity.
  - apply andb_prop in Hq. destruct Hq as [Hev Hrest].
    destruct ev; simpl in Hev; try (apply IH; exact Hrest).
    destruct (OdIndex.eqb i index); [discriminate Hev | apply IH; exact Hrest].
Qed.

Lemma mapRxPdo_writes rx (e : Elmo) :
  rxImplemented rx = true ->
  exists objects,
    writesOn OdIndex.OD_INDEX_RX_PDO_ASSIGNMENT (trace_ (snd (mapRxPdo rx e)))
    = rev (assignmentSequence objects)
      ++ writesOn OdIndex.OD_INDEX_RX_PDO_ASSIGNMENT (trace_ e).
Proof.
  destruct rx; intro H; try discriminate H.
  - exists [0x1605; 0x1618]. reflexivity.
  - exists [0x1602; 0x160b]. reflexivity.
Qed.

Lemma mapTxPdo_writes tx (e : Elmo) :
  txImplemented tx = true ->
  exists objects,
    writesOn OdIndex.OD_INDEX_TX_PDO_ASSIGNMENT (trace_ (snd (mapTxPdo tx e)))
    = rev (assignmentSequence objects)
      ++ writesOn OdIndex.OD_INDEX_TX_PDO_ASSIGNMENT (trace_ e).
Proof.
  destruct tx; intro H; try discriminate H.
  - exists [0x1a03; 0x1a1d; 0x1a1f; 0x1a18]. reflexivity.
  - exists [0x1a02; 0x1a11]. reflexivity.
Qed.

(** X8. For each side whose selection is an implemented type, the mailbox
    writes [mapPdos] makes on that side's assignment entry are, in order:
    the count at sub-index 0 set to zero, one object per sub-index
    1, 2, ..., and last the count set to the number of objects written.
    The other side's traffic never touches the entry. *)
Theorem mapPdos_assignment_sequence (rx : RxPdoTypeEnum.t) (tx : TxPdoTypeEnum.t)
  (e : Elmo) :
  (rxImplemented rx = true ->
   exists objects,
     writesOn OdIndex.OD_INDEX_RX_PDO_ASSIGNMENT (trace_ (snd (mapPdos rx tx e)))
     = rev (assignmentSequence objects)
       ++ writesOn OdIndex.OD_INDEX_RX_PDO_ASSIGNMENT (trace_ e))
  /\
  (txImplemented tx = true ->
   exists objects,
     writesOn OdIndex.OD_INDEX_TX_PDO_ASSIGNMENT (trace_ (snd (mapPdos rx tx e)))
     = rev (assignmentSequence objects)
       ++ writesOn OdIndex.OD_INDEX_TX_PDO_ASSIGNMENT (trace_ e)).
Proof.
  assert (Htrace : trace_ (snd (mapPdos rx tx e))
                   = trace_ (snd (mapTxPdo tx (snd (mapRxPdo rx e))))).
  { rewrite mapPdos_parts. cbn [snd].
    set (e2 := snd (mapTxPdo tx (snd (mapRxPdo rx e)))).
    assert (H3 : trace_ (snd (if fst (mapRxPdo rx e) then configureRxPdo rx e2
                              else (false, e2))) = trace_ e2).
    { destruct (fst (mapRxPdo rx e)); [apply configureRxPdo_keeps | reflexivity]. }
    destruct (fst (mapTxPdo tx (snd (mapRxPdo rx e)))); cbn [snd].
    - rewrite (proj2 (configureTxPdo_keeps tx _)). exact H3.
    - exact H3. }
  rewrite Htrace. split; intro Himpl.
  - destruct (mapTxPdo_quiet tx (snd (mapRxPdo rx e))) as [(new & Hnew & Hq) _].
    rewrite Hnew, (writesOn_quiet _ _ _ Hq). apply mapRxPdo_writes, Himpl.
  - destruct (mapTxPdo_writes tx (snd (mapRxPdo rx e)) Himpl) as (objects & Hw).
    exists objects. rewrite Hw.
    destruct (mapRxPdo_quiet rx e) as [(new & Hnew & Hq) _].
    rewrite Hnew, (writesOn_quiet _ _ _ Hq). reflexivity.
Qed.

(** ** Loading a configuration and staging a command *)

(** X9. [loadConfiguration] always answers [true], stores the
    configuration and takes its mode of operation.  After it, staging a
    command replaces the mode of operation by the command's mode exactly
    when the configuration allows several modes and selects the standard
    record on both sides; otherwise the configured mode stays, whatever
    the command asks for.  Neither call touches the bus or the gate of
    the engine. *)
Theorem stageCommand_after_loadConfiguration (configuration : Configuration)
  (command : Command) (e : Elmo) :
  fst (loadConfiguration configuration e) = true
  /\ configuration_ (snd (loadConfiguration configuration e)) = configuration
  /\ modeOfOperation_ (snd (loadConfiguration configuration e))
     = modeOfOperationEnum configuration
  /\ modeOfOperation_
       (snd (stageCommand command (snd (loadConfiguration configuration e))))
     = (if useMultipleModeOfOperations configuration
           && RxPdoTypeEnum.eqb (rxPdoTypeEnum configuration) RxPdoTypeEnum.RxPdoStandard
           && TxPdoTypeEnum.eqb (txPdoTypeEnum configuration) TxPdoTypeEnum.TxPdoStandard
        then getModeOfOperation command
        else modeOfOperationEnum configuration)
  /\ trace_ (snd (stageCommand command (snd (loadConfiguration configuration e))))
     = trace_ e.
Proof.
  unfold stageCommand, loadConfiguration, bind, get, modify, ret, when.
  simpl.
  destruct (useMultipleModeOfOperations configuration); simpl;
    destruct (RxPdoTypeEnum.eqb (rxPdoTypeEnum configuration)
                RxPdoTypeEnum.RxPdoStandard); simpl;
    destruct (TxPdoTypeEnum.eqb (txPdoTypeEnum configuration)
                TxPdoTypeEnum.TxPdoStandard); simpl;
    repeat split.
Qed.

(** ** Requests the blocking path turns down *)

(** X10. When the target is not one of the five requestable states, or the
    statusword read back decodes to no defined state, [setDriveStateViaSdo]
    answers [false] even if the read succeeded, records exactly one
    [SdoStateTransitionError] and writes no controlword: the statusword
    read is its only mailbox call. *)
Theorem setDriveStateViaSdo_turns_down (driveState : DriveState.t) (e : Elmo) :
  requestable driveState = false
  \/ defined (getDriveState
                (snd (sdoReadAnswer (trace_ e) OdIndex.OD_INDEX_STATUSWORD 0 false)))
     = false ->
  fst (setDriveStateViaSdo driveState e) = false
  /\ trace_ (snd (setDriveStateViaSdo driveState e))
     = SdoRead OdIndex.OD_INDEX_STATUSWORD 0 false :: trace_ e
  /\ errors (reading_ (snd (setDriveStateViaSdo driveState e)))
     = ErrorType.SdoStateTransitionError :: errors (reading_ e).
Proof.
  unfold setDriveStateViaSdo, getStatuswordViaSdo, sendSdoRead, emit, bind, get,
    modify, ret, transitionNotImplemented, addErrorToReading.
  cbn [fst snd].
  destruct driveState;
    destruct (getDriveState
                (snd (sdoReadAnswer (trace_ e) OdIndex.OD_INDEX_STATUSWORD 0 false)));
    intros [H | H]; try discriminate H; repeat split.
Qed.

(** ** Requests the lookup turns down *)

(** X11. For a requested state outside the five requestable ones (fault,
    not ready to switch on, unknown) [getNextStateTransitionControlword]
    returns the cleared controlword and records a
    [PdoStateTransitionError], whatever the current state. *)
Theorem getNextStateTransitionControlword_turns_down
  (requestedDriveState currentDriveState : DriveState.t) (e : Elmo) :
  requestable requestedDriveState = false ->
  getNextStateTransitionControlword requestedDriveState currentDriveState e
  = (setAllFalse newControlword,
     set_reading_ (addError ErrorType.PdoStateTransitionError (reading_ e)) e).
Proof.
  destruct requestedDriveState; intro H; try discriminate H; reflexivity.
Qed.

(** ** The two paths agree *)

Lemma setDriveStateViaSdo_run (driveState : DriveState.t) (e : Elmo) :
  requestable driveState = true ->
  defined (getDriveState
             (snd (sdoReadAnswer (trace_ e) OdIndex.OD_INDEX_STATUSWORD 0 false)))
  = true ->
  trace_ (snd (setDriveStateViaSdo driveState e))
  = issued (standardChain 6 driveState
              (getDriveState
                 (snd (sdoReadAnswer (trace_ e) OdIndex.OD_INDEX_STATUSWORD 0 false))))
      (SdoRead OdIndex.OD_INDEX_STATUSWORD 0 false :: trace_ e).
Proof.
  intros Hreq Hdef.
  unfold setDriveStateViaSdo, getStatuswordViaSdo, sendSdoRead, emit, bind, get,
    modify, ret. cbn [fst snd].
  destruct driveState; try discriminate Hreq;
    destruct (getDriveState
                (snd (sdoReadAnswer (trace_ e) OdIndex.OD_INDEX_STATUSWORD 0 false)));
    try discriminate Hdef;
    try rewrite transitionsViaSdo_run; reflexivity.
Qed.

(** X12. The blocking and the non-blocking path agree.  For a requestable
    target and a defined current state different from it, the first
    controlword [setDriveStateViaSdo] writes applies the setter of the
    same transition whose setter [getNextStateTransitionControlword]
    applies for the pair, and its remaining writes are the standard chain
    from the state that transition leads to in the state diagram. *)
Theorem setDriveStateViaSdo_follows_lookup (driveState : DriveState.t) (e : Elmo) :
  requestable driveState = true ->
  defined (getDriveState
             (snd (sdoReadAnswer (trace_ e) OdIndex.OD_INDEX_STATUSWORD 0 false)))
  = true ->
  driveState
  <> getDriveState (snd (sdoReadAnswer (trace_ e) OdIndex.OD_INDEX_STATUSWORD 0 false)) ->
  exists t,
    fst (getNextStateTransitionControlword driveState
           (getDriveState
              (snd (sdoReadAnswer (trace_ e) OdIndex.OD_INDEX_STATUSWORD 0 false))) e)
    = setStateTransition t (setAllFalse newControlword)
    /\ trace_ (snd (setDriveStateViaSdo driveState e))
       = rev (map transitionWrite (standardChain 5 driveState (transitionTarget t)))
         ++ transitionWrite t
         :: SdoRead OdIndex.OD_INDEX_STATUSWORD 0 false :: trace_ e.
Proof.
  intros Hreq Hdef Hne.
  destruct (getNextStateTransitionControlword_value _ _ e Hreq Hdef Hne)
    as (t & Hstd & Hval).
  exists t. split; [exact Hval|].
  rewrite (setDriveStateViaSdo_run _ _ Hreq Hdef).
  change (standardChain 6 driveState
            (getDriveState
               (snd (sdoReadAnswer (trace_ e) OdIndex.OD_INDEX_STATUSWORD 0 false))))
    with (match standardTransition driveState
                  (getDriveState
                     (snd (sdoReadAnswer (trace_ e) OdIndex.OD_INDEX_STATUSWORD 0 false)))
          with
          | Some t' => t' :: standardChain 5 driveState (transitionTarget t')
          | None => []
          end).
  rewrite Hstd. cbn [issued]. rewrite issued_app. reflexivity.
Qed.

(** ** What the configuration run writes *)

Lemma sameConfiguration_refl e : sameConfiguration e e.
Proof. reflexivity. Qed.

Lemma sameConfiguration_trans a b c :
  sameConfiguration a b -> sameConfiguration b c -> sameConfiguration a c.
Proof. unfold sameConfiguration. congruence. Qed.

Ltac same_configuration :=
  repeat (progress stepwise_split sameConfiguration_refl sameConfiguration_trans);
  try reflexivity.

Lemma transitionsViaSdo_sameConfiguration ts success :
  stepwise sameConfiguration (transitionsViaSdo success ts).
Proof.
  revert success. induction ts as [|t rest IH]; intro success; simpl.
  - same_configuration.
  - apply (stepwise_bind _ sameConfiguration_trans); [ | intro; apply IH ].
    unfold stateTransitionViaSdo, setControlwordViaSdo, sendSdoWrite, emit.
    same_configuration.
Qed.

Lemma stepReadyToSwitchOn_sameConfiguration :
  stepwise sameConfiguration stepReadyToSwitchOn.
Proof.
  unfold stepReadyToSwitchOn, setDriveStateViaSdo, getStatuswordViaSdo,
    transitionNotImplemented, sendSdoRead, addErrorToReading, emit.
  same_configuration; apply transitionsViaSdo_sameConfiguration.
Qed.

Lemma stepMapPdos_sameConfiguration : stepwise sameConfiguration stepMapPdos.
Proof.
  unfold stepMapPdos, mapPdos, mapRxPdo, mapTxPdo, configureRxPdo, configureTxPdo,
    getCurrentRxPdoTypeEnum, getCurrentTxPdoTypeEnum, sdoVerifyWrite, sendSdoWrite,
    sendSdoRead, usleep, addErrorToReading, emit.
  same_configuration.
Qed.

Lemma stepModeOfOperation_sameConfiguration :
  stepwise sameConfiguration stepModeOfOperation.
Proof.
  unfold stepModeOfOperation, sdoVerifyWrite, sendSdoWrite, sendSdoRead, usleep, emit.
  same_configuration.
Qed.

Lemma stepPdoSizes_sameConfiguration : stepwise sameConfiguration stepPdoSizes.
Proof. unfold stepPdoSizes, autoConfigurePdoSizes, emit. same_configuration. Qed.

Lemma runAll_cons (step : M bool) (rest : list (M bool)) (e : Elmo) :
  snd (runAll (step :: rest) e) = snd (runAll rest (snd (step e))).
Proof.
  cbn [runAll]. unfold bind, ret. destruct (step e) as [b e1]. cbn [snd].
  destruct (runAll rest e1) as [bs e2]. reflexivity.
Qed.

Lemma stepRatedCurrent_effect (e : Elmo) :
  trace_ (snd (stepRatedCurrent e))
  = SdoRead OdIndex.OD_INDEX_MOTOR_RATED_CURRENT 0 false
    :: Usleep defaultVerifyDelay
    :: SdoWrite OdIndex.OD_INDEX_MOTOR_RATED_CURRENT 0 false
         (static_cast_uint32_t (roundMilli (motorRatedCurrentA (configuration_ e))))
    :: trace_ e
  /\ configuration_ (snd (stepRatedCurrent e)) = configuration_ e.
Proof. split; reflexivity. Qed.

Lemma stepRatedTorque_effect (e : Elmo) :
  trace_ (snd (stepRatedTorque e))
  = SdoRead OdIndex.OD_INDEX_MOTOR_RATED_TORQUE 0 false
    :: Usleep defaultVerifyDelay
    :: SdoWrite OdIndex.OD_INDEX_MOTOR_RATED_TORQUE 0 false
         (static_cast_uint32_t (roundMilli (motorRatedCurrentA (configuration_ e))))
    :: trace_ e
  /\ configuration_ (snd (stepRatedTorque e)) = configuration_ e.
Proof. split; reflexivity. Qed.

Lemma stepMaxCurrent_effect (e : Elmo) :
  trace_ (snd (stepMaxCurrent e))
  = SdoRead OdIndex.OD_INDEX_MAX_CURRENT 0 false
    :: Usleep defaultVerifyDelay
    :: SdoWrite OdIndex.OD_INDEX_MAX_CURRENT 0 false
         (static_cast_uint16_t (floorMilli (maxCurrentA (configuration_ e))))
    :: trace_ e
  /\ configuration_ (snd (stepMaxCurrent e)) = configuration_ e.
Proof. split; reflexivity. Qed.

Lemma readRatedCurrentIfUnset_configuration (e : Elmo) :
  configuration_ (snd (readRatedCurrentIfUnset e))
  = if isZero (motorRatedCurrentA (configuration_ e))
    then set_motorRatedCurrentA
           (fromMilli
              (snd (sdoReadAnswer (trace_ e) OdIndex.OD_INDEX_MOTOR_RATED_CURRENT 0 false)))
           (configuration_ e)
    else configuration_ e.
Proof.
  unfold readRatedCurrentIfUnset, sendSdoRead, emit, bind, get, modify, ret.
  cbn [fst snd].
  destruct (isZero (motorRatedCurrentA (configuration_ e))); reflexivity.
Qed.

Lemma runPreopConfiguration_end (e : Elmo) :
  exists e5,
    configuration_ e5 = configuration_ (snd (readRatedCurrentIfUnset e))
    /\ configuration_ (snd (runPreopConfiguration e)) = configuration_ e5
    /\ trace_ (snd (runPreopConfiguration e))
       = [SdoRead OdIndex.OD_INDEX_MAX_CURRENT 0 false;
          Usleep defaultVerifyDelay;
          SdoWrite OdIndex.OD_INDEX_MAX_CURRENT 0 false
            (static_cast_uint16_t (floorMilli (maxCurrentA (configuration_ e5))));
          SdoRead OdIndex.OD_INDEX_MOTOR_RATED_TORQUE 0 false;
          Usleep defaultVerifyDelay;
          SdoWrite OdIndex.OD_INDEX_MOTOR_RATED_TORQUE 0 false
            (static_cast_uint32_t (roundMilli (motorRatedCurrentA (configuration_ e5))));
          SdoRead OdIndex.OD_INDEX_MOTOR_RATED_CURRENT 0 false;
          Usleep defaultVerifyDelay;
          SdoWrite OdIndex.OD_INDEX_MOTOR_RATED_CURRENT 0 false
            (static_cast_uint32_t (roundMilli (motorRatedCurrentA (configuration_ e5))))]
         ++ trace_ e5.
Proof.
  set (e1 := snd (readRatedCurrentIfUnset e)).
  set (e2 := snd (stepReadyToSwitchOn e1)).
  set (e3 := snd (stepMapPdos e2)).
  set (e4 := snd (stepModeOfOperation e3)).
  set (e5 := snd (stepPdoSizes e4)).
  exists e5. split.
  { unfold e5. rewrite (stepPdoSizes_sameConfiguration e4).
    unfold e4. rewrite (stepModeOfOperation_sameConfiguration e3).
    unfold e3. rewrite (stepMapPdos_sameConfiguration e2).
    unfold e2. rewrite (stepReadyToSwitchOn_sameConfiguration e1). reflexivity. }
  assert (Hend : snd (runAll preopSteps e)
                 = snd (stepMaxCurrent (snd (stepRatedTorque (snd (stepRatedCurrent e5)))))).
  { unfold preopSteps. rewrite !runAll_cons. reflexivity. }
  destruct (runPreopConfiguration_runAll e) as [_ Heq].
  assert (Hfinal : configuration_ (snd (runPreopConfiguration e))
                   = configuration_ (snd (runAll preopSteps e))
                   /\ trace_ (snd (runPreopConfiguration e))
                      = trace_ (snd (runAll preopSteps e))).
  { rewrite Heq. cbn [snd].
    destruct (allTrue (fst (runAll preopSteps e))); split; reflexivity. }
  destruct Hfinal as [Hc Ht]. rewrite Hc, Ht, Hend. clear Hc Ht Hend Heq.
  clearbody e5. clear e1 e2 e3 e4.
  destruct (stepRatedCurrent_effect e5) as [T6 C6].
  destruct (stepRatedTorque_effect (snd (stepRatedCurrent e5))) as [T7 C7].
  destruct (stepMaxCurrent_effect (snd (stepRatedTorque (snd (stepRatedCurrent e5)))))
    as [T8 C8].
  split.
  - rewrite C8, C7, C6. reflexivity.
  - rewrite T8, T7, T6, C7, C6. reflexivity.
Qed.


(** X14. When the configured rated current is zero, [runPreopConfiguration]
    replaces it by whatever the mailbox read of the rated-current entry
    left in its output, in thousandths, and does so whether or not that
    read reported success; no other field of the configuration changes.
    When the configured rated current is not zero the configuration is
    left as it is. *)
Theorem runPreopConfiguration_backfills_rated_current (e : Elmo) :
  configuration_ (snd (runPreopConfiguration e))
  = if isZero (motorRatedCurrentA (configuration_ e))
    then set_motorRatedCurrentA
           (fromMilli
              (snd (sdoReadAnswer (trace_ e) OdIndex.OD_INDEX_MOTOR_RATED_CURRENT 0 false)))
           (configuration_ e)
    else configuration_ e.
Proof.
  destruct (runPreopConfiguration_end e) as (e5 & H5 & Hc & _).
  rewrite Hc, H5. apply readRatedCurrentIfUnset_configuration.
Qed.

(** ** Waiting for a state change *)

Lemma waitForStateChange_true (others : nat -> Elmo -> Elmo) (fuel k : nat)
  (start : Z) (e e' : Elmo) :
  waitForStateChange others fuel k start e = (Some true, e') ->
  stateChangeSuccessful_ e' = true.
Proof.
  revert k e. induction fuel as [|fuel IH]; intros k e Hrun.
  - discriminate Hrun.
  - rewrite waitForStateChange_poll in Hrun.
    destruct (stateChangeSuccessful_ e) eqn:Hs.
    + inversion Hrun; subst e'. exact Hs.
    + destruct (steadyClockAnswer (trace_ e) - start
                >? driveStateChangeMaxTimeout (configuration_ e)).
      * discriminate Hrun.
      * eapply IH. exact Hrun.
Qed.

Lemma setDriveStateViaPdo_wait (others : nat -> Elmo -> Elmo) (fuel : nat)
  (driveState : DriveState.t) (e : Elmo) :
  setDriveStateViaPdo others fuel driveState true e
  = waitForStateChange others fuel 0 (steadyClockAnswer (SteadyClockNow :: trace_ e))
      (snd (setDriveStateViaPdo others fuel driveState false e)).
Proof. reflexivity. Qed.

(** X15. The waiting form of [setDriveStateViaPdo] does return when the
    clock moves: if every clock reading is at least the number of calls
    logged so far and the other threads neither shorten the log nor
    change the configuration, then with enough polls it answers, and its
    answer is the value of [stateChangeSuccessful_] at that moment -
    [true] only if the engine has flagged success, [false] only if it has
    not. *)
Theorem setDriveStateViaPdo_waiting_returns (others : nat -> Elmo -> Elmo)
  (driveState : DriveState.t) (e : Elmo) :
  (forall t, Z.of_nat (length t) <= steadyClockAnswer t) ->
  (forall k x, (length (trace_ x) <= length (trace_ (others k x)))%nat) ->
  (forall k x, configuration_ (others k x) = configuration_ x) ->
  exists fuel answer,
    fst (setDriveStateViaPdo others fuel driveState true e) = Some answer
    /\ stateChangeSuccessful_ (snd (setDriveStateViaPdo others fuel driveState true e))
       = answer.
Proof.
  intros Hclock Hlog Hcfg.
  set (start := steadyClockAnswer (SteadyClockNow :: trace_ e)).
  set (e0 := snd (setDriveStateViaPdo others 0 driveState false e)).
  set (n := Z.to_nat (Z.max 0 (driveStateChangeMaxTimeout (configuration_ e0) + start
                               - Z.of_nat (length (trace_ e0)) + 1))).
  exists (S n).
  assert (Hsome : fst (waitForStateChange others (S n) 0 start e0) <> None).
  { apply (waitForStateChange_returns others start Hclock Hlog Hcfg). unfold n. lia. }
  rewrite setDriveStateViaPdo_wait. fold start.
  change (snd (setDriveStateViaPdo others (S n) driveState false e)) with e0.
  destruct (waitForStateChange others (S n) 0 start e0) as [[answer|] e'] eqn:Hrun;
    [ | exfalso; apply Hsome; reflexivity ].
  exists answer. split; [reflexivity|]. cbn [snd].
  destruct answer.
  - exact (waitForStateChange_true _ _ _ _ _ _ Hrun).
  - destruct (waitForStateChange_false _ _ _ _ _ _ Hrun) as (t & _ & _ & Hs). exact Hs.
Qed.

(** ** What the read half stores *)

Lemma sameTelemetry_refl e : sameTelemetry e e.
Proof. reflexivity. Qed.

Lemma sameTelemetry_trans a b c :
  sameTelemetry a b -> sameTelemetry b c -> sameTelemetry a c.
Proof. unfold sameTelemetry. congruence. Qed.

Lemma markRead_sameTelemetry : stepwise sameTelemetry markRead.
Proof.
  unfold markRead. stepwise_split sameTelemetry_refl sameTelemetry_trans. reflexivity.
Qed.

Lemma readFaultCode_sameTelemetry : stepwise sameTelemetry readFaultCode.
Proof.
  unfold readFaultCode, sendSdoRead, modifyReading, emit.
  stepwise_split sameTelemetry_refl sameTelemetry_trans; reflexivity.
Qed.

Lemma readTxPdo_telemetry (e : Elmo) :
  telemetry (reading_ (snd (readTxPdo e)))
  = match currentTxPdoTypeEnum_ e with
    | TxPdoTypeEnum.TxPdoStandard =>
        (txs_actualPosition_ (txPdoStandardAnswer (trace_ e)),
         txs_actualVelocity_ (txPdoStandardAnswer (trace_ e)),
         txs_actualCurrent_ (txPdoStandardAnswer (trace_ e)),
         txs_statusword_ (txPdoStandardAnswer (trace_ e)),
         txs_digitalInputs_ (txPdoStandardAnswer (trace_ e)),
         txs_analogInput_ (txPdoStandardAnswer (trace_ e)),
         txs_busVoltage_ (txPdoStandardAnswer (trace_ e)))
    | TxPdoTypeEnum.TxPdoCST =>
        (txc_actualPosition_ (txPdoCSTAnswer (trace_ e)),
         txc_actualVelocity_ (txPdoCSTAnswer (trace_ e)),
         txc_actualTorque_ (txPdoCSTAnswer (trace_ e)),
         txc_statusword_ (txPdoCSTAnswer (trace_ e)),
         digitalInputs (reading_ e), analogInput (reading_ e), busVoltage (reading_ e))
    | _ => telemetry (reading_ e)
    end.
Proof.
  unfold readTxPdo, modifyReading, emit, bind, get, modify. cbn [fst snd].
  destruct (currentTxPdoTypeEnum_ e); reflexivity.
Qed.

Lemma markRead_hasRead (e : Elmo) : hasRead_ (snd (markRead e)) = true.
Proof.
  unfold markRead, bind, get, when, modify, ret. cbn [fst snd].
  destruct (hasRead_ e) eqn:H; cbn [negb snd]; [exact H | reflexivity].
Qed.

(** X16. After the read half the reading holds the telemetry of the
    record the bus delivered: all seven fields for the standard record;
    for the reduced record position, velocity, statusword and the torque
    field stored as current, with digital inputs, analog input and bus
    voltage left from before.  With any other current tx type nothing is
    fetched and the telemetry stays as it was.  In every case, also that
    last one, [hasRead_] is set afterwards. *)
Theorem updateRead_stores_record (e : Elmo) :
  hasRead_ (snd (updateRead e)) = true
  /\ telemetry (reading_ (snd (updateRead e)))
     = match currentTxPdoTypeEnum_ e with
       | TxPdoTypeEnum.TxPdoStandard =>
           (txs_actualPosition_ (txPdoStandardAnswer (trace_ e)),
            txs_actualVelocity_ (txPdoStandardAnswer (trace_ e)),
            txs_actualCurrent_ (txPdoStandardAnswer (trace_ e)),
            txs_statusword_ (txPdoStandardAnswer (trace_ e)),
            txs_digitalInputs_ (txPdoStandardAnswer (trace_ e)),
            txs_analogInput_ (txPdoStandardAnswer (trace_ e)),
            txs_busVoltage_ (txPdoStandardAnswer (trace_ e)))
       | TxPdoTypeEnum.TxPdoCST =>
           (txc_actualPosition_ (txPdoCSTAnswer (trace_ e)),
            txc_actualVelocity_ (txPdoCSTAnswer (trace_ e)),
            txc_actualTorque_ (txPdoCSTAnswer (trace_ e)),
            txc_statusword_ (txPdoCSTAnswer (trace_ e)),
            digitalInputs (reading_ e), analogInput (reading_ e),
            busVoltage (reading_ e))
       | _ => telemetry (reading_ e)
       end.
Proof.
  rewrite updateRead_parts. split.
  - destruct (gate_readFaultCode (snd (markRead (snd (readTxPdo e))))) as [_ H].
    rewrite H. apply markRead_hasRead.
  - rewrite (readFaultCode_sameTelemetry (snd (markRead (snd (readTxPdo e))))).
    rewrite (markRead_sameTelemetry (snd (readTxPdo e))).
    apply readTxPdo_telemetry.
Qed.

(** ** A drive that reports the target *)

Lemma undisturbed_refl e : undisturbed e e.
Proof. repeat split. Qed.

Lemma undisturbed_trans a b c : undisturbed a b -> undisturbed b c -> undisturbed a c.
Proof.
  intros (A1 & A2 & A3 & A4 & A5 & A6 & A7) (B1 & B2 & B3 & B4 & B5 & B6 & B7).
  repeat split; congruence.
Qed.

Lemma updateRead_undisturbed : stepwise undisturbed updateRead.
Proof.
  unfold updateRead, readTxPdo, markRead, readFaultCode, sendSdoRead, modifyReading,
    emit.
  stepwise_split undisturbed_refl undisturbed_trans; repeat split.
Qed.

Lemma writeRxPdo_undisturbed : stepwise undisturbed writeRxPdo.
Proof.
  unfold writeRxPdo, addErrorToReading, emit.
  stepwise_split undisturbed_refl undisturbed_trans; repeat split.
Qed.

Lemma engagePdoStateMachine_sameTypes : stepwise sameTypes engagePdoStateMachine.
Proof.
  unfold engagePdoStateMachine, steady_clock_now, getNextStateTransitionControlword,
    addErrorToReading, emit.
  same_types.
Qed.

Lemma busCycle_step (e : Elmo) :
  currentTxPdoTypeEnum_ e = TxPdoTypeEnum.TxPdoStandard ->
  ModeOfOperationEnum.isNA (modeOfOperation_ e) = false ->
  conductStateChange_ e = true ->
  getDriveState (txs_statusword_ (txPdoStandardAnswer (trace_ e))) = targetDriveState_ e ->
  modeOfOperation_ (busCycles 1 e) = modeOfOperation_ e
  /\ currentTxPdoTypeEnum_ (busCycles 1 e) = currentTxPdoTypeEnum_ e
  /\ targetDriveState_ (busCycles 1 e) = targetDriveState_ e
  /\ configuration_ (busCycles 1 e) = configuration_ e
  /\ if numberOfSuccessfulTargetStateReadings_ e + 1
        >=? minNumberOfSuccessfulTargetStateReadings (configuration_ e)
     then conductStateChange_ (busCycles 1 e) = false
          /\ numberOfSuccessfulTargetStateReadings_ (busCycles 1 e) = 0
          /\ stateChangeSuccessful_ (busCycles 1 e) = true
     else conductStateChange_ (busCycles 1 e) = true
          /\ numberOfSuccessfulTargetStateReadings_ (busCycles 1 e)
             = numberOfSuccessfulTargetStateReadings_ e + 1
          /\ stateChangeSuccessful_ (busCycles 1 e) = stateChangeSuccessful_ e.
Proof.
  intros Htx Hmode Hconduct Hreport. cbn [busCycles].
  destruct (updateRead_undisturbed e) as (U1 & U2 & U3 & U4 & U5 & U6 & U7).
  pose proof (updateRead_parts e) as Hparts.
  assert (Hread : hasRead_ (snd (updateRead e)) = true).
  { rewrite Hparts.
    destruct (gate_readFaultCode (snd (markRead (snd (readTxPdo e))))) as [_ H].
    rewrite H. apply markRead_hasRead. }
  assert (Hsw : Reading_getDriveState (reading_ (snd (updateRead e)))
                = targetDriveState_ e).
  { pose proof (readTxPdo_telemetry e) as Ht. rewrite Htx in Ht.
    rewrite <- (markRead_sameTelemetry (snd (readTxPdo e))) in Ht.
    rewrite <- (readFaultCode_sameTelemetry (snd (markRead (snd (readTxPdo e))))) in Ht.
    rewrite <- Hparts in Ht. unfold telemetry in Ht.
    apply (f_equal (fun p => snd (fst (fst (fst p))))) in Ht. cbn [fst snd] in Ht.
    unfold Reading_getDriveState. rewrite Ht. exact Hreport. }
  set (e1 := snd (updateRead e)) in *. clearbody e1. clear Hparts.
  rewrite updateWrite_engages. unfold engages.
  rewrite U1, Hmode, U5, Hconduct, Hread. cbn [negb andb].
  unfold updateWriteEngaged, bind.
  pose proof (engagePdoStateMachine_step e1) as (S1 & S2 & S3).
  destruct (clockOnly_engagePdoStateMachine e1) as [_ (_ & Smode & _)].
  destruct (engagePdoStateMachine_sameTypes e1) as [_ Stx].
  destruct (engagePdoStateMachine e1) as [u e2]. cbn [snd] in *.
  destruct (writeRxPdo_undisturbed e2) as (W1 & W2 & W3 & W4 & W5 & W6 & W7).
  rewrite W1, W2, W3, W4, W5, W6, W7.
  rewrite Hsw, <- U3 in S3.
  assert (Heqb : DriveState.eqb (targetDriveState_ e1) (targetDriveState_ e1) = true)
    by (destruct (targetDriveState_ e1); reflexivity).
  rewrite Heqb, U6, U4 in S3.
  repeat split; try congruence.
  destruct (numberOfSuccessfulTargetStateReadings_ e + 1
            >=? minNumberOfSuccessfulTargetStateReadings (configuration_ e));
    destruct S3 as (P1 & P2 & P3); repeat split; congruence.
Qed.

Lemma busCycles_counting (n : nat) (e : Elmo) :
  (forall t, getDriveState (txs_statusword_ (txPdoStandardAnswer t))
             = targetDriveState_ e) ->
  currentTxPdoTypeEnum_ e = TxPdoTypeEnum.TxPdoStandard ->
  ModeOfOperationEnum.isNA (modeOfOperation_ e) = false ->
  conductStateChange_ e = true ->
  n = O
  \/ numberOfSuccessfulTargetStateReadings_ e + Z.of_nat n
     < minNumberOfSuccessfulTargetStateReadings (configuration_ e) ->
  modeOfOperation_ (busCycles n e) = modeOfOperation_ e
  /\ currentTxPdoTypeEnum_ (busCycles n e) = currentTxPdoTypeEnum_ e
  /\ targetDriveState_ (busCycles n e) = targetDriveState_ e
  /\ configuration_ (busCycles n e) = configuration_ e
  /\ conductStateChange_ (busCycles n e) = true
  /\ numberOfSuccessfulTargetStateReadings_ (busCycles n e)
     = numberOfSuccessfulTargetStateReadings_ e + Z.of_nat n
  /\ stateChangeSuccessful_ (busCycles n e) = stateChangeSuccessful_ e.
Proof.
  intros Hreport Htx Hmode Hconduct.
  induction n as [|n IH]; intro Hbound.
  - cbn [busCycles]. repeat split; try assumption. simpl. lia.
  - destruct Hbound as [H0 | Hbound]; [discriminate H0|].
    assert (Hprev : n = O
                    \/ numberOfSuccessfulTargetStateReadings_ e + Z.of_nat n
                       < minNumberOfSuccessfulTargetStateReadings (configuration_ e))
      by (right; lia).
    destruct (IH Hprev) as (I1 & I2 & I3 & I4 & I5 & I6 & I7).
    change (busCycles (S n) e) with (busCycles 1 (busCycles n e)).
    assert (Hrep : getDriveState
                     (txs_statusword_ (txPdoStandardAnswer (trace_ (busCycles n e))))
                   = targetDriveState_ (busCycles n e))
      by (rewrite I3; apply Hreport).
    assert (Htx' : currentTxPdoTypeEnum_ (busCycles n e) = TxPdoTypeEnum.TxPdoStandard)
      by congruence.
    assert (Hmode' : ModeOfOperationEnum.isNA (modeOfOperation_ (busCycles n e)) = false)
      by (rewrite I1; exact Hmode).
    destruct (busCycle_step (busCycles n e) Htx' Hmode' I5 Hrep)
      as (B1 & B2 & B3 & B4 & B5).
    rewrite I6, I4 in B5.
    destruct (numberOfSuccessfulTargetStateReadings_ e + Z.of_nat n + 1
              >=? minNumberOfSuccessfulTargetStateReadings (configuration_ e)) eqn:Hge.
    + apply Z.geb_le in Hge. lia.
    + destruct B5 as (P1 & P2 & P3).
      repeat split; try congruence. rewrite P2. lia.
Qed.

(** X17. If a request is pending, a mode is set, the standard record is
    read and the drive reports the target state in every record, then the
    request is marked successful in exactly the cycle in which the
    counter reaches the configured minimum: with counter [c] and minimum
    [m], the first [max 0 (m - c - 1)] bus cycles leave the request
    pending and the success flag untouched, and the next cycle sets the
    flag, clears the pending flag and returns the counter to zero. *)
Theorem steady_target_succeeds (n : nat) (e : Elmo) :
  (forall t, getDriveState (txs_statusword_ (txPdoStandardAnswer t))
             = targetDriveState_ e) ->
  currentTxPdoTypeEnum_ e = TxPdoTypeEnum.TxPdoStandard ->
  ModeOfOperationEnum.isNA (modeOfOperation_ e) = false ->
  conductStateChange_ e = true ->
  Z.of_nat n
  = Z.max 0 (minNumberOfSuccessfulTargetStateReadings (configuration_ e)
             - numberOfSuccessfulTargetStateReadings_ e - 1) ->
  conductStateChange_ (busCycles n e) = true
  /\ stateChangeSuccessful_ (busCycles n e) = stateChangeSuccessful_ e
  /\ conductStateChange_ (busCycles (S n) e) = false
  /\ stateChangeSuccessful_ (busCycles (S n) e) = true
  /\ numberOfSuccessfulTargetStateReadings_ (busCycles (S n) e) = 0.
Proof.
  intros Hreport Htx Hmode Hconduct Hn.
  assert (Hbound : n = O
                   \/ numberOfSuccessfulTargetStateReadings_ e + Z.of_nat n
                      < minNumberOfSuccessfulTargetStateReadings (configuration_ e))
    by (destruct n; [left; reflexivity | right; lia]).
  destruct (busCycles_counting n e Hreport Htx Hmode Hconduct Hbound)
    as (I1 & I2 & I3 & I4 & I5 & I6 & I7).
  split; [exact I5|]. split; [exact I7|].
  change (busCycles (S n) e) with (busCycles 1 (busCycles n e)).
  assert (Hrep : getDriveState
                   (txs_statusword_ (txPdoStandardAnswer (trace_ (busCycles n e))))
                 = targetDriveState_ (busCycles n e))
    by (rewrite I3; apply Hreport).
  assert (Htx' : currentTxPdoTypeEnum_ (busCycles n e) = TxPdoTypeEnum.TxPdoStandard)
    by congruence.
  assert (Hmode' : ModeOfOperationEnum.isNA (modeOfOperation_ (busCycles n e)) = false)
    by (rewrite I1; exact Hmode).
  destruct (busCycle_step (busCycles n e) Htx' Hmode' I5 Hrep) as (_ & _ & _ & _ & B5).
  rewrite I6, I4 in B5.
  destruct (numberOfSuccessfulTargetStateReadings_ e + Z.of_nat n + 1
            >=? minNumberOfSuccessfulTargetStateReadings (configuration_ e)) eqn:Hge.
  - destruct B5 as (P1 & P2 & P3). repeat split; assumption.
  - exfalso. rewrite Z.geb_leb in Hge. apply Z.leb_gt in Hge. lia.
Qed.

Lemma setDriveStateViaPdo_request (others : nat -> Elmo -> Elmo) (fuel : nat)
  (driveState : DriveState.t) (e : Elmo) :
  modeOfOperation_ (snd (setDriveStateViaPdo others fuel driveState false e))
  = modeOfOperation_ e
  /\ currentTxPdoTypeEnum_ (snd (setDriveStateViaPdo others fuel driveState false e))
     = currentTxPdoTypeEnum_ e
  /\ targetDriveState_ (snd (setDriveStateViaPdo others fuel driveState false e))
     = driveState
  /\ configuration_ (snd (setDriveStateViaPdo others fuel driveState false e))
     = configuration_ e
  /\ conductStateChange_ (snd (setDriveStateViaPdo others fuel driveState false e))
     = true
  /\ numberOfSuccessfulTargetStateReadings_
       (snd (setDriveStateViaPdo others fuel driveState false e))
     = numberOfSuccessfulTargetStateReadings_ e
  /\ stateChangeSuccessful_ (snd (setDriveStateViaPdo others fuel driveState false e))
     = false
  /\ controlword_ (snd (setDriveStateViaPdo others fuel driveState false e))
     = controlword_ e.
Proof. rewrite setDriveStateViaPdo_nowait. repeat split. Qed.

(** X18. A new request does not start the count afresh:
    [setDriveStateViaPdo] leaves the success counter and the controlword
    as they are.  So when the drive reports the new target in every
    record, the request is marked successful after
    [max 1 (m - c)] bus cycles, where [c] is the counter left over from
    before the request and [m] the configured minimum, and not earlier. *)
Theorem new_request_keeps_count (others : nat -> Elmo -> Elmo) (fuel : nat)
  (driveState : DriveState.t) (n : nat) (e : Elmo) :
  (forall t, getDriveState (txs_statusword_ (txPdoStandardAnswer t)) = driveState) ->
  currentTxPdoTypeEnum_ e = TxPdoTypeEnum.TxPdoStandard ->
  ModeOfOperationEnum.isNA (modeOfOperation_ e) = false ->
  Z.of_nat n
  = Z.max 0 (minNumberOfSuccessfulTargetStateReadings (configuration_ e)
             - numberOfSuccessfulTargetStateReadings_ e - 1) ->
  numberOfSuccessfulTargetStateReadings_
    (snd (setDriveStateViaPdo others fuel driveState false e))
  = numberOfSuccessfulTargetStateReadings_ e
  /\ controlword_ (snd (setDriveStateViaPdo others fuel driveState false e))
     = controlword_ e
  /\ stateChangeSuccessful_
       (busCycles n (snd (setDriveStateViaPdo others fuel driveState false e)))
     = false
  /\ stateChangeSuccessful_
       (busCycles (S n) (snd (setDriveStateViaPdo others fuel driveState false e)))
     = true.
Proof.
  intros Hreport Htx Hmode Hn.
  destruct (setDriveStateViaPdo_request others fuel driveState e)
    as (R1 & R2 & R3 & R4 & R5 & R6 & R7 & R8).
  set (e0 := snd (setDriveStateViaPdo others fuel driveState false e)) in *.
  clearbody e0.
  assert (Hreport0 : forall t, getDriveState (txs_statusword_ (txPdoStandardAnswer t))
                               = targetDriveState_ e0)
    by (intro t; rewrite R3; apply Hreport).
  assert (Htx0 : currentTxPdoTypeEnum_ e0 = TxPdoTypeEnum.TxPdoStandard) by congruence.
  assert (Hmode0 : ModeOfOperationEnum.isNA (modeOfOperation_ e0) = false)
    by (rewrite R1; exact Hmode).
  assert (Hbound : n = O
                   \/ numberOfSuccessfulTargetStateReadings_ e0 + Z.of_nat n
                      < minNumberOfSuccessfulTargetStateReadings (configuration_ e0))
    by (rewrite R6, R4; destruct n; [left; reflexivity | right; lia]).
  destruct (busCycles_counting n e0 Hreport0 Htx0 Hmode0 R5 Hbound)
    as (I1 & I2 & I3 & I4 & I5 & I6 & I7).
  split; [exact R6|]. split; [exact R8|]. split; [congruence|].
  change (busCycles (S n) e0) with (busCycles 1 (busCycles n e0)).
  assert (Hrep : getDriveState
                   (txs_statusword_ (txPdoStandardAnswer (trace_ (busCycles n e0))))
                 = targetDriveState_ (busCycles n e0))
    by (rewrite I3; apply Hreport0).
  assert (Htx' : currentTxPdoTypeEnum_ (busCycles n e0) = TxPdoTypeEnum.TxPdoStandard)
    by congruence.
  assert (Hmode' : ModeOfOperationEnum.isNA (modeOfOperation_ (busCycles n e0)) = false)
    by (rewrite I1; exact Hmode0).
  destruct (busCycle_step (busCycles n e0) Htx' Hmode' I5 Hrep) as (_ & _ & _ & _ & B5).
  rewrite I6, I4, R6, R4 in B5.
  destruct (numberOfSuccessfulTargetStateReadings_ e + Z.of_nat n + 1
            >=? minNumberOfSuccessfulTargetStateReadings (configuration_ e)) eqn:Hge.
  - destruct B5 as (_ & _ & P3). exact P3.
  - exfalso. rewrite Z.geb_leb in Hge. apply Z.leb_gt in Hge. lia.
Qed.

(** ** Errors the engine does not record *)

Lemma getNextStateTransitionControlword_silent req cur (e : Elmo) :
  requestable req = true -> defined cur = true -> req <> cur ->
  snd (getNextStateTransitionControlword req cur e) = e.
Proof.
  intros Hreq Hdef Hne.
  destruct req; try discriminate Hreq; destruct cur; try discriminate Hdef;
    try congruence; reflexivity.
Qed.

Lemma DriveState_eqb_eq (a b : DriveState.t) : DriveState.eqb a b = true <-> a = b.
Proof. destruct a, b; split; intro H; try reflexivity; discriminate H. Qed.

(** X19. The engine calls the lookup only on a reading that differs from
    the target, so the lookup's "already reached" error never comes from
    the engine: for a requestable target and a reading that decodes to
    one of the six defined states, a call of the engine leaves the
    reading, and with it the error log, exactly as it was. *)
Theorem engagePdoStateMachine_records_nothing (e : Elmo) :
  requestable (targetDriveState_ e) = true ->
  defined (Reading_getDriveState (reading_ e)) = true ->
  reading_ (snd (engagePdoStateMachine e)) = reading_ e.
Proof.
  intros Hreq Hdef.
  pose proof (engagePdoStateMachine_effect e) as Heff.
  destruct (DriveState.eqb (Reading_getDriveState (reading_ e)) (targetDriveState_ e))
    eqn:Hmatch; cbn [orb] in Heff.
  - destruct Heff as (_ & _ & H & _). exact H.
  - destruct (steadyClockAnswer (trace_ e) - driveStateChangeTimePoint_ e
              >? driveStateChangeMinTimeout (configuration_ e)) eqn:Hlate;
      cbn [negb] in Heff.
    + clear Heff.
      assert (Hne : targetDriveState_ e <> Reading_getDriveState (reading_ e)).
      { intro H. rewrite H in Hmatch.
        rewrite (proj2 (DriveState_eqb_eq _ _) eq_refl) in Hmatch. discriminate. }
      unfold engagePdoStateMachine, steady_clock_now, bind, get, emit, modify, ret,
        when. simpl. rewrite Hmatch. simpl. rewrite Hlate. simpl.
      pose proof (getNextStateTransitionControlword_silent _ _
                    (set_trace_ (SteadyClockNow :: trace_ e) e) Hreq Hdef Hne) as Hs.
      destruct (getNextStateTransitionControlword (targetDriveState_ e)
                  (Reading_getDriveState (reading_ e))
                  (set_trace_ (SteadyClockNow :: trace_ e) e)) as [cw e1].
      simpl in Hs. subst e1. reflexivity.
    + destruct Heff as (_ & _ & H & _). exact H.
Qed.

(** ** The record sizes kept by the configuration run *)

Lemma runAll_preopSteps (e : Elmo) :
  snd (runAll preopSteps e)
  = snd (stepMaxCurrent
           (snd (stepRatedTorque
                   (snd (stepRatedCurrent
                           (snd (stepPdoSizes
                                   (snd (stepModeOfOperation
                                           (snd (stepMapPdos
                                                   (snd (stepReadyToSwitchOn
                                                           (snd (readRatedCurrentIfUnset
                                                                   e))))))))))))))).
Proof. unfold preopSteps. rewrite !runAll_cons. reflexivity. Qed.

Lemma verifyStep_keeps_pdoInfo (e : Elmo) :
  pdoInfo_ (snd (stepRatedCurrent e)) = pdoInfo_ e
  /\ pdoInfo_ (snd (stepRatedTorque e)) = pdoInfo_ e
  /\ pdoInfo_ (snd (stepMaxCurrent e)) = pdoInfo_ e.
Proof. repeat split. Qed.

Lemma stepPdoSizes_effect (e : Elmo) :
  trace_ (snd (stepPdoSizes e)) = GetHardwarePdoSizes :: trace_ e
  /\ rxPdoSize_ (pdoInfo_ (snd (stepPdoSizes e))) = fst (hardwarePdoSizesAnswer (trace_ e))
  /\ txPdoSize_ (pdoInfo_ (snd (stepPdoSizes e))) = snd (hardwarePdoSizesAnswer (trace_ e)).
Proof. repeat split. Qed.

(** X20. [runPreopConfiguration] asks the bus for the record sizes right
    before its three closing verified writes (nine logged calls), and
    what [getRxPdoSize] and [getTxPdoSize] return afterwards is the pair
    the bus answered to that call - also when steps of the run failed. *)
Theorem runPreopConfiguration_keeps_reported_sizes (e : Elmo) :
  exists before after,
    trace_ (snd (runPreopConfiguration e)) = after ++ GetHardwarePdoSizes :: before
    /\ length after = 9%nat
    /\ fst (getRxPdoSize (snd (runPreopConfiguration e)))
       = fst (hardwarePdoSizesAnswer before)
    /\ fst (getTxPdoSize (snd (runPreopConfiguration e)))
       = snd (hardwarePdoSizesAnswer before).
Proof.
  destruct (runPreopConfiguration_runAll e) as [_ Heq].
  assert (Hfinal : pdoInfo_ (snd (runPreopConfiguration e))
                   = pdoInfo_ (snd (runAll preopSteps e))
                   /\ trace_ (snd (runPreopConfiguration e))
                      = trace_ (snd (runAll preopSteps e))).
  { rewrite Heq. cbn [snd].
    destruct (allTrue (fst (runAll preopSteps e))); split; reflexivity. }
  destruct Hfinal as [Hp Ht].
  unfold getRxPdoSize, getTxPdoSize, get. cbn [fst].
  rewrite Hp, Ht, runAll_preopSteps. clear Hp Ht Heq.
  set (e4 := snd (stepModeOfOperation
                    (snd (stepMapPdos
                            (snd (stepReadyToSwitchOn
                                    (snd (readRatedCurrentIfUnset e)))))))).
  clearbody e4.
  destruct (stepPdoSizes_effect e4) as (T5 & Rx & Tx).
  set (e5 := snd (stepPdoSizes e4)) in *. clearbody e5.
  destruct (stepRatedCurrent_effect e5) as [T6 _].
  destruct (verifyStep_keeps_pdoInfo e5) as (P6 & _ & _).
  set (e6 := snd (stepRatedCurrent e5)) in *. clearbody e6.
  destruct (stepRatedTorque_effect e6) as [T7 _].
  destruct (verifyStep_keeps_pdoInfo e6) as (_ & P7 & _).
  set (e7 := snd (stepRatedTorque e6)) in *. clearbody e7.
  destruct (stepMaxCurrent_effect e7) as [T8 _].
  destruct (verifyStep_keeps_pdoInfo e7) as (_ & _ & P8).
  rewrite T8, T7, T6, T5, P8, P7, P6, Rx, Tx.
  exists (trace_ e4).
  eexists [_; _; _; _; _; _; _; _; _].
  repeat split.
Qed.

End Properties.

(** * Runs on the bench *)

(** ** Inputs at which the theorems above apply *)

(** Ready-to-switch-on requested from switch-on disabled: transition 2. *)
Lemma getNextStateTransitionControlword_standard_witness :
  requestable DriveState.ReadyToSwitchOn = true
  /\ exists t,
       standardTransition DriveState.ReadyToSwitchOn DriveState.SwitchOnDisabled = Some t
       /\ getNextStateTransitionControlword (C := bench glitchingDrive)
            DriveState.ReadyToSwitchOn DriveState.SwitchOnDisabled
            (benchElmo glitchingDrive 3 1000 1000000)
          = (benchTransitionCommand t, benchElmo glitchingDrive 3 1000 1000000).
Proof.
  split; [reflexivity|].
  apply (proj1 (getNextStateTransitionControlword_standard (C := bench glitchingDrive)
                  DriveState.ReadyToSwitchOn DriveState.SwitchOnDisabled
                  (benchElmo glitchingDrive 3 1000 1000000) eq_refl)).
  - reflexivity.
  - discriminate.
Defined.

(** Operation enabled requested from switch-on disabled over the mailbox:
    one statusword read, then the writes of transitions 2, 3 and 4. *)
Lemma setDriveStateViaSdo_issues_whole_chain_witness :
  requestable DriveState.OperationEnabled = true
  /\ trace_ (snd (setDriveStateViaSdo (C := bench glitchingDrive)
                    DriveState.OperationEnabled (benchElmo glitchingDrive 3 1000 1000000)))
     = [SdoWrite OdIndex.OD_INDEX_CONTROLWORD 0 false 0x0F;
        SdoWrite OdIndex.OD_INDEX_CONTROLWORD 0 false 0x07;
        SdoWrite OdIndex.OD_INDEX_CONTROLWORD 0 false 0x06;
        SdoRead OdIndex.OD_INDEX_STATUSWORD 0 false].
Proof.
  split; [reflexivity|].
  exact (proj1 (setDriveStateViaSdo_issues_whole_chain (C := bench glitchingDrive)
                  DriveState.OperationEnabled (benchElmo glitchingDrive 3 1000 1000000)
                  eq_refl eq_refl)).
Defined.

(** Four evaluated statuswords, three of them operation enabled, with a
    minimum of three readings. *)
Lemma engagePdoStateMachine_counts_matching_readings_witness :
  numberOfSuccessfulTargetStateReadings_ (requested glitchingDrive 3 1000 1000000) = 0
  /\ stateChangeSuccessful_ (requested glitchingDrive 3 1000 1000000) = false
  /\ 3 <= matching (C := bench glitchingDrive) DriveState.OperationEnabled
            [0x0237; 0x0250; 0x0237; 0x0237].
Proof.
  split; [reflexivity|]. split; [reflexivity|].
  apply (proj2 (engagePdoStateMachine_counts_matching_readings (C := bench glitchingDrive))
           [0x0237; 0x0250; 0x0237; 0x0237] (requested glitchingDrive 3 1000 1000000)).
  - reflexivity.
  - reflexivity.
  - vm_compute. reflexivity.
Defined.

(** A pending request with a fresh reading: the engine runs in the write
    half, and runs again only after the next read half, which has read a
    second record from the bus. *)
Lemma engine_waits_for_updateRead_witness :
  engages (call (C := bench glitchingDrive) CallUpdateRead
             (requested glitchingDrive 3 1000 1000000)) = true
  /\ existsb (isUpdateRead (C := bench glitchingDrive)) [CallUpdateRead] = true
  /\ (readsSoFar
        (trace_ (snd (updateWrite (C := bench glitchingDrive)
                        (call (C := bench glitchingDrive) CallUpdateRead
                           (requested glitchingDrive 3 1000 1000000)))))
      < readsSoFar
          (trace_ (calls (C := bench glitchingDrive) [CallUpdateRead]
                     (snd (updateWrite (C := bench glitchingDrive)
                             (call (C := bench glitchingDrive) CallUpdateRead
                                (requested glitchingDrive 3 1000 1000000)))))))%nat.
Proof.
  split; [reflexivity|]. split.
  - apply (proj1 (proj2 (proj2 (proj2
             (engine_waits_for_updateRead (C := bench glitchingDrive)))))
             (call (C := bench glitchingDrive) CallUpdateRead
                (requested glitchingDrive 3 1000 1000000))
             [CallUpdateRead]).
    + reflexivity.
    + vm_compute. reflexivity.
  - apply (proj2 (proj2 (proj2 (proj2
             (engine_waits_for_updateRead (C := bench glitchingDrive)))))
             (call (C := bench glitchingDrive) CallUpdateRead
                (requested glitchingDrive 3 1000 1000000))
             [CallUpdateRead]).
    + reflexivity.
    + vm_compute. reflexivity.
    + vm_compute. reflexivity.
Defined.

(** Mapping with the rx, then with the tx selection left at [NA]. *)
Lemma mapPdos_unset_record_type_witness :
  fst (mapPdos (C := bench glitchingDrive) RxPdoTypeEnum.NA TxPdoTypeEnum.TxPdoStandard
         (benchElmo glitchingDrive 3 1000 1000000)) = false
  /\ fst (mapPdos (C := bench glitchingDrive) RxPdoTypeEnum.RxPdoStandard
            TxPdoTypeEnum.NA (benchElmo glitchingDrive 3 1000 1000000)) = false.
Proof.
  split.
  - exact (proj1 (proj1 (mapPdos_unset_record_type (C := bench glitchingDrive)
                           RxPdoTypeEnum.NA TxPdoTypeEnum.TxPdoStandard
                           (benchElmo glitchingDrive 3 1000 1000000))
                    (or_introl eq_refl))).
  - exact (proj1 (proj2 (mapPdos_unset_record_type (C := bench glitchingDrive)
                           RxPdoTypeEnum.RxPdoStandard TxPdoTypeEnum.NA
                           (benchElmo glitchingDrive 3 1000 1000000))
                    (or_introl eq_refl))).
Defined.

(** The write half on an object whose mode of operation is [NA] while a
    request is pending: the log still holds only the two clock readings
    of the request. *)
Lemma updateWrite_without_mode_witness :
  modeOfOperation_
    (set_modeOfOperation_ (C := bench glitchingDrive) ModeOfOperationEnum.NA
       (requested glitchingDrive 3 1000 1000000)) = ModeOfOperationEnum.NA
  /\ trace_ (snd (updateWrite (C := bench glitchingDrive)
                    (set_modeOfOperation_ (C := bench glitchingDrive)
                       ModeOfOperationEnum.NA
                       (requested glitchingDrive 3 1000 1000000))))
     = [SteadyClockNow; SteadyClockNow].
Proof.
  split; [reflexivity|].
  exact (proj1 (updateWrite_without_mode (C := bench glitchingDrive)
                  (set_modeOfOperation_ (C := bench glitchingDrive)
                     ModeOfOperationEnum.NA (requested glitchingDrive 3 1000 1000000))
                  eq_refl)).
Defined.

(** Waiting for a drive that never leaves switch-on disabled, with a
    maximum timeout of 2.5 ms: the answer is [false]. *)
Lemma setDriveStateViaPdo_answers_witness :
  fst (setDriveStateViaPdo (C := bench stuckDrive) (fun _ x => x) 10
         DriveState.OperationEnabled true (benchElmo stuckDrive 3 1000 2500))
  = Some false
  /\ true = true.
Proof.
  split; [vm_compute; reflexivity|].
  apply (proj2 (setDriveStateViaPdo_answers (C := bench stuckDrive) (fun _ x => x) 10
                  DriveState.OperationEnabled)
           true (benchElmo stuckDrive 3 1000 2500)
           (snd (setDriveStateViaPdo (C := bench stuckDrive) (fun _ x => x) 10
                   DriveState.OperationEnabled true (benchElmo stuckDrive 3 1000 2500)))).
  vm_compute. reflexivity.
Defined.

(** ** Runs in which the code does otherwise *)

(** C2, as first stated, fails here: the drive is in fault, operation enabled is requested, and
    the first write of the chain (the fault reset) is rejected; the three
    remaining writes are issued all the same. *)
Lemma setDriveStateViaSdo_continues_after_failed_write :
  fst (setDriveStateViaSdo (C := bench faultyMailbox) DriveState.OperationEnabled
         (benchElmo faultyMailbox 3 1000 1000000)) = false
  /\ onSdoWrite faultyMailbox [SdoRead OdIndex.OD_INDEX_STATUSWORD 0 false]
       OdIndex.OD_INDEX_CONTROLWORD 0 false 0x80 = false
  /\ trace_ (snd (setDriveStateViaSdo (C := bench faultyMailbox)
                    DriveState.OperationEnabled
                    (benchElmo faultyMailbox 3 1000 1000000)))
     = [SdoWrite OdIndex.OD_INDEX_CONTROLWORD 0 false 0x0F;
        SdoWrite OdIndex.OD_INDEX_CONTROLWORD 0 false 0x07;
        SdoWrite OdIndex.OD_INDEX_CONTROLWORD 0 false 0x06;
        SdoWrite OdIndex.OD_INDEX_CONTROLWORD 0 false 0x80;
        SdoRead OdIndex.OD_INDEX_STATUSWORD 0 false].
Proof. vm_compute. repeat split. Qed.

(** C3, as first stated, fails here: with a minimum of three readings, the drive reports
    operation enabled twice, then switch-on disabled, then operation
    enabled.  The mismatch leaves the counter at two, and the fourth
    reading marks the request successful although the last three
    evaluated readings were not all equal to the target.  And when,
    after the two readings of operation enabled, switch-on disabled is
    requested instead, the request starts with the counter at two and the
    third reading, the first and only one of switch-on disabled, marks it
    successful. *)
Lemma success_after_interrupted_readings :
  let e2 := calls (C := bench glitchingDrive)
              (busCycle glitchingDrive ++ busCycle glitchingDrive)
              (requested glitchingDrive 3 1000 1000000) in
  let e3 := calls (C := bench glitchingDrive) (busCycle glitchingDrive) e2 in
  let e4 := calls (C := bench glitchingDrive) (busCycle glitchingDrive) e3 in
  let r2 := call (C := bench glitchingDrive)
              (CallSetDriveStateViaPdo DriveState.SwitchOnDisabled) e2 in
  let r3 := calls (C := bench glitchingDrive) (busCycle glitchingDrive) r2 in
  (numberOfSuccessfulTargetStateReadings_ e2 = 2
   /\ Reading_getDriveState (C := bench glitchingDrive) (reading_ e3)
      = DriveState.SwitchOnDisabled
   /\ numberOfSuccessfulTargetStateReadings_ e3 = 2
   /\ stateChangeSuccessful_ e3 = false
   /\ Reading_getDriveState (C := bench glitchingDrive) (reading_ e4)
      = DriveState.OperationEnabled
   /\ stateChangeSuccessful_ e4 = true
   /\ conductStateChange_ e4 = false)
  /\ (minNumberOfSuccessfulTargetStateReadings (configuration_ r2) = 3
      /\ targetDriveState_ r2 = DriveState.SwitchOnDisabled
      /\ conductStateChange_ r2 = true
      /\ stateChangeSuccessful_ r2 = false
      /\ numberOfSuccessfulTargetStateReadings_ r2 = 2
      /\ Reading_getDriveState (C := bench glitchingDrive) (reading_ r2)
         = DriveState.OperationEnabled
      /\ readsSoFar (trace_ r3) = S (readsSoFar (trace_ r2))
      /\ Reading_getDriveState (C := bench glitchingDrive) (reading_ r3)
         = DriveState.SwitchOnDisabled
      /\ stateChangeSuccessful_ r3 = true
      /\ conductStateChange_ r3 = false).
Proof. vm_compute. repeat split. Qed.

(** C4, as first stated, fails here.  With a minimum of one reading, the call of the engine that
    declares success returns with [hasRead_] still set.  And with a
    current tx type for which [updateRead] has no case, the read half
    raises [hasRead_] without reading a record: the engine is called in
    two write halves in a row, both times on the statusword the object
    started with, and no record has been read from the bus at all. *)
Lemma engine_evaluates_sample_twice :
  let e := call (C := bench glitchingDrive) CallUpdateRead
             (requested glitchingDrive 1 1000 1000000) in
  let first := call (C := bench glitchingDrive) CallUpdateRead requestedWithoutTxCase in
  let second := calls (C := bench glitchingDrive) [CallUpdateWrite; CallUpdateRead] first in
  (engages e = true
   /\ hasRead_ e = true
   /\ hasRead_ (snd (engagePdoStateMachine (C := bench glitchingDrive) e)) = true
   /\ stateChangeSuccessful_ (snd (engagePdoStateMachine (C := bench glitchingDrive) e))
      = true)
  /\ (engages first = true
      /\ engages second = true
      /\ existsb (isUpdateRead (C := bench glitchingDrive))
           [CallUpdateWrite; CallUpdateRead] = true
      /\ readsSoFar (trace_ second) = 0%nat
      /\ statusword (reading_ first) = statusword (reading_ requestedWithoutTxCase)
      /\ statusword (reading_ second) = statusword (reading_ first)).
Proof. vm_compute. repeat split. Qed.

(** ** Inputs at which the further properties apply *)

(** The stuck drive, three milliseconds after the request: the write half
    sends the shutdown command and clears [hasRead_]. *)
Lemma updateWrite_sends_selected_transition_witness :
  hasRead_ stuckAfterRead = true
  /\ hasRead_ (snd (updateWrite (C := bench stuckDrive) stuckAfterRead)) = false.
Proof.
  split; [reflexivity|].
  assert (Hne : targetDriveState_ stuckAfterRead
                <> Reading_getDriveState (C := bench stuckDrive)
                     (reading_ stuckAfterRead)).
  { vm_compute. discriminate. }
  assert (Hlate : driveStateChangeMinTimeout (configuration_ stuckAfterRead)
                  < steadyClockAnswer (Collaborators := bench stuckDrive)
                      (trace_ stuckAfterRead)
                    - driveStateChangeTimePoint_ stuckAfterRead).
  { vm_compute. reflexivity. }
  destruct (updateWrite_sends_selected_transition (C := bench stuckDrive)
              stuckAfterRead eq_refl eq_refl eq_refl eq_refl eq_refl eq_refl Hne Hlate)
    as (t & frame & _ & _ & _ & _ & H & _).
  exact H.
Defined.

(** A configured object with no request pending: two write halves, twice
    the same record. *)
Lemma updateWrite_idle_repeats_witness :
  exists frame,
    isWriteRxPdo frame = true
    /\ snd (updateWrite (C := bench glitchingDrive)
              (snd (updateWrite (C := bench glitchingDrive)
                      (benchElmo glitchingDrive 3 1000 1000000))))
       = set_trace_ (C := bench glitchingDrive) [frame; frame]
           (benchElmo glitchingDrive 3 1000 1000000).
Proof.
  exact (updateWrite_idle_repeats (C := bench glitchingDrive)
           (benchElmo glitchingDrive 3 1000 1000000) eq_refl eq_refl eq_refl).
Defined.

(** An unimplemented rx type is accepted. *)
Lemma configurePdo_accepts_any_set_type_witness :
  fst (configureRxPdo (C := bench glitchingDrive) RxPdoTypeEnum.Unimplemented
         (benchElmo glitchingDrive 3 1000 1000000)) = true
  /\ fst (configureTxPdo (C := bench glitchingDrive) TxPdoTypeEnum.TxPdoCST
            (benchElmo glitchingDrive 3 1000 1000000)) = true.
Proof.
  split.
  - apply (proj1 (configurePdo_accepts_any_set_type (C := bench glitchingDrive)
                    RxPdoTypeEnum.Unimplemented TxPdoTypeEnum.TxPdoCST
                    (benchElmo glitchingDrive 3 1000 1000000))).
    discriminate.
  - apply (proj2 (configurePdo_accepts_any_set_type (C := bench glitchingDrive)
                    RxPdoTypeEnum.Unimplemented TxPdoTypeEnum.TxPdoCST
                    (benchElmo glitchingDrive 3 1000 1000000))).
    discriminate.
Defined.

(** Start-up of the bench object, whose stored types are both standard. *)
Lemma startup_short_circuits_witness :
  fst (startup (C := bench glitchingDrive) (benchElmo glitchingDrive 3 1000 1000000))
  = true
  /\ currentRxPdoTypeEnum_
       (snd (startup (C := bench glitchingDrive)
               (benchElmo glitchingDrive 3 1000 1000000)))
     = RxPdoTypeEnum.RxPdoStandard.
Proof.
  split; [reflexivity|].
  apply (proj1 (proj2 (proj2 (startup_short_circuits (C := bench glitchingDrive)
                                (benchElmo glitchingDrive 3 1000 1000000))))).
  reflexivity.
Defined.

(** Mapping the reduced records on a mailbox that reads back what was
    written succeeds; on one that reads back something else the rx side
    fails. *)
Lemma mapPdos_success_sets_types_witness :
  currentRxPdoTypeEnum_
    (snd (mapPdos (C := bench echoingDrive) RxPdoTypeEnum.RxPdoCST TxPdoTypeEnum.TxPdoCST
            (benchElmo echoingDrive 3 1000 1000000)))
  = RxPdoTypeEnum.RxPdoCST
  /\ currentRxPdoTypeEnum_
       (snd (mapPdos (C := bench glitchingDrive) RxPdoTypeEnum.RxPdoCST
               TxPdoTypeEnum.TxPdoCST (benchElmo glitchingDrive 3 1000 1000000)))
     = RxPdoTypeEnum.RxPdoStandard.
Proof.
  split.
  - apply (proj1 (mapPdos_success_sets_types (C := bench echoingDrive)
                    RxPdoTypeEnum.RxPdoCST TxPdoTypeEnum.TxPdoCST
                    (benchElmo echoingDrive 3 1000 1000000))).
    vm_compute. reflexivity.
  - apply (proj2 (mapPdos_success_sets_types (C := bench glitchingDrive)
                    RxPdoTypeEnum.RxPdoCST TxPdoTypeEnum.TxPdoCST
                    (benchElmo glitchingDrive 3 1000 1000000))).
    vm_compute. reflexivity.
Defined.

(** Mapping the standard records from an empty log. *)
Lemma mapPdos_assignment_sequence_witness :
  exists objects,
    writesOn OdIndex.OD_INDEX_TX_PDO_ASSIGNMENT
      (trace_ (snd (mapPdos (C := bench glitchingDrive) RxPdoTypeEnum.RxPdoStandard
                      TxPdoTypeEnum.TxPdoStandard
                      (benchElmo glitchingDrive 3 1000 1000000))))
    = rev (assignmentSequence objects)
      ++ writesOn OdIndex.OD_INDEX_TX_PDO_ASSIGNMENT
           (trace_ (benchElmo glitchingDrive 3 1000 1000000)).
Proof.
  exact (proj2 (mapPdos_assignment_sequence (C := bench glitchingDrive)
                  RxPdoTypeEnum.RxPdoStandard TxPdoTypeEnum.TxPdoStandard
                  (benchElmo glitchingDrive 3 1000 1000000)) eq_refl).
Defined.

(** Fault is not a state the blocking path can be asked for. *)
Lemma setDriveStateViaSdo_turns_down_witness :
  requestable DriveState.Fault = false
  /\ fst (setDriveStateViaSdo (C := bench glitchingDrive) DriveState.Fault
            (benchElmo glitchingDrive 3 1000 1000000)) = false.
Proof.
  split; [reflexivity|].
  apply (setDriveStateViaSdo_turns_down (C := bench glitchingDrive) DriveState.Fault
           (benchElmo glitchingDrive 3 1000 1000000)).
  left. reflexivity.
Defined.

(** Nor one the lookup has a transition for. *)
Lemma getNextStateTransitionControlword_turns_down_witness :
  requestable DriveState.Fault = false
  /\ fst (getNextStateTransitionControlword (C := bench glitchingDrive)
            DriveState.Fault DriveState.OperationEnabled
            (benchElmo glitchingDrive 3 1000 1000000)) = 0.
Proof.
  split; [reflexivity|].
  rewrite (getNextStateTransitionControlword_turns_down (C := bench glitchingDrive)
             DriveState.Fault DriveState.OperationEnabled
             (benchElmo glitchingDrive 3 1000 1000000) eq_refl).
  reflexivity.
Defined.

(** Operation enabled requested from a drive in fault, on both paths. *)
Lemma setDriveStateViaSdo_follows_lookup_witness :
  exists t,
    fst (getNextStateTransitionControlword (C := bench faultyMailbox)
           DriveState.OperationEnabled DriveState.Fault
           (benchElmo faultyMailbox 3 1000 1000000))
    = benchTransitionCommand t
    /\ trace_ (snd (setDriveStateViaSdo (C := bench faultyMailbox)
                      DriveState.OperationEnabled
                      (benchElmo faultyMailbox 3 1000 1000000)))
       = rev (map (transitionWrite (C := bench faultyMailbox))
                (standardChain 5 DriveState.OperationEnabled (transitionTarget t)))
         ++ [transitionWrite (C := bench faultyMailbox) t;
             SdoRead OdIndex.OD_INDEX_STATUSWORD 0 false].
Proof.
  apply (setDriveStateViaSdo_follows_lookup (C := bench faultyMailbox)
           DriveState.OperationEnabled (benchElmo faultyMailbox 3 1000 1000000)).
  - reflexivity.
  - reflexivity.
  - discriminate.
Defined.

(** Waiting on the stuck drive, whose clock advances with every call. *)
Lemma setDriveStateViaPdo_waiting_returns_witness :
  exists fuel answer,
    fst (setDriveStateViaPdo (C := bench stuckDrive) (fun _ x => x) fuel
           DriveState.OperationEnabled true (benchElmo stuckDrive 3 1000 2500))
    = Some answer
    /\ stateChangeSuccessful_
         (snd (setDriveStateViaPdo (C := bench stuckDrive) (fun _ x => x) fuel
                 DriveState.OperationEnabled true (benchElmo stuckDrive 3 1000 2500)))
       = answer.
Proof.
  apply (setDriveStateViaPdo_waiting_returns (C := bench stuckDrive) (fun _ x => x)
           DriveState.OperationEnabled (benchElmo stuckDrive 3 1000 2500)).
  - intro t. change (Z.of_nat (length t) <= 1000 * Z.of_nat (length t)). lia.
  - intros k x. lia.
  - intros k x. reflexivity.
Defined.

(** A drive that reports operation enabled in every record, with a
    minimum of three readings: pending for two cycles, successful in the
    third. *)
Lemma steady_target_succeeds_witness :
  stateChangeSuccessful_
    (busCycles (C := bench echoingDrive) 2 (requested echoingDrive 3 1000 1000000))
  = false
  /\ stateChangeSuccessful_
       (busCycles (C := bench echoingDrive) 3 (requested echoingDrive 3 1000 1000000))
     = true.
Proof.
  destruct (steady_target_succeeds (C := bench echoingDrive) 2
              (requested echoingDrive 3 1000 1000000))
    as (_ & H2 & _ & H3 & _).
  - intro t. reflexivity.
  - reflexivity.
  - reflexivity.
  - reflexivity.
  - reflexivity.
  - split; [exact H2 | exact H3].
Defined.

(** The same drive asked again two readings into a request that needs
    three: the counter left over is two, and the new request is marked
    successful by its first bus cycle. *)
Lemma new_request_keeps_count_witness :
  minNumberOfSuccessfulTargetStateReadings (configuration_ afterTwoReadings) = 3
  /\ numberOfSuccessfulTargetStateReadings_ afterTwoReadings = 2
  /\ numberOfSuccessfulTargetStateReadings_
       (snd (setDriveStateViaPdo (C := bench echoingDrive) (fun _ x => x) 0
               DriveState.OperationEnabled false afterTwoReadings))
     = 2
  /\ stateChangeSuccessful_
       (snd (setDriveStateViaPdo (C := bench echoingDrive) (fun _ x => x) 0
               DriveState.OperationEnabled false afterTwoReadings))
     = false
  /\ stateChangeSuccessful_
       (busCycles (C := bench echoingDrive) 1
          (snd (setDriveStateViaPdo (C := bench echoingDrive) (fun _ x => x) 0
                  DriveState.OperationEnabled false afterTwoReadings)))
     = true.
Proof.
  split; [vm_compute; reflexivity|]. split; [vm_compute; reflexivity|].
  destruct (new_request_keeps_count (C := bench echoingDrive) (fun _ x => x) 0
              DriveState.OperationEnabled 0 afterTwoReadings)
    as (Hcount & _ & Hbefore & Hafter).
  - intro t. reflexivity.
  - vm_compute. reflexivity.
  - vm_compute. reflexivity.
  - vm_compute. reflexivity.
  - split; [rewrite Hcount; vm_compute; reflexivity|].
    split; [exact Hbefore | exact Hafter].
Defined.

(** The stuck drive with a fresh reading of switch-on disabled. *)
Lemma engagePdoStateMachine_records_nothing_witness :
  reading_ (snd (engagePdoStateMachine (C := bench stuckDrive) stuckAfterRead))
  = reading_ stuckAfterRead.
Proof.
  apply (engagePdoStateMachine_records_nothing (C := bench stuckDrive) stuckAfterRead).
  - reflexivity.
  - reflexivity.
Defined.

